(** * arsdata: call-number cleaning, LC sort keys and the ranking pass

    A shallow embedding of [ard_data_with_index.py] (whose text-cleaning
    functions are shared, verbatim, with [arsdatacleaning.py]) and the
    properties of its specification.

    - Strings.  A Python string is a sequence of Unicode code points: a
      [list N].  Whitespace ([str.strip], [\s]) and decimal digits ([\d])
      are those of the Unicode database; [[0-9]] and [[A-Z]] are ASCII.
    - Regular expressions.  Each pattern of the script is written out as
      the scanner it denotes; the scanner's comment names the pattern and
      says why the greedy choice it makes is the one the backtracking
      matcher ends on.
    - Numbers.  Integers are [Z].  A class number is a binary64 float,
      kept exactly as an integer multiple of [2^-1074], with the rounding
      of [float()]; infinity is a value of its own.
    - Exceptions.  Code that can raise returns an [option]; on which
      inputs the sort key and the ranking pass return is then a theorem.
    - Dictionaries.  A row is a [gmap] from field names to values, the
      index from row ids to ranks a [gmap Z Z].  The entries that the
      script adds to a row's dict with a value that is no string (the row
      id, the sort key, the rank) are fields of a record beside the map of
      the other entries, which then has no entry under their names. *)

From Stdlib Require Import ZArith NArith List Lia String Ascii Bool.
From Stdlib Require Import Sorted Permutation.
From stdpp Require Import base option list gmap.

(** ** Strings as lists of code points *)

Abbreviation pystr := (list N).

(** A literal of the script (all of them are ASCII). *)
Definition py (s : string) : pystr :=
  List.map N_of_ascii (list_ascii_of_string s).
Arguments py s%_string.

Definition SPACE : N := 32.
Definition NEWLINE : N := 10.
Definition PERIOD : N := 46.
Definition SEMICOLON : N := 59.

(** [str.isspace] on one character, which is also what [\s] matches in a
    [str] pattern: the characters of the Unicode database that are
    whitespace. *)
Definition isspace (c : N) : bool :=
  ((9 <=? c) && (c <=? 13) || (28 <=? c) && (c <=? 32)
   || (c =? 133) || (c =? 160) || (c =? 5760)
   || (8192 <=? c) && (c <=? 8202)
   || (c =? 8232) || (c =? 8233) || (c =? 8239) || (c =? 8287)
   || (c =? 12288))%N.

(** The decimal digits of the Unicode database (general category Nd,
    Unicode 14.0, the one CPython 3.11 ships): what [\d] matches in a
    [str] pattern.  Each entry is an inclusive range. *)
Definition decimal_ranges : list (N * N) :=
  [(48, 57); (1632, 1641); (1776, 1785); (1984, 1993); (2406, 2415);
   (2534, 2543); (2662, 2671); (2790, 2799); (2918, 2927); (3046, 3055);
   (3174, 3183); (3302, 3311); (3430, 3439); (3558, 3567); (3664, 3673);
   (3792, 3801); (3872, 3881); (4160, 4169); (4240, 4249); (6112, 6121);
   (6160, 6169); (6470, 6479); (6608, 6617); (6784, 6793); (6800, 6809);
   (6992, 7001); (7088, 7097); (7232, 7241); (7248, 7257); (42528, 42537);
   (43216, 43225); (43264, 43273); (43472, 43481); (43504, 43513);
   (43600, 43609); (44016, 44025); (65296, 65305); (66720, 66729);
   (68912, 68921); (69734, 69743); (69872, 69881); (69942, 69951);
   (70096, 70105); (70384, 70393); (70736, 70745); (70864, 70873);
   (71248, 71257); (71360, 71369); (71472, 71481); (71904, 71913);
   (72016, 72025); (72784, 72793); (73040, 73049); (73120, 73129);
   (92768, 92777); (92864, 92873); (93008, 93017); (120782, 120831);
   (123200, 123209); (123632, 123641); (125264, 125273);
   (130032, 130041)]%N.

Definition in_range (c : N) (r : N * N) : bool :=
  ((fst r <=? c) && (c <=? snd r))%N.

Definition isdecimal (c : N) : bool := existsb (in_range c) decimal_ranges.

(** The character classes [[0-9]] and [[A-Z]]. *)
Definition is_digit (c : N) : bool := ((48 <=? c) && (c <=? 57))%N.
Definition is_upper (c : N) : bool := ((65 <=? c) && (c <=? 90))%N.

(** [not s] on a string. *)
Definition is_empty (s : pystr) : bool :=
  match s with [] => true | _ => false end.

(** Longest prefix of characters in a class, and what follows it: a
    greedy [X*]. *)
Fixpoint span (p : N -> bool) (s : pystr) : pystr * pystr :=
  match s with
  | [] => ([], [])
  | c :: t => if p c then let '(a, b) := span p t in (c :: a, b)
              else ([], s)
  end.

Definition drop_while (p : N -> bool) (s : pystr) : pystr := snd (span p s).

(** [s.strip()] *)
Definition lstrip (s : pystr) : pystr := drop_while isspace s.
Definition rstrip (s : pystr) : pystr := rev (drop_while isspace (rev s)).
Definition strip (s : pystr) : pystr := rstrip (lstrip s).

(** [$] without [re.MULTILINE]: at the end of the string, or just before
    a newline that is the last character. *)
Definition at_dollar (rest : pystr) : bool :=
  match rest with
  | [] => true
  | [c] => (c =? NEWLINE)%N
  | _ => false
  end.

(** ** Text normalizer *)

(** Every character but [c]: the classes [[^;]] and [.]. *)
Definition other_than (c x : N) : bool := negb (x =? c)%N.

(** [re.match] of the pattern [^(A);A;(A);.*$] on [s], where [A] stands
    for the run [[^;]*]: the groups 1 and 2 of the match, if there is one.
    A run [A] stops at the first [;] (or at the end), and giving characters
    back cannot help, the next token being a [;].  [.] is every character
    but the newline; [.*] runs to the first newline or to the end, and a
    shorter run would leave [$] in front of a character that is not a
    newline. *)
Definition match_availability (s : pystr) : option (pystr * pystr) :=
  let '(g1, r1) := span (other_than SEMICOLON) s in
  match r1 with
  | [] => None
  | _ :: r1' =>
      let '(_, r2) := span (other_than SEMICOLON) r1' in
      match r2 with
      | [] => None
      | _ :: r2' =>
          let '(g2, r3) := span (other_than SEMICOLON) r2' in
          match r3 with
          | [] => None
          | _ :: r3' =>
              let '(_, r4) := span (other_than NEWLINE) r3' in
              if at_dollar r4 then Some (g1, g2) else None
          end
      end
  end.

(** [extract_from_physical_availability(text)]; [None] is Python's [None]
    (a field that [row.get] does not find a string for). *)
Definition extract_from_physical_availability (text : option pystr)
  : pystr * pystr :=
  match text with
  | None => ([], [])
  | Some [] => ([], [])
  | Some text =>
      let s := strip text in
      match match_availability s with
      | Some (g1, g2) => (strip g1, strip g2)
      | None => (s, [])
      end
  end.

(** [re.sub] of the pattern [\s+] by one space: every maximal run of
    whitespace becomes one space.  [in_run] says that the previous
    character was whitespace, so that the run's replacement is already
    written. *)
Fixpoint sub_ws_runs (in_run : bool) (s : pystr) : pystr :=
  match s with
  | [] => []
  | c :: t =>
      if isspace c
      then if in_run then sub_ws_runs true t else SPACE :: sub_ws_runs true t
      else c :: sub_ws_runs false t
  end.

(** The lookahead body [\d{4}$] at the characters after a space. *)
Definition four_digits_then_end (rest : pystr) : bool :=
  match rest with
  | d1 :: d2 :: d3 :: d4 :: rest' =>
      isdecimal d1 && isdecimal d2 && isdecimal d3 && isdecimal d4
      && at_dollar rest'
  | _ => false
  end.

(** [re.sub] of the pattern [ (?!\d{4}$)] (a space, then the negative
    lookahead) by the empty string: a space is deleted unless the lookahead
    body matches right after it. *)
Fixpoint sub_spaces (s : pystr) : pystr :=
  match s with
  | [] => []
  | c :: t =>
      if (c =? SPACE)%N && negb (four_digits_then_end t)
      then sub_spaces t
      else c :: sub_spaces t
  end.

Definition clean_call_number_keep_space_before_year (s : option pystr)
  : pystr :=
  match s with
  | None => []
  | Some [] => []
  | Some s =>
      let s := strip s in
      let s := sub_ws_runs false s in
      sub_spaces s
  end.

(** ** Numbers of the sort key *)

(** A slot that holds a Python [int] or [float('inf')]. *)
Inductive xint := IFin (n : Z) | IInf.

(** A slot that holds a [float]: the finite floats that [float()] makes
    of a decimal numeral are non-negative binary64 numbers, all of them
    multiples of [2^-1074]; [FFin m] is the float [m * 2^-1074]. *)
Inductive xfloat := FFin (m : Z) | FInf.

Definition xint_eqb (a b : xint) : bool :=
  match a, b with
  | IFin x, IFin y => (x =? y)%Z
  | IInf, IInf => true
  | _, _ => false
  end.

Definition xint_ltb (a b : xint) : bool :=
  match a, b with
  | IFin x, IFin y => (x <? y)%Z
  | IFin _, IInf => true
  | IInf, _ => false
  end.

Definition xfloat_eqb (a b : xfloat) : bool :=
  match a, b with
  | FFin x, FFin y => (x =? y)%Z
  | FInf, FInf => true
  | _, _ => false
  end.

Definition xfloat_ltb (a b : xfloat) : bool :=
  match a, b with
  | FFin x, FFin y => (x <? y)%Z
  | FFin _, FInf => true
  | FInf, _ => false
  end.

(** The value of a run of characters of [[0-9]], most significant first. *)
Definition digit_val (c : N) : Z := Z.of_N c - 48.
Definition digits_value (ds : pystr) : Z :=
  fold_left (fun acc c => 10 * acc + digit_val c)%Z ds 0%Z.

(** The interpreter's limit on the number of digit characters that [int]
    converts ([sys.get_int_max_str_digits()], 4300 unless the interpreter
    was started or set otherwise); leading zeros count. *)
Definition int_max_str_digits : Z := 4300.

Definition within_int_limit (text : pystr) : bool :=
  (Z.of_nat (length text) <=? int_max_str_digits)%Z.

(** [int(text)] on the texts the script converts, which are non-empty runs
    of [[0-9]]; [None] stands for [ValueError], which [int] raises on a
    run of more than [int_max_str_digits] digits, and for a text outside
    this fragment (where [int] raises too, or reads a syntax that is not
    needed here).  Within the limit the value is the mathematical one:
    Python integers are unbounded. *)
Definition int_of_str (text : pystr) : option Z :=
  match text with
  | [] => None
  | _ =>
      if forallb is_digit text && within_int_limit text
      then Some (digits_value text)
      else None
  end.

(** Nearest integer to [p / q] for [0 < q], ties to the even one. *)
Definition round_half_even (p q : Z) : Z :=
  let f := (p / q)%Z in
  let r := (p mod q)%Z in
  if (2 * r <? q)%Z then f
  else if (q <? 2 * r)%Z then (f + 1)%Z
  else if Z.even f then f else (f + 1)%Z.

(** The binary64 float nearest to [p / q] (round to nearest, ties to
    even, as [float()] rounds), for [0 <= p] and [0 < q].  In units of
    [2^-1074] the floats are the integers of at most 53 significant bits
    below [2^2098]; rounding past the largest of them gives infinity. *)
Definition binary64_of_ratio (p q : Z) : xfloat :=
  let x := (p * 2 ^ 1074)%Z in
  let bits := (Z.log2 (x / q) + 1)%Z in
  let j := Z.max 0 (bits - 53) in
  let m := (round_half_even x (q * 2 ^ j) * 2 ^ j)%Z in
  if (2 ^ 2098 <=? m)%Z then FInf else FFin m.

(** [float(text)] on the texts the script converts: a run of [[0-9]],
    optionally followed by a period and another run; [None] outside this
    fragment. *)
Definition float_of_str (text : pystr) : option xfloat :=
  let '(ip, r) := span is_digit text in
  match ip, r with
  | [], _ => None
  | _, [] => Some (binary64_of_ratio (digits_value ip) 1)
  | _, c :: fp =>
      if (c =? PERIOD)%N && negb (is_empty fp) && forallb is_digit fp
      then Some (binary64_of_ratio (digits_value (ip ++ fp))
                                   (10 ^ Z.of_nat (length fp)))
      else None
  end.

(** ** The sort key and its order *)

(** The tuple [lc_sort_key] returns, with the names of its docstring. *)
Record SortKey := mkSortKey {
  class_letters : pystr;
  class_number : xfloat;
  cutter1_letter : pystr;
  cutter1_num : xint;
  cutter2_letter : pystr;
  cutter2_num : xint;
  cutter3_letter : pystr;
  cutter3_num : xint;
  year : xint
}.

(** [==] and [<] on strings: by code point, a proper prefix first. *)
Fixpoint str_eqb (a b : pystr) : bool :=
  match a, b with
  | [], [] => true
  | x :: a', y :: b' => (x =? y)%N && str_eqb a' b'
  | _, _ => false
  end.

Fixpoint str_ltb (a b : pystr) : bool :=
  match a, b with
  | _, [] => false
  | [], _ :: _ => true
  | x :: a', y :: b' =>
      if (x =? y)%N then str_ltb a' b' else (x <? y)%N
  end.

(** One position of a tuple comparison: Python looks for the first
    position where the two tuples differ and compares there; [rest] is the
    outcome of the positions that follow. *)
Definition lex {A : Type} (eqb ltb : A -> A -> bool) (x y : A) (rest : bool)
  : bool :=
  if eqb x y then rest else ltb x y.

(** [a < b] on two keys; tuples that agree everywhere have the same
    length, and are not below one another. *)
Definition key_ltb (a b : SortKey) : bool :=
  lex str_eqb str_ltb (class_letters a) (class_letters b)
  (lex xfloat_eqb xfloat_ltb (class_number a) (class_number b)
  (lex str_eqb str_ltb (cutter1_letter a) (cutter1_letter b)
  (lex xint_eqb xint_ltb (cutter1_num a) (cutter1_num b)
  (lex str_eqb str_ltb (cutter2_letter a) (cutter2_letter b)
  (lex xint_eqb xint_ltb (cutter2_num a) (cutter2_num b)
  (lex str_eqb str_ltb (cutter3_letter a) (cutter3_letter b)
  (lex xint_eqb xint_ltb (cutter3_num a) (cutter3_num b)
  (lex xint_eqb xint_ltb (year a) (year b) false)))))))).

(** [a == b] on two keys. *)
Definition key_eqb (a b : SortKey) : bool :=
  str_eqb (class_letters a) (class_letters b)
  && xfloat_eqb (class_number a) (class_number b)
  && str_eqb (cutter1_letter a) (cutter1_letter b)
  && xint_eqb (cutter1_num a) (cutter1_num b)
  && str_eqb (cutter2_letter a) (cutter2_letter b)
  && xint_eqb (cutter2_num a) (cutter2_num b)
  && str_eqb (cutter3_letter a) (cutter3_letter b)
  && xint_eqb (cutter3_num a) (cutter3_num b)
  && xint_eqb (year a) (year b).

(** [sorted(rows, key=...)]: Python's sort is stable and compares keys
    with [<] only.  The list it returns is the one stable insertion
    builds: an element goes in front of the first element whose key is not
    below its own, so in front of the later elements with an equal key. *)
Fixpoint insert_by {A : Type} (key : A -> SortKey) (x : A) (l : list A)
  : list A :=
  match l with
  | [] => [x]
  | y :: l' =>
      if key_ltb (key y) (key x) then y :: insert_by key x l'
      else x :: l
  end.

Definition sorted_by {A : Type} (key : A -> SortKey) (l : list A) : list A :=
  foldr (insert_by key) [] l.

(** ** Call-number tokenizer *)

(** At most [n] characters of a class, greedily: [X{1,n}] once the caller
    has checked that the run is not empty. *)
Fixpoint span_max (n : nat) (p : N -> bool) (s : pystr) : pystr * pystr :=
  match n, s with
  | S n', c :: t =>
      if p c then let '(a, b) := span_max n' p t in (c :: a, b)
      else ([], s)
  | _, _ => ([], s)
  end.

(** [re.match] of [\s*([A-Z]{1,3})\s*([0-9]+(?:\.[0-9]+)?)?] on [s]:
    group 1, group 2 when it takes part in the match, and [m.end()].
    Everything after the letters is optional, so the match the engine
    returns is the one where each greedy run is as long as it can be:
    whitespace, up to three letters, whitespace, then the numeral if a
    digit follows, with its fraction if a period and a digit follow. *)
Definition match_class (s : pystr) : option (pystr * option pystr * nat) :=
  let '(w1, r1) := span isspace s in
  let '(letters, r2) := span_max 3 is_upper r1 in
  if is_empty letters then None
  else
    let '(w2, r3) := span isspace r2 in
    let '(ip, r4) := span is_digit r3 in
    let before := (length w1 + length letters + length w2)%nat in
    if is_empty ip then Some (letters, None, before)
    else
      let frac :=
        match r4 with
        | c :: r5 =>
            if (c =? PERIOD)%N
            then let '(fp, _) := span is_digit r5 in
                 if is_empty fp then [] else c :: fp
            else []
        | [] => []
        end in
      Some (letters, Some (ip ++ frac),
            (before + length ip + length frac)%nat).

Definition _parse_class_and_number (s : pystr)
  : option (pystr * xfloat * nat) :=
  match match_class s with
  | None => Some ([], FInf, 0%nat)
  | Some (letters, g2, e) =>
      match g2 with
      | Some text => num ← float_of_str text; Some (letters, num, e)
      | None => Some (letters, FInf, e)
      end
  end.

(** The pattern [_cutter_re], [\.?\s*([A-Z])\s*([0-9]+)], tried at the
    start of [s]: groups 1 and 2 and the length of the match.  A period is
    taken when there is one (without it the letter would have to match the
    period), the whitespace runs are followed by a character that is not
    whitespace, and the digits run as far as they go. *)
Definition match_cutter (s : pystr) : option (N * pystr * nat) :=
  let '(dot, r0) :=
    match s with
    | c :: t => if (c =? PERIOD)%N then ([c], t) else ([], s)
    | [] => ([], s)
    end in
  let '(w1, r1) := span isspace r0 in
  match r1 with
  | l :: r2 =>
      if is_upper l then
        let '(w2, r3) := span isspace r2 in
        let '(ds, _) := span is_digit r3 in
        if is_empty ds then None
        else Some (l, ds,
                   (length dot + length w1 + 1 + length w2 + length ds)%nat)
      else None
  | [] => None
  end.

(** The tail [([12][0-9]{3})(?![0-9])] of [_year_re] at [s]: group 1. *)
Definition year_body (s : pystr) : option pystr :=
  match s with
  | d1 :: d2 :: d3 :: d4 :: r =>
      if ((d1 =? 49) || (d1 =? 50))%N
         && is_digit d2 && is_digit d3 && is_digit d4
         && negb (match r with c :: _ => is_digit c | [] => false end)
      then Some [d1; d2; d3; d4]
      else None
  | _ => None
  end.

(** The pattern [_year_re], [(?:^|[^0-9])([12][0-9]{3})(?![0-9])], tried
    at [s]; [at_start] says that [s] is the whole string, where [^]
    matches.  The alternative [^] is tried first.  Group 1 and the length
    of the match. *)
Definition match_year (at_start : bool) (s : pystr) : option (pystr * nat) :=
  match (if at_start then year_body s else None) with
  | Some g => Some (g, 4%nat)
  | None =>
      match s with
      | c :: t =>
          if negb (is_digit c)
          then match year_body t with
               | Some g => Some (g, 5%nat)
               | None => None
               end
          else None
      | [] => None
      end
  end.

(** [pattern.finditer(s)] for a pattern that matches no empty string: the
    matches from left to right, each with its span [(m.start(), m.end())]
    and its groups; the scan resumes where a match ends.  [skip] counts the
    characters of the last match that are still to pass, [pos] is the
    position of the head of [s] in the whole string. *)
Fixpoint finditer {G : Type} (m : bool -> pystr -> option (G * nat))
    (pos skip : nat) (s : pystr) : list (nat * nat * G) :=
  match s with
  | [] => []
  | _ :: t =>
      match skip with
      | S k => finditer m (S pos) k t
      | O =>
          match m (Nat.eqb pos 0) s with
          | Some (g, len) =>
              (pos, (pos + len)%nat, g) :: finditer m (S pos) (len - 1) t
          | None => finditer m (S pos) 0 t
          end
      end
  end.

Definition cutter_matcher (_ : bool) (s : pystr)
  : option ((N * pystr) * nat) :=
  match match_cutter s with
  | Some (l, ds, len) => Some ((l, ds), len)
  | None => None
  end.

(** The loop [for m in _cutter_re.finditer(s): cutters.append(...)]. *)
Fixpoint collect_cutters (ms : list (nat * nat * (N * pystr)))
  : option (list (pystr * xint)) :=
  match ms with
  | [] => Some []
  | (_, (l, ds)) :: ms' =>
      n ← int_of_str ds;
      cs ← collect_cutters ms';
      Some (([l], IFin n) :: cs)
  end.

Definition _parse_cutters_and_extras (s : pystr)
  : option (list (pystr * xint) * xint) :=
  cutters ← collect_cutters (finditer cutter_matcher 0 0 s);
  match last (finditer match_year 0 0 s) with
  | Some (_, g) => y ← int_of_str g; Some (cutters, IFin y)
  | None => Some (cutters, IInf)
  end.

(** [s.replace(old, new)] for a two-character [old]: the occurrences from
    left to right, none overlapping the one before. *)
Fixpoint replace2 (o1 o2 : N) (new : pystr) (s : pystr) : pystr :=
  match s with
  | [] => []
  | x :: t =>
      match t with
      | y :: t' =>
          if ((x =? o1) && (y =? o2))%N then new ++ replace2 o1 o2 new t'
          else x :: replace2 o1 o2 new t
      | [] => [x]
      end
  end.

(** The key of an empty or invalid call number. *)
Definition missing_cutter : pystr * xint := ([], IInf).
Definition all_missing : SortKey :=
  mkSortKey (py "ZZZ") FInf [] IInf [] IInf [] IInf IInf.

(** ** Records of the catalogue *)

(** A row as [csv.DictReader] delivers it: field name to value, the value
    [None] being Python's [None] (what the reader stores for a field that a
    short line does not have). *)
Abbreviation Row := (gmap pystr (option pystr)).

(** [row.get(k, dflt)] *)
Definition get (row : Row) (k : pystr) (dflt : option pystr) : option pystr :=
  match row !! k with
  | Some v => v
  | None => dflt
  end.

(** The loop of [best_call_number_for_sort] over its tuple of field names;
    [row.get(k) or ""] turns a [None] or missing value into the empty string. *)
Fixpoint first_nonempty (row : Row) (ks : list pystr) : pystr :=
  match ks with
  | [] => []
  | k :: ks' =>
      let v := strip (default [] (get row k None)) in
      if is_empty v then first_nonempty row ks' else v
  end.

Definition ranking_fields : list pystr :=
  [py "LC Call Number"; py "Local Call Number"; py "CNfromPA"].

Definition best_call_number_for_sort (row : Row) : pystr :=
  first_nonempty row ranking_fields.

(** The dict of a row between the two passes.  The script writes the row
    id (an integer) and the sort key (a tuple) into the row's own dict,
    under "_row_id" and "_lc_sort_key"; these two entries are the fields
    [_row_id] and [_lc_sort_key] of the record, and [cr_fields] holds every
    other entry of the dict.  An assignment to one of the two names so
    removes what [cr_fields] had under it: a column of the input with that
    name is overwritten. *)
Record CleanedRow := mkCleanedRow {
  cr_fields : Row;
  _row_id : Z;
  _lc_sort_key : SortKey
}.

(** The dict that is handed to the writer: its entry under "LC_SortIndex"
    is the rank, an integer, held by the field [LC_SortIndex]; [w_fields]
    holds every other entry. *)
Record WrittenRow := mkWrittenRow {
  w_fields : Row;
  LC_SortIndex : Z
}.

(** The dict comprehension [{r["_row_id"]: i + 1 for i, r in
    enumerate(sorted_rows)}]; [i] is the index of the head of [l]. *)
Fixpoint build_index (i : Z) (l : list CleanedRow) (d : gmap Z Z)
  : gmap Z Z :=
  match l with
  | [] => d
  | r :: l' => build_index (i + 1) l' (<[_row_id r := (i + 1)%Z]> d)
  end.

(** The final loop: [id_to_index[row["_row_id"]]] raises [KeyError] on an
    id that is not in the dict.  The assignment to [row["LC_SortIndex"]]
    overwrites a column of that name; the two [pop]s remove the internal
    entries, which [cr_fields] does not hold. *)
Fixpoint write_rows (id_to_index : gmap Z Z) (l : list CleanedRow)
  : option (list WrittenRow) :=
  match l with
  | [] => Some []
  | row :: l' =>
      i ← id_to_index !! _row_id row;
      out ← write_rows id_to_index l';
      Some (mkWrittenRow (delete (py "LC_SortIndex") (cr_fields row)) i
              :: out)
  end.

Section Script.

(** Two tables of the Python runtime are parameters.  [upper_full] is
    the uppercase mapping of the characters outside ASCII ([str.upper]
    maps each character by the Unicode database, some to several
    characters).  [sub_and_others] is the substitution of the
    main loop, [re.sub] of the pattern [\band others\b] by the empty string
    with [re.IGNORECASE], whose word boundaries and case folding are the
    database's too. *)
Variable upper_full : N -> pystr.
Variable sub_and_others : pystr -> pystr.

Definition upper_char (c : N) : pystr :=
  if ((97 <=? c) && (c <=? 122))%N then [(c - 32)%N]
  else if (c <? 128)%N then [c]
  else upper_full c.

(** [s.upper()] *)
Definition upper (s : pystr) : pystr := flat_map upper_char s.

(** The string the tokenizer works on: the first lines of [lc_sort_key]. *)
Definition normalize (raw : pystr) : pystr :=
  let s := upper (strip raw) in
  let s := sub_ws_runs false s in
  strip (replace2 SPACE PERIOD [PERIOD] (replace2 PERIOD PERIOD [PERIOD] s)).

(** [lc_sort_key(raw)]; [None] is an exception: a conversion that raises,
    or the unpacking of a list that does not hold three pairs. *)
Definition lc_sort_key (raw : pystr) : option SortKey :=
  if is_empty raw then Some all_missing
  else
    let s := normalize raw in
    '(letters, main_num, idx) ← _parse_class_and_number s;
    let rest := drop idx s in
    '(cutters, year) ← _parse_cutters_and_extras rest;
    let cutters := take 3 (cutters ++ replicate 3 missing_cutter) in
    match cutters with
    | [(c1l, c1n); (c2l, c2n); (c3l, c3n)] =>
        Some (mkSortKey
                (if is_empty letters then py "ZZZ" else letters)
                (if xfloat_eqb main_num main_num then main_num else FInf)
                c1l c1n c2l c2n c3l c3n year)
    | _ => None
    end.

(** The body of the first loop of the script for one row. *)
Definition clean_row (row_id : Z) (row : Row) : option CleanedRow :=
  (* [row["_row_id"] = row_id] *)
  let row := delete (py "_row_id") row in
  let '(location, cn_from_pa) :=
    extract_from_physical_availability
      (get row (py "Physical Availability") (Some [])) in
  let row := <[py "Physical Availability" := Some location]> row in
  let row :=
    <[py "CNfromPA" :=
        Some (clean_call_number_keep_space_before_year (Some cn_from_pa))]>
      row in
  let row :=
    <[py "Local Call Number" :=
        Some (clean_call_number_keep_space_before_year
                (get row (py "Local Call Number") (Some [])))]> row in
  (* [re.sub] raises [TypeError] on [None] *)
  lc_raw ← get row (py "LC Call Number") (Some []);
  let lc_no_others := strip (sub_and_others lc_raw) in
  let row :=
    <[py "LC Call Number" :=
        Some (clean_call_number_keep_space_before_year (Some lc_no_others))]>
      row in
  let call_for_sort := best_call_number_for_sort row in
  key ← lc_sort_key call_for_sort;
  (* [row["_lc_sort_key"] = ...] *)
  Some (mkCleanedRow (delete (py "_lc_sort_key") row) row_id key).

(** First pass: [row_id] is the counter before the row is read. *)
Fixpoint first_pass (row_id : Z) (rows : list Row)
  : option (list CleanedRow) :=
  match rows with
  | [] => Some []
  | row :: rows' =>
      let row_id := (row_id + 1)%Z in
      cr ← clean_row row_id row;
      crs ← first_pass row_id rows';
      Some (cr :: crs)
  end.

(** The two passes and the final loop: the rows handed to the writer, in
    the order they are written. *)
Definition ranking_pass (rows : list Row) : option (list WrittenRow) :=
  cleaned_rows ← first_pass 0 rows;
  let sorted_rows := sorted_by _lc_sort_key cleaned_rows in
  let id_to_index := build_index 0 sorted_rows ∅ in
  write_rows id_to_index cleaned_rows.

End Script.

(** ** The specification's wording, as definitions

    The definitions of this part follow the sentences of the specification,
    not the script; the theorems compare them with the script. *)

(** The segments of a string between the occurrences of a separator. *)
Fixpoint split_on (sep : N) (s : pystr) : list pystr :=
  match s with
  | [] => [[]]
  | c :: t =>
      if (c =? sep)%N then [] :: split_on sep t
      else match split_on sep t with
           | seg :: segs => (c :: seg) :: segs
           | [] => [[c]]
           end
  end.

Definition count_char (c : N) (s : pystr) : nat :=
  length (List.filter (N.eqb c) s).

(** [splitAvailability]: the segment before the first semicolon and the
    one between the second and the third, trimmed; the whole trimmed
    string and an empty fragment when there are fewer than three
    semicolons. *)
Definition splitAvailability_spec (text : pystr) : pystr * pystr :=
  let s := strip text in
  if (3 <=? count_char SEMICOLON s)%nat
  then (strip (nth 0 (split_on SEMICOLON s) []),
        strip (nth 2 (split_on SEMICOLON s) []))
  else (s, []).

Definition remove_spaces (s : pystr) : pystr :=
  List.filter (fun c => negb (c =? SPACE)%N) s.

(** A space that immediately precedes a trailing 4-digit numeral at the
    very end of the string. *)
Definition ends_with_space_year (t : pystr) : bool :=
  match rev t with
  | d4 :: d3 :: d2 :: d1 :: sp :: _ =>
      (sp =? SPACE)%N
      && isdecimal d1 && isdecimal d2 && isdecimal d3 && isdecimal d4
  | _ => false
  end.

(** Step (c) of [collapseSpaces]: every space goes, except that one. *)
Definition delete_spaces_spec (t : pystr) : pystr :=
  if ends_with_space_year t
  then remove_spaces (take (length t - 5) t) ++ drop (length t - 5) t
  else remove_spaces t.

Definition no_whitespace (s : pystr) : bool :=
  forallb (fun c => negb (isspace c)) s.

(** The substring that remains after the classification segment: what
    [lc_sort_key] calls [rest]. *)
Definition class_end (s : pystr) : nat :=
  match match_class s with
  | Some (_, _, e) => e
  | None => 0%nat
  end.

Definition after_class (s : pystr) : pystr := drop (class_end s) s.

(** The names under which the script keeps its own values in a row. *)
Definition internal_fields : list pystr :=
  [py "_row_id"; py "_lc_sort_key"].

(** The three cutter slots of a key, as pairs. *)
Definition cutter_slots (k : SortKey) : list (pystr * xint) :=
  [(cutter1_letter k, cutter1_num k);
   (cutter2_letter k, cutter2_num k);
   (cutter3_letter k, cutter3_num k)].

(** What the two scans of [_parse_cutters_and_extras] yield: the cutter
    pairs in the order of their matches, and the year. *)
Definition cutter_of_match (x : nat * nat * (N * pystr)) : pystr * xint :=
  ([fst (snd x)], IFin (digits_value (snd (snd x)))).

Definition cutters_found (rest : pystr) : list (pystr * xint) :=
  List.map cutter_of_match (finditer cutter_matcher 0 0 rest).

Definition year_found (rest : pystr) : xint :=
  match last (finditer match_year 0 0 rest) with
  | Some (_, g) => IFin (digits_value g)
  | None => IInf
  end.

(** No cutter group of [rest] has more digits than [int] converts: the
    loop of [_parse_cutters_and_extras] converts the digits of every group
    it finds, also of those beyond the third. *)
Definition cutters_convertible (rest : pystr) : bool :=
  forallb (fun x : nat * nat * (N * pystr) => within_int_limit (snd (snd x)))
          (finditer cutter_matcher 0 0 rest).


(** [lc_sort_key] converts every cutter group of the call number: the
    condition under which it returns. *)
Definition sortable (upper_full : N -> pystr) (raw : pystr) : bool :=
  cutters_convertible (after_class (normalize upper_full raw)).


(** The examples are ASCII texts, on which [str.upper] does not consult
    the table of the other characters; they are evaluated with the table
    that leaves every character as it is. *)
Definition keep_char (c : N) : pystr := [c].




(** [selectForRanking]: the trimmed value of a field (empty when the field
    is absent or holds no string), and the first of the three that is not
    empty. *)
Definition trimmed_field (row : Row) (k : pystr) : pystr :=
  match row !! k with
  | Some (Some v) => strip v
  | _ => []
  end.

Definition selectForRanking_spec (row : Row) : pystr :=
  let lc := trimmed_field row (py "LC Call Number") in
  let local := trimmed_field row (py "Local Call Number") in
  let pa := trimmed_field row (py "CNfromPA") in
  if negb (is_empty lc) then lc
  else if negb (is_empty local) then local
  else pa.

(** A pair of cutter slots compared as the tuple comparison compares
    them: letter first, then number. *)
Definition cutter_ltb (a b : pystr * xint) : bool :=
  lex str_eqb str_ltb (fst a) (fst b)
    (lex xint_eqb xint_ltb (snd a) (snd b) false).

(** A batch of three rows for the examples: the call numbers of the
    specification's ranking example, the last one empty.  None of them
    holds the phrase that [sub_and_others] removes, so the substitution
    leaves them as they are. *)
Definition example_row (lc : string) : Row :=
  <[py "Title" := Some (py "t")]>
    (<[py "Local Call Number" := Some []]>
       (<[py "LC Call Number" := Some (py lc)]>
          (<[py "Physical Availability" := Some (py "Stacks;x;y;z")]> ∅))).

Definition example_rows : list Row :=
  [example_row "QA76.73 .C153 2019"; example_row "PS3561 .A1 2001";
   example_row ""].

Definition leave_text (s : pystr) : pystr := s.

(** The example batch after the first loop. *)
Definition example_cleaned : list CleanedRow :=
  default [] (first_pass keep_char leave_text 0 example_rows).

(** A 4-digit numeral in the range 1000 to 2999. *)
Definition is_year_numeral (g : pystr) : bool :=
  (length g =? 4)%nat && forallb is_digit g
  && (1000 <=? digits_value g)%Z && (digits_value g <=? 2999)%Z.

(** No character, or a character that is not a digit. *)
Definition not_digit (o : option N) : bool :=
  match o with
  | Some c => negb (is_digit c)
  | None => true
  end.

(** A year occurs at position [p] of [s]: a 4-digit numeral in the range
    starts there, and neither the character before it nor the one after it
    is a digit. *)
Definition year_occurs_at (s : pystr) (p : nat) : bool :=
  is_year_numeral (take 4 (drop p s))
  && not_digit (match p with O => None | S i => s !! i end)
  && not_digit (s !! (p + 4)%nat).

(** The same test on a suffix [t] of the string, [prev] being the
    character in front of the suffix; and the occurrences in a suffix that
    starts at position [pos], from left to right, each with its numeral. *)
Definition year_occurs_in (prev : option N) (t : pystr) (j : nat) : bool :=
  is_year_numeral (take 4 (drop j t))
  && not_digit (match j with O => prev | S i => t !! i end)
  && not_digit (t !! (j + 4)%nat).

Fixpoint year_occurrences (prev : option N) (pos : nat) (t : pystr)
  : list (nat * pystr) :=
  match t with
  | [] => []
  | c :: t' =>
      (if year_occurs_in prev t 0 then [(pos, take 4 t)] else [])
      ++ year_occurrences (Some c) (S pos) t'
  end.

(** Where the numeral of a match of [_year_re] starts, and the numeral. *)
Definition numeral_of_match (m : nat * nat * pystr) : nat * pystr :=
  ((snd (fst m) - 4)%nat, snd m).

(** A cutter group as the pattern [_cutter_re] has it: an optional period,
    optional whitespace, a capital letter, optional whitespace, one or more
    digits. *)
Definition cutter_group (w : pystr) (l : N) (ds : pystr) : Prop :=
  exists dot w1 w2,
    w = dot ++ w1 ++ l :: w2 ++ ds
    /\ (dot = [] \/ dot = [PERIOD])
    /\ forallb isspace w1 = true
    /\ is_upper l = true
    /\ forallb isspace w2 = true
    /\ ds <> [] /\ forallb is_digit ds = true.

(** The text [t] starts with the group [w], whose digits run as far as
    they go, and goes on with [r]. *)
Definition starts_with_cutter (t w : pystr) (l : N) (ds r : pystr) : Prop :=
  t = w ++ r /\ cutter_group w l ds /\ not_digit (head r) = true.

Definition no_cutter_at (t : pystr) : Prop :=
  forall w l ds r, ~ starts_with_cutter t w l ds r.

(** The cutter groups of a text in their order of appearance: the text is
    a gap in which no group starts, the first group, and the rest of the
    text with its own groups; or no group starts anywhere in it. *)
Inductive cutter_scan : pystr -> list (N * pystr) -> Prop :=
| scan_end s :
    (forall pre t, s = pre ++ t -> no_cutter_at t) ->
    cutter_scan s []
| scan_group gap w l ds r cs :
    (forall pre t, gap = pre ++ t -> t <> [] -> no_cutter_at (t ++ w ++ r)) ->
    starts_with_cutter (w ++ r) w l ds r ->
    cutter_scan r cs ->
    cutter_scan (gap ++ w ++ r) ((l, ds) :: cs).

(** The cutter group as the specification words it: an optional leading
    period, optional spaces, one uppercase letter, one or more digits. *)
Definition cutter_group_as_worded (w : pystr) (l : N) (ds : pystr) : Prop :=
  exists dot w1,
    w = dot ++ w1 ++ l :: ds
    /\ (dot = [] \/ dot = [PERIOD])
    /\ forallb isspace w1 = true
    /\ is_upper l = true
    /\ ds <> [] /\ forallb is_digit ds = true.

(** A capital letter with a digit right after it, somewhere in [s]. *)
Fixpoint letter_then_digit (s : pystr) : bool :=
  match s with
  | l :: t =>
      (is_upper l && match t with d :: _ => is_digit d | [] => false end)
      || letter_then_digit t
  | [] => false
  end.

(** The pair that the script stores for a match: the letter as a string
    and the digits as an integer. *)
Definition cutter_pair (g : N * pystr) : pystr * xint :=
  ([fst g], IFin (digits_value (snd g))).

(** What a slot holds: the pair of the group with the slot's index when
    there is one, the missing pair otherwise. *)
Definition slot_of (g : option (N * pystr)) : pystr * xint :=
  match g with
  | Some g => cutter_pair g
  | None => missing_cutter
  end.

(** ** Notions used in the statements and proofs *)

(** No whitespace at either end. *)
Definition trimmed (s : pystr) : Prop :=
  (forall c r, s = c :: r -> isspace c = false)
  /\ (forall r c, s = r ++ [c] -> isspace c = false).

(** What a pair of Python's [==] and [<] on one slot type has to satisfy
    for the tuple comparison to be a strict total order. *)
Record strict_total {A : Type} (eqb ltb : A -> A -> bool) : Prop := {
  st_eq : forall x y, eqb x y = true <-> x = y;
  st_irrefl : forall x, ltb x x = false;
  st_trans : forall x y z, ltb x y = true -> ltb y z = true -> ltb x z = true;
  st_total : forall x y, ltb x y = false -> ltb y x = false -> x = y
}.

(** [x] may stand in front of [y]: the key of [y] is not below the key
    of [x]. *)
Definition key_le {A : Type} (key : A -> SortKey) (x y : A) : Prop :=
  key_ltb (key y) (key x) = false.

(** [x] comes before [y] in a stable sort, [ident] being the position of
    an element in the input: smaller key, or same key and earlier. *)
Definition before {A : Type} (key : A -> SortKey) (ident : A -> Z)
    (x y : A) : Prop :=
  key_ltb (key x) (key y) = true
  \/ (key x = key y /\ (ident x < ident y)%Z).

(** A row on which the substitution of the loops does not raise: its LC
    Call Number is a string when the field is there ([re.sub] raises on
    [None]). *)
Definition cleanable (row : Row) : Prop :=
  row !! py "LC Call Number" <> Some None.

(** The characters of a string that are not whitespace, in their order. *)
Definition non_space_chars (s : pystr) : pystr :=
  List.filter (fun c => negb (isspace c)) s.

(** The condition under which the pattern of
    [extract_from_physical_availability] matches a trimmed text: three
    semicolons at least, and no newline in what follows the third. *)
Definition has_newline (s : pystr) : bool := existsb (N.eqb NEWLINE) s.

Definition availability_splits (s : pystr) : bool :=
  (3 <=? count_char SEMICOLON s)%nat
  && forallb (fun seg => negb (has_newline seg)) (drop 3 (split_on SEMICOLON s)).

(** What [lc_sort_key] computes from the normalized string: the lines of
    the function after the normalization. *)
Definition key_of_normalized (s : pystr) : option SortKey :=
  '(letters, main_num, idx) ← _parse_class_and_number s;
  let rest := drop idx s in
  '(cutters, year) ← _parse_cutters_and_extras rest;
  let cutters := take 3 (cutters ++ replicate 3 missing_cutter) in
  match cutters with
  | [(c1l, c1n); (c2l, c2n); (c3l, c3n)] =>
      Some (mkSortKey
              (if is_empty letters then py "ZZZ" else letters)
              (if xfloat_eqb main_num main_num then main_num else FInf)
              c1l c1n c2l c2n c3l c3n year)
  | _ => None
  end.

(** A string of ASCII characters, and [str.upper] on one of them. *)
Definition is_ascii (s : pystr) : bool := forallb (fun c => (c <? 128)%N) s.

Definition ascii_upper (c : N) : N :=
  if ((97 <=? c) && (c <=? 122))%N then (c - 32)%N else c.

(** A batch whose rows come in call-number order. *)
Definition ordered_rows : list Row :=
  [example_row "PS3561 .A1 2001"; example_row "QA76.73 .C153 2019";
   example_row ""].

(** ** The cleaning script

    [arsdatacleaning.py] has the first three functions of the index script,
    word for word, and a single loop that cleans each row as the first loop
    of the index script does and writes it at once. *)

Section CleaningScript.
Variable sub_and_others : pystr -> pystr.

(** The body of the loop for one row: the row handed to the writer, or
    [None] when the substitution raises. *)
Definition cleaning_row (row : Row) : option Row :=
  let '(location, cn_from_pa) :=
    extract_from_physical_availability
      (get row (py "Physical Availability") (Some [])) in
  let row := <[py "Physical Availability" := Some location]> row in
  let row :=
    <[py "CNfromPA" :=
        Some (clean_call_number_keep_space_before_year (Some cn_from_pa))]>
      row in
  let row :=
    <[py "Local Call Number" :=
        Some (clean_call_number_keep_space_before_year
                (get row (py "Local Call Number") (Some [])))]> row in
  lc_raw ← get row (py "LC Call Number") (Some []);
  let lc_no_others := strip (sub_and_others lc_raw) in
  Some (<[py "LC Call Number" :=
            Some (clean_call_number_keep_space_before_year
                    (Some lc_no_others))]> row).

(** The loop: the rows written, in order, and whether the loop came to its
    end ([false]: a row raised, after the rows before it were written). *)
Fixpoint cleaning_pass (rows : list Row) : list Row * bool :=
  match rows with
  | [] => ([], true)
  | row :: rows' =>
      match cleaning_row row with
      | None => ([], false)
      | Some w =>
          let '(out, finished) := cleaning_pass rows' in (w :: out, finished)
      end
  end.

End CleaningScript.

(** The four columns that the loops rewrite. *)
Definition rewritten_fields : list pystr :=
  [py "Physical Availability"; py "CNfromPA"; py "Local Call Number";
   py "LC Call Number"].

(** A row without a string under "LC Call Number". *)
Definition short_row : Row :=
  <[py "LC Call Number" := None]>
    (<[py "Physical Availability" := Some (py "Stacks")]> ∅).

(** The names under which the index script keeps values of its own in a
    row's dict: columns of the input with these names do not reach its
    output. *)
Definition script_names : list pystr :=
  [py "_row_id"; py "_lc_sort_key"; py "LC_SortIndex"].

Definition without_script_names (w : Row) : Row :=
  delete (py "LC_SortIndex")
    (delete (py "_lc_sort_key") (delete (py "_row_id") w)).

(** * Properties *)

(** ** Characters and runs *)

Lemma in_range_spec c r :
  in_range c r = true <-> (fst r <= c <= snd r)%N.
Proof. unfold in_range. rewrite andb_true_iff, !N.leb_le. tauto. Qed.

Lemma isdecimal_not_space c : isdecimal c = true -> isspace c = false.
Proof.
  unfold isdecimal. rewrite existsb_exists. intros (r & Hin & Hr).
  apply in_range_spec in Hr.
  assert (Hall : forallb (fun r => (N.ltb 32 (fst r)) && negb (existsb
            (fun w => in_range w r)
            [133; 160; 5760; 8192; 8193; 8194; 8195; 8196; 8197; 8198; 8199;
             8200; 8201; 8202; 8232; 8233; 8239; 8287; 12288]%N))
            decimal_ranges = true) by (vm_compute; reflexivity).
  rewrite forallb_forall in Hall. specialize (Hall r Hin).
  apply andb_true_iff in Hall as [Hlo Hws]. apply N.ltb_lt in Hlo.
  apply negb_true_iff in Hws.
  destruct (isspace c) eqn:Hsp; [|reflexivity].
  exfalso. assert (Hex : existsb (fun w => in_range w r)
            [133; 160; 5760; 8192; 8193; 8194; 8195; 8196; 8197; 8198; 8199;
             8200; 8201; 8202; 8232; 8233; 8239; 8287; 12288]%N = true).
  { apply existsb_exists. exists c. split; [|apply in_range_spec; exact Hr].
    unfold isspace in Hsp.
    repeat (apply orb_true_iff in Hsp as [Hsp|Hsp]);
      repeat match goal with
             | H : (_ && _) = true |- _ => apply andb_true_iff in H as [? ?]
             | H : (_ <=? _)%N = true |- _ => apply N.leb_le in H
             | H : (_ =? _)%N = true |- _ => apply N.eqb_eq in H
             end; try lia; subst; simpl; try tauto.
    assert (c = 8192 \/ c = 8193 \/ c = 8194 \/ c = 8195 \/ c = 8196
            \/ c = 8197 \/ c = 8198 \/ c = 8199 \/ c = 8200 \/ c = 8201
            \/ c = 8202)%N as Hc by lia.
    simpl. intuition (subst; auto 20). }
  congruence.
Qed.

Lemma span_app p s : fst (span p s) ++ snd (span p s) = s.
Proof.
  induction s as [|c t IH]; simpl; [reflexivity|].
  destruct (p c); [|reflexivity].
  destruct (span p t) as [a b]; simpl in *. now rewrite IH.
Qed.

Lemma span_fst_all p s : forallb p (fst (span p s)) = true.
Proof.
  induction s as [|c t IH]; simpl; [reflexivity|].
  destruct (p c) eqn:Hc; [|reflexivity].
  destruct (span p t) as [a b]; simpl in *. now rewrite Hc, IH.
Qed.

Lemma span_snd_head p s c r : snd (span p s) = c :: r -> p c = false.
Proof.
  induction s as [|x t IH]; simpl; [discriminate|].
  destruct (p x) eqn:Hx.
  - destruct (span p t) as [a b]; simpl in *. exact IH.
  - simpl. intros [= -> _]. exact Hx.
Qed.

Lemma span_all p s : forallb p s = true -> span p s = (s, []).
Proof.
  induction s as [|c t IH]; simpl; [reflexivity|].
  intros [Hc Ht]%andb_true_iff. now rewrite Hc, IH.
Qed.

Lemma span_app_stop p a c r :
  forallb p a = true -> p c = false -> span p (a ++ c :: r) = (a, c :: r).
Proof.
  induction a as [|x a IH]; simpl; intros Ha Hc.
  - now rewrite Hc.
  - apply andb_true_iff in Ha as [Hx Ha]. now rewrite Hx, IH.
Qed.

Lemma span_eq p s a b :
  span p s = (a, b) ->
  s = a ++ b /\ forallb p a = true
  /\ match b with c :: _ => p c = false | [] => True end.
Proof.
  intros H. pose proof (span_app p s) as H1.
  pose proof (span_fst_all p s) as H2. rewrite H in H1, H2. simpl in *.
  repeat split; auto. destruct b as [|c r]; [exact I|].
  apply (span_snd_head p s c r). now rewrite H.
Qed.

(** ** Trimming *)


Lemma drop_while_head p s c r : drop_while p s = c :: r -> p c = false.
Proof. apply span_snd_head. Qed.

Lemma drop_while_split p s :
  exists w, s = w ++ drop_while p s /\ forallb p w = true.
Proof.
  exists (fst (span p s)). split.
  - symmetry. apply span_app.
  - apply span_fst_all.
Qed.

Lemma drop_while_id p s :
  match s with c :: _ => p c = false | [] => True end -> drop_while p s = s.
Proof.
  destruct s as [|c t]; [reflexivity|]. unfold drop_while. simpl.
  now intros ->.
Qed.

Lemma rstrip_split s :
  exists w, s = rstrip s ++ w /\ forallb isspace w = true.
Proof.
  unfold rstrip. destruct (drop_while_split isspace (rev s)) as (w & Hs & Hw).
  exists (rev w). split.
  - rewrite <- rev_app_distr, <- Hs. now rewrite rev_involutive.
  - rewrite forallb_forall in *. intros x Hx. apply Hw. now apply in_rev.
Qed.

Lemma rstrip_last s r c : rstrip s = r ++ [c] -> isspace c = false.
Proof.
  unfold rstrip. intros H. apply (f_equal (@rev N)) in H.
  rewrite rev_involutive, rev_app_distr in H. simpl in H.
  now apply drop_while_head in H.
Qed.

Lemma strip_trimmed s : trimmed (strip s).
Proof.
  split.
  - intros c r H. unfold strip in H.
    destruct (rstrip_split (lstrip s)) as (w & Hs & _).
    rewrite H in Hs. simpl in Hs.
    apply (drop_while_head isspace s c (r ++ w)). exact Hs.
  - intros r c H. apply (rstrip_last _ _ _ H).
Qed.

Lemma trimmed_strip s : trimmed s -> strip s = s.
Proof.
  intros [Hh Hl]. unfold strip, lstrip.
  rewrite drop_while_id.
  2: { destruct s as [|c t]; [exact I|]. now apply (Hh c t). }
  unfold rstrip. rewrite drop_while_id; [apply rev_involutive|].
  destruct (rev s) as [|c t] eqn:E; [exact I|].
  apply (Hl (rev t) c). apply (f_equal (@rev N)) in E.
  now rewrite rev_involutive in E.
Qed.

Lemma strip_all_space s : forallb isspace s = true -> strip s = [].
Proof.
  intros H. unfold strip, lstrip, drop_while. now rewrite span_all.
Qed.

(** ** Collapsing whitespace *)

Lemma sub_ws_runs_space b s c :
  In c (sub_ws_runs b s) -> isspace c = true -> c = SPACE.
Proof.
  revert b. induction s as [|x t IH]; simpl; intros b; [tauto|].
  destruct (isspace x) eqn:Hx.
  - destruct b; simpl; [apply IH|]. intros [<-|H] Hc; [reflexivity|].
    now apply (IH true).
  - simpl. intros [<-|H] Hc; [congruence|]. now apply (IH false).
Qed.

Lemma sub_ws_runs_no_newline b s : ~ In NEWLINE (sub_ws_runs b s).
Proof.
  intros H. apply sub_ws_runs_space in H; [discriminate|reflexivity].
Qed.

Lemma sub_ws_runs_id b s : no_whitespace s = true -> sub_ws_runs b s = s.
Proof.
  revert b. induction s as [|x t IH]; simpl; intros b; [reflexivity|].
  intros [Hx Ht]%andb_true_iff. apply negb_true_iff in Hx. rewrite Hx.
  now rewrite IH.
Qed.

Lemma sub_ws_runs_app b u rest :
  no_whitespace u = true -> u <> [] ->
  sub_ws_runs b (u ++ rest) = u ++ sub_ws_runs false rest.
Proof.
  revert b. induction u as [|x u IH]; intros b Hu Hne; [congruence|].
  simpl in *. apply andb_true_iff in Hu as [Hx Hu].
  apply negb_true_iff in Hx. rewrite Hx. f_equal.
  destruct u as [|y u']; [reflexivity|]. apply IH; [exact Hu|discriminate].
Qed.

Lemma sub_ws_runs_head s c r :
  trimmed s -> sub_ws_runs false s = c :: r -> isspace c = false.
Proof.
  intros [Hh _]. destruct s as [|x t]; simpl; [discriminate|].
  rewrite (Hh x t eq_refl). intros [= Hc _]. subst c. apply (Hh x t eq_refl).
Qed.

(** ** Deleting the spaces *)

Lemma isdecimal_not_SPACE c : isdecimal c = true -> (c =? SPACE)%N = false.
Proof.
  intros H. apply N.eqb_neq. intros ->. apply isdecimal_not_space in H.
  discriminate.
Qed.

Lemma decimals_no_whitespace d :
  forallb isdecimal d = true -> no_whitespace d = true.
Proof.
  unfold no_whitespace. rewrite !forallb_forall. intros H c Hc.
  apply negb_true_iff, isdecimal_not_space. now apply H.
Qed.

Lemma no_whitespace_no_space s c :
  no_whitespace s = true -> In c s -> (c =? SPACE)%N = false.
Proof.
  unfold no_whitespace. rewrite forallb_forall. intros H Hc.
  apply H in Hc. apply negb_true_iff in Hc. apply N.eqb_neq. intros ->.
  discriminate.
Qed.

Lemma remove_spaces_id s : no_whitespace s = true -> remove_spaces s = s.
Proof.
  induction s as [|x t IH]; simpl; [reflexivity|]. intros H.
  rewrite (no_whitespace_no_space (x :: t) x H (or_introl eq_refl)). simpl.
  apply andb_true_iff in H as [_ H]. now rewrite IH.
Qed.

Lemma sub_spaces_id s : no_whitespace s = true -> sub_spaces s = s.
Proof.
  induction s as [|x t IH]; simpl; [reflexivity|]. intros H.
  rewrite (no_whitespace_no_space (x :: t) x H (or_introl eq_refl)). simpl.
  apply andb_true_iff in H as [_ H]. now rewrite IH.
Qed.

Lemma remove_spaces_app a b :
  remove_spaces (a ++ b) = remove_spaces a ++ remove_spaces b.
Proof. apply List.filter_app. Qed.

(** Once whitespace is collapsed, what is left of it is spaces, and
    taking the spaces out leaves no whitespace. *)
Lemma remove_spaces_no_whitespace s :
  (forall c, In c s -> isspace c = true -> c = SPACE) ->
  no_whitespace (remove_spaces s) = true.
Proof.
  intros H. unfold no_whitespace, remove_spaces. apply forallb_forall.
  intros c [Hc Hs]%List.filter_In. apply negb_true_iff.
  destruct (isspace c) eqn:E; [|reflexivity].
  rewrite (H c Hc E) in Hs. discriminate.
Qed.

Lemma four_digits_then_end_length t :
  four_digits_then_end t = true -> (length t <= 5)%nat.
Proof.
  destruct t as [|a [|b [|c [|d [|e [|f r]]]]]]; simpl; try lia.
  all: rewrite andb_false_r; discriminate.
Qed.

Lemma four_digits_then_end_spec t :
  ~ In NEWLINE t ->
  four_digits_then_end t = true <->
  length t = 4%nat /\ forallb isdecimal t = true.
Proof.
  intros Hn.
  destruct t as [|a [|b [|c [|d [|e [|f r]]]]]]; simpl;
    try (split; [discriminate|intros [[=] _]]).
  - rewrite !andb_true_r, <- !andb_assoc. intuition.
  - split; [|intros [[=] _]]. intros H. exfalso.
    repeat (apply andb_true_iff in H as [H ?]).
    apply Hn. simpl. do 4 right. left. now apply N.eqb_eq.
  - rewrite andb_false_r. split; [discriminate|intros [[=] _]].
Qed.

Lemma ends_with_space_year_spec t :
  ends_with_space_year t = true <->
  exists u d, t = u ++ SPACE :: d /\ length d = 4%nat
              /\ forallb isdecimal d = true.
Proof.
  unfold ends_with_space_year. split.
  - destruct (rev t) as [|d4 [|d3 [|d2 [|d1 [|sp r]]]]] eqn:E;
      try discriminate.
    intros H. repeat (apply andb_true_iff in H as [H ?]).
    apply N.eqb_eq in H. subst sp.
    exists (rev r), [d1; d2; d3; d4]. split; [|split; [reflexivity|]].
    + apply (f_equal (@rev N)) in E. rewrite rev_involutive in E.
      rewrite E. simpl. now rewrite <- !app_assoc.
    + simpl. now repeat (apply andb_true_iff; split).
  - intros (u & d & -> & Hl & Hd).
    destruct d as [|d1 [|d2 [|d3 [|d4 [|? ?]]]]]; try discriminate.
    rewrite rev_app_distr. simpl. simpl in Hd.
    repeat (apply andb_true_iff in Hd as [? Hd]).
    now repeat (apply andb_true_iff; split).
Qed.

Lemma sub_spaces_year u d :
  length d = 4%nat -> forallb isdecimal d = true ->
  sub_spaces (u ++ SPACE :: d) = remove_spaces u ++ SPACE :: d.
Proof.
  intros Hl Hd. induction u as [|x u IH].
  - simpl. assert (four_digits_then_end d = true) as ->.
    { destruct d as [|d1 [|d2 [|d3 [|d4 [|? ?]]]]]; try discriminate.
      simpl in *. repeat (apply andb_true_iff in Hd as [? Hd]).
      now repeat (apply andb_true_iff; split). }
    simpl. f_equal. apply sub_spaces_id. now apply decimals_no_whitespace.
  - change ((x :: u) ++ SPACE :: d) with (x :: (u ++ SPACE :: d)).
    cbn [sub_spaces remove_spaces List.filter].
    assert (four_digits_then_end (u ++ SPACE :: d) = false) as ->.
    { destruct (four_digits_then_end (u ++ SPACE :: d)) eqn:E; [|reflexivity].
      exfalso. destruct u as [|y u'].
      - destruct d as [|d1 [|d2 [|d3 [|d4 [|? ?]]]]]; discriminate.
      - apply four_digits_then_end_length in E.
        rewrite length_app in E. simpl in E. lia. }
    rewrite andb_true_r. fold (remove_spaces u).
    destruct (x =? SPACE)%N; simpl; now rewrite IH.
Qed.

Lemma sub_spaces_noyear l :
  ~ In NEWLINE l -> ends_with_space_year l = false ->
  sub_spaces l = remove_spaces l.
Proof.
  induction l as [|x t IH]; intros Hn He; [reflexivity|].
  assert (Ht : ends_with_space_year t = false).
  { destruct (ends_with_space_year t) eqn:E; [|reflexivity].
    apply ends_with_space_year_spec in E as (u & d & -> & Hl & Hd).
    rewrite <- He. symmetry. apply ends_with_space_year_spec.
    now exists (x :: u), d. }
  cbn [sub_spaces remove_spaces List.filter]. fold (remove_spaces t).
  rewrite <- IH; [|intros Hin; apply Hn; now right|exact Ht].
  destruct (x =? SPACE)%N eqn:Hx; [|reflexivity]. simpl.
  destruct (four_digits_then_end t) eqn:E; [|reflexivity]. exfalso.
  apply four_digits_then_end_spec in E as [Hl Hd];
    [|intros Hin; apply Hn; now right].
  apply N.eqb_eq in Hx. subst x.
  rewrite <- He in *. assert (ends_with_space_year (SPACE :: t) = true).
  { apply ends_with_space_year_spec. now exists [], t. }
  congruence.
Qed.

Lemma sub_spaces_spec l :
  ~ In NEWLINE l -> sub_spaces l = delete_spaces_spec l.
Proof.
  intros Hn. unfold delete_spaces_spec.
  destruct (ends_with_space_year l) eqn:E.
  - apply ends_with_space_year_spec in E as (u & d & -> & Hl & Hd).
    rewrite sub_spaces_year by assumption.
    replace (length (u ++ SPACE :: d) - 5)%nat with (length u)
      by (rewrite length_app; simpl; lia).
    now rewrite take_app_length, drop_app_length.
  - now apply sub_spaces_noyear.
Qed.

(** ** [clean_call_number_keep_space_before_year] *)

Lemma clean_unfold s :
  clean_call_number_keep_space_before_year (Some s)
  = sub_spaces (sub_ws_runs false (strip s)).
Proof. destruct s; reflexivity. Qed.

Lemma clean_fixed_nows v :
  no_whitespace v = true ->
  clean_call_number_keep_space_before_year (Some v) = v.
Proof.
  intros Hv. rewrite clean_unfold.
  assert (Ht : trimmed v).
  { unfold no_whitespace in Hv. rewrite forallb_forall in Hv.
    split; intros ? ? ->; apply negb_true_iff, Hv.
    - now left.
    - apply in_or_app. right. now left. }
  rewrite (trimmed_strip v Ht), sub_ws_runs_id by exact Hv.
  now apply sub_spaces_id.
Qed.

Lemma clean_fixed_year u d :
  no_whitespace u = true -> u <> [] ->
  length d = 4%nat -> forallb isdecimal d = true ->
  clean_call_number_keep_space_before_year (Some (u ++ SPACE :: d))
  = u ++ SPACE :: d.
Proof.
  intros Hu Hne Hl Hd. rewrite clean_unfold.
  assert (Ht : trimmed (u ++ SPACE :: d)).
  { split.
    - intros c r E. destruct u as [|x u']; [congruence|].
      simpl in E. injection E as <- _. simpl in Hu.
      apply andb_true_iff in Hu as [Hx _]. now apply negb_true_iff.
    - intros r c E.
      destruct d as [|d1 [|d2 [|d3 [|d4 [|? ?]]]]]; try discriminate.
      change (u ++ SPACE :: [d1; d2; d3; d4])
        with (u ++ [SPACE; d1; d2; d3] ++ [d4]) in E.
      rewrite app_assoc in E. apply app_inj_tail in E as [_ <-].
      apply isdecimal_not_space. simpl in Hd.
      repeat (apply andb_true_iff in Hd as [? Hd]). assumption. }
  rewrite (trimmed_strip _ Ht), sub_ws_runs_app by assumption.
  cbn [sub_ws_runs]. change (isspace SPACE) with true. cbn iota.
  rewrite sub_ws_runs_id by now apply decimals_no_whitespace.
  rewrite sub_spaces_year by assumption. now rewrite remove_spaces_id.
Qed.

(** C4.  Cleaning a call number trims it, collapses every run of
    whitespace to one space, and then deletes every space except one that
    immediately precedes a 4-digit numeral ending the string.  A string of
    whitespace only becomes empty, a string without such a final group
    keeps no whitespace at all, and "QA76.73 .C153 2019" becomes
    "QA76.73.C153 2019". *)
Theorem clean_call_number_spec (s : pystr) :
  let t := sub_ws_runs false (strip s) in
  clean_call_number_keep_space_before_year (Some s) = delete_spaces_spec t
  /\ (forallb isspace s = true ->
      clean_call_number_keep_space_before_year (Some s) = [])
  /\ (ends_with_space_year t = false ->
      no_whitespace (clean_call_number_keep_space_before_year (Some s))
      = true)
  /\ clean_call_number_keep_space_before_year
       (Some (py "QA76.73 .C153 2019")) = py "QA76.73.C153 2019".
Proof.
  intros t. rewrite clean_unfold. fold t. repeat split.
  - apply sub_spaces_spec. apply sub_ws_runs_no_newline.
  - intros Hs. subst t. now rewrite (strip_all_space s Hs).
  - intros He. rewrite sub_spaces_noyear;
      [|apply sub_ws_runs_no_newline|exact He].
    apply remove_spaces_no_whitespace. intros c. apply sub_ws_runs_space.
Qed.

Lemma clean_call_number_spec_witness :
  clean_call_number_keep_space_before_year (Some (py "  ")) = []
  /\ no_whitespace
       (clean_call_number_keep_space_before_year (Some (py " QA 76  .C15 ")))
     = true.
Proof.
  split.
  - apply (clean_call_number_spec (py "  ")). reflexivity.
  - apply (clean_call_number_spec (py " QA 76  .C15 ")). reflexivity.
Defined.

(** C5.  Cleaning is idempotent: cleaning a cleaned call number changes
    nothing. *)
Theorem clean_call_number_idempotent (s : pystr) :
  clean_call_number_keep_space_before_year
    (Some (clean_call_number_keep_space_before_year (Some s)))
  = clean_call_number_keep_space_before_year (Some s).
Proof.
  rewrite (clean_unfold s).
  set (t := sub_ws_runs false (strip s)).
  assert (Hsp : forall c, In c t -> isspace c = true -> c = SPACE)
    by (intros c; apply sub_ws_runs_space).
  destruct (ends_with_space_year t) eqn:E.
  - apply ends_with_space_year_spec in E as (u & d & Ht & Hl & Hd).
    rewrite Ht, sub_spaces_year by assumption.
    apply clean_fixed_year; try assumption.
    + apply remove_spaces_no_whitespace. intros c Hc. apply Hsp.
      rewrite Ht. apply in_or_app. now left.
    + destruct u as [|x u'].
      * exfalso. pose proof (sub_ws_runs_head (strip s) SPACE d
                               (strip_trimmed s) Ht). discriminate.
      * pose proof (sub_ws_runs_head (strip s) x (u' ++ SPACE :: d)
                      (strip_trimmed s) Ht) as Hx.
        simpl. destruct (x =? SPACE)%N eqn:Hxs; [|discriminate].
        apply N.eqb_eq in Hxs. subst x. discriminate.
  - rewrite sub_spaces_noyear; [|apply sub_ws_runs_no_newline|exact E].
    apply clean_fixed_nows. now apply remove_spaces_no_whitespace.
Qed.

(** ** [extract_from_physical_availability] *)

Lemma count_char_cons c x t :
  count_char c (x :: t)
  = if (x =? c)%N then S (count_char c t) else count_char c t.
Proof.
  unfold count_char. cbn [List.filter]. rewrite (N.eqb_sym c x).
  now destruct (x =? c)%N.
Qed.

Lemma span_semicolon s a b :
  span (other_than SEMICOLON) s = (a, b) ->
  match b with
  | [] => split_on SEMICOLON s = [a] /\ count_char SEMICOLON s = 0%nat
  | c :: r => split_on SEMICOLON s = a :: split_on SEMICOLON r
              /\ count_char SEMICOLON s = S (count_char SEMICOLON r)
  end.
Proof.
  revert a b. induction s as [|x t IH]; intros a b.
  - intros [= <- <-]. now split.
  - cbn [span split_on]. rewrite count_char_cons. unfold other_than at 1.
    destruct (x =? SEMICOLON)%N eqn:Hx; cbn [negb].
    + intros [= <- <-]. now split.
    + destruct (span (other_than SEMICOLON) t) as [a' b'] eqn:E.
      intros [= <- <-]. specialize (IH a' b' eq_refl).
      destruct b' as [|c r]; destruct IH as [-> ->]; now split.
Qed.

Lemma span_no_newline s :
  ~ In NEWLINE s -> span (other_than NEWLINE) s = (s, []).
Proof.
  intros H. apply span_all. apply forallb_forall. intros c Hc.
  unfold other_than. apply negb_true_iff, N.eqb_neq. now intros ->.
Qed.

(** On a text whose trimmed form holds no newline the script splits as
    the specification says. *)
Lemma extract_from_physical_availability_one_line (text : pystr) :
  ~ In NEWLINE (strip text) ->
  extract_from_physical_availability (Some text)
  = splitAvailability_spec text.
Proof.
  intros Hn. unfold splitAvailability_spec.
  assert (E : extract_from_physical_availability (Some text)
              = match match_availability (strip text) with
                | Some (g1, g2) => (strip g1, strip g2)
                | None => (strip text, [])
                end) by (destruct text; reflexivity).
  rewrite E. clear E. set (s := strip text) in *. clearbody s.
  unfold match_availability.
  destruct (span (other_than SEMICOLON) s) as [g1 r1] eqn:E1.
  pose proof (span_semicolon _ _ _ E1) as H1.
  pose proof (span_eq _ _ _ _ E1) as (Hs1 & _ & _).
  destruct r1 as [|c1 r1]; [destruct H1 as [_ ->]; reflexivity|].
  destruct H1 as [S1 C1].
  destruct (span (other_than SEMICOLON) r1) as [g r2] eqn:E2.
  pose proof (span_semicolon _ _ _ E2) as H2.
  pose proof (span_eq _ _ _ _ E2) as (Hs2 & _ & _).
  destruct r2 as [|c2 r2]; [destruct H2 as [_ H2]; rewrite C1, H2; reflexivity|].
  destruct H2 as [S2 C2].
  destruct (span (other_than SEMICOLON) r2) as [g2 r3] eqn:E3.
  pose proof (span_semicolon _ _ _ E3) as H3.
  pose proof (span_eq _ _ _ _ E3) as (Hs3 & _ & _).
  destruct r3 as [|c3 r3];
    [destruct H3 as [_ H3]; rewrite C1, C2, H3; reflexivity|].
  destruct H3 as [S3 C3].
  rewrite span_no_newline.
  2: { intros Hin. apply Hn. rewrite Hs1. apply in_or_app. right. right.
       rewrite Hs2. apply in_or_app. right. right.
       rewrite Hs3. apply in_or_app. right. now right. }
  simpl. rewrite C1, C2, C3, S1, S2, S3. reflexivity.
Qed.

(** C6.  On a text with a line break after its third semicolon the script
    takes its fallback and returns the whole text as the location, where
    the specification (and the docstring of the function) cut it at the
    semicolons. *)
Theorem extract_from_physical_availability_line_break :
  let text := py "Stacks;ignored;QA76 .C15;shelf 3" ++ NEWLINE :: py "annex" in
  extract_from_physical_availability (Some text) = (text, [])
  /\ splitAvailability_spec text = (py "Stacks", py "QA76 .C15")
  /\ extract_from_physical_availability
       (Some (py "Stacks;ignored;QA76 .C15;ignored2"))
     = (py "Stacks", py "QA76 .C15")
  /\ extract_from_physical_availability (Some (py "NoSemicolonsHere"))
     = (py "NoSemicolonsHere", [])
  /\ extract_from_physical_availability (Some []) = ([], [])
  /\ extract_from_physical_availability None = ([], []).
Proof. vm_compute. repeat split. Qed.

(** ** The order of the sort keys *)


Lemma str_eqb_eq a b : str_eqb a b = true <-> a = b.
Proof.
  revert b. induction a as [|x a IH]; intros [|y b]; simpl;
    try (split; [discriminate|congruence]); [tauto|].
  rewrite andb_true_iff, N.eqb_eq, IH. split; [intros [-> ->]|intros [= -> ->]]; auto.
Qed.

Lemma str_order : strict_total str_eqb str_ltb.
Proof.
  split.
  - apply str_eqb_eq.
  - induction x as [|c x IH]; simpl; [reflexivity|]. now rewrite N.eqb_refl.
  - induction x as [|a x IH]; intros [|b y] [|c z]; simpl; try congruence.
    destruct (a =? b)%N eqn:Hab; destruct (b =? c)%N eqn:Hbc;
      destruct (a =? c)%N eqn:Hac;
      rewrite ?N.eqb_eq, ?N.eqb_neq, ?N.ltb_lt in *; try lia;
      try apply IH; intros; subst; try lia; congruence.
  - induction x as [|a x IH]; intros [|b y]; simpl; try congruence.
    rewrite (N.eqb_sym b a). destruct (a =? b)%N eqn:Hab.
    + apply N.eqb_eq in Hab. intros H1 H2. f_equal; [exact Hab|now apply IH].
    + apply N.eqb_neq in Hab. rewrite !N.ltb_ge. lia.
Qed.

Lemma xint_order : strict_total xint_eqb xint_ltb.
Proof.
  split.
  - intros [x|] [y|]; simpl; try (split; [discriminate|congruence]);
      [|tauto]. rewrite Z.eqb_eq. split; congruence.
  - intros [x|]; simpl; [apply Z.ltb_irrefl|reflexivity].
  - intros [x|] [y|] [z|]; simpl; try congruence.
    rewrite !Z.ltb_lt. lia.
  - intros [x|] [y|]; simpl; try congruence.
    rewrite !Z.ltb_ge. intros. f_equal. lia.
Qed.

Lemma xfloat_order : strict_total xfloat_eqb xfloat_ltb.
Proof.
  split.
  - intros [x|] [y|]; simpl; try (split; [discriminate|congruence]);
      [|tauto]. rewrite Z.eqb_eq. split; congruence.
  - intros [x|]; simpl; [apply Z.ltb_irrefl|reflexivity].
  - intros [x|] [y|] [z|]; simpl; try congruence.
    rewrite !Z.ltb_lt. lia.
  - intros [x|] [y|]; simpl; try congruence.
    rewrite !Z.ltb_ge. intros. f_equal. lia.
Qed.

Section Lex.
Context {A : Type} (eqb ltb : A -> A -> bool).
Hypothesis O : strict_total eqb ltb.

Lemma eqb_refl_st x : eqb x x = true.
Proof. now apply (st_eq _ _ O). Qed.

Lemma lex_irrefl x p : p = false -> lex eqb ltb x x p = false.
Proof. intros ->. unfold lex. now rewrite eqb_refl_st. Qed.

Lemma lex_trans x y z p q r :
  (p = true -> q = true -> r = true) ->
  lex eqb ltb x y p = true -> lex eqb ltb y z q = true ->
  lex eqb ltb x z r = true.
Proof.
  intros Hr. unfold lex.
  destruct (eqb x y) eqn:Exy; destruct (eqb y z) eqn:Eyz.
  - apply (st_eq _ _ O) in Exy, Eyz. subst. rewrite eqb_refl_st. exact Hr.
  - apply (st_eq _ _ O) in Exy. subst. rewrite Eyz. auto.
  - apply (st_eq _ _ O) in Eyz. subst. rewrite Exy. auto.
  - intros H1 H2. pose proof (st_trans _ _ O _ _ _ H1 H2) as H3.
    destruct (eqb x z) eqn:Exz; [|exact H3].
    apply (st_eq _ _ O) in Exz. subst.
    pose proof (st_trans _ _ O _ _ _ H1 H2) as H4.
    rewrite (st_irrefl _ _ O) in H4. discriminate.
Qed.

Lemma lex_total x y p q (R : Prop) :
  (p = false -> q = false -> R) ->
  lex eqb ltb x y p = false -> lex eqb ltb y x q = false -> x = y /\ R.
Proof.
  intros HR. unfold lex. destruct (eqb x y) eqn:Exy.
  - apply (st_eq _ _ O) in Exy. subst. rewrite eqb_refl_st. auto.
  - destruct (eqb y x) eqn:Eyx.
    + apply (st_eq _ _ O) in Eyx. subst. rewrite eqb_refl_st in Exy.
      discriminate.
    + intros H1 H2. pose proof (st_total _ _ O _ _ H1 H2). subst.
      rewrite eqb_refl_st in Exy. discriminate.
Qed.
End Lex.

Ltac lex_step lem :=
  first [ apply (lem _ _ _ str_order)
        | apply (lem _ _ _ xfloat_order)
        | apply (lem _ _ _ xint_order) ].

Lemma key_ltb_irrefl a : key_ltb a a = false.
Proof. unfold key_ltb. repeat lex_step @lex_irrefl. reflexivity. Qed.

Lemma key_ltb_trans a b c :
  key_ltb a b = true -> key_ltb b c = true -> key_ltb a c = true.
Proof. unfold key_ltb. repeat lex_step @lex_trans. congruence. Qed.

Lemma key_ltb_total a b :
  key_ltb a b = false -> key_ltb b a = false -> a = b.
Proof.
  intros H1 H2.
  cut (class_letters a = class_letters b
       /\ class_number a = class_number b
       /\ cutter1_letter a = cutter1_letter b
       /\ cutter1_num a = cutter1_num b
       /\ cutter2_letter a = cutter2_letter b
       /\ cutter2_num a = cutter2_num b
       /\ cutter3_letter a = cutter3_letter b
       /\ cutter3_num a = cutter3_num b
       /\ year a = year b /\ True).
  { destruct a, b. simpl. intros (-> & -> & -> & -> & -> & -> & -> & -> & -> & _).
    reflexivity. }
  revert H1 H2. unfold key_ltb. repeat lex_step @lex_total. auto.
Qed.

Lemma key_ltb_asym a b : key_ltb a b = true -> key_ltb b a = false.
Proof.
  intros H. destruct (key_ltb b a) eqn:E; [|reflexivity].
  pose proof (key_ltb_trans _ _ _ H E) as H1.
  rewrite key_ltb_irrefl in H1. discriminate.
Qed.

Lemma key_eqb_eq a b : key_eqb a b = true <-> a = b.
Proof.
  unfold key_eqb. rewrite !andb_true_iff.
  rewrite !(st_eq _ _ str_order), !(st_eq _ _ xint_order),
    !(st_eq _ _ xfloat_order).
  split.
  - destruct a, b. simpl. intuition congruence.
  - intros ->. tauto.
Qed.

(** ** Where the conversions fail on what the patterns capture *)

Lemma is_empty_false (s : pystr) : is_empty s = false <-> s <> [].
Proof. destruct s; simpl; split; congruence. Qed.

Lemma int_of_str_digits ds :
  ds <> [] -> forallb is_digit ds = true ->
  int_of_str ds
  = if within_int_limit ds then Some (digits_value ds) else None.
Proof.
  intros Hne Hd. unfold int_of_str. rewrite Hd. now destruct ds.
Qed.

Lemma float_of_str_numeral ip frac :
  ip <> [] -> forallb is_digit ip = true ->
  (frac = [] \/ exists fp, frac = PERIOD :: fp /\ fp <> []
                           /\ forallb is_digit fp = true) ->
  exists x, float_of_str (ip ++ frac) = Some x.
Proof.
  intros Hne Hd [->|(fp & -> & Hfp & Hdf)]; unfold float_of_str.
  - rewrite app_nil_r, (span_all _ _ Hd). destruct ip; [congruence|eauto].
  - rewrite (span_app_stop _ _ _ _ Hd) by reflexivity.
    destruct ip; [congruence|]. rewrite N.eqb_refl, Hdf.
    apply is_empty_false in Hfp. rewrite Hfp. simpl. eauto.
Qed.

Lemma match_class_group2 s letters text e :
  match_class s = Some (letters, Some text, e) ->
  exists x, float_of_str text = Some x.
Proof.
  unfold match_class.
  destruct (span isspace s) as [w1 r1].
  destruct (span_max 3 is_upper r1) as [ls r2].
  destruct (is_empty ls); [discriminate|].
  destruct (span isspace r2) as [w2 r3].
  destruct (span is_digit r3) as [ip r4] eqn:E.
  destruct (is_empty ip) eqn:Hip; [discriminate|].
  intros [= _ <- _]. apply is_empty_false in Hip.
  apply span_eq in E as (_ & Hd & _).
  apply float_of_str_numeral; [assumption..|].
  destruct r4 as [|c r5]; [now left|].
  destruct (c =? PERIOD)%N eqn:Hc; [|now left].
  apply N.eqb_eq in Hc. subst c.
  destruct (span is_digit r5) as [fp r6] eqn:E5.
  destruct (is_empty fp) eqn:Hfp; [now left|]. right. exists fp.
  apply is_empty_false in Hfp. apply span_eq in E5 as (_ & Hd5 & _). auto.
Qed.

Lemma parse_class_total s :
  exists letters num idx,
    _parse_class_and_number s = Some (letters, num, idx).
Proof.
  unfold _parse_class_and_number.
  destruct (match_class s) as [[[letters [text|]] e]|] eqn:E; eauto.
  destruct (match_class_group2 _ _ _ _ E) as [x ->]. simpl. eauto.
Qed.

(** Every match that [finditer] reports was returned by the matcher. *)
Lemma finditer_Forall {G : Type} (m : bool -> pystr -> option (G * nat))
    (P : G -> Prop) :
  (forall b s g len, m b s = Some (g, len) -> P g) ->
  forall s pos skip, Forall (fun x => P (snd x)) (finditer m pos skip s).
Proof.
  intros Hm. induction s as [|c t IH]; intros pos skip; simpl.
  - constructor.
  - destruct skip; [|apply IH].
    destruct (m (Nat.eqb pos 0) (c :: t)) as [[g len]|] eqn:E; [|apply IH].
    constructor; [|apply IH]. simpl. eapply Hm, E.
Qed.

Lemma match_cutter_groups s l ds len :
  match_cutter s = Some (l, ds, len) ->
  is_upper l = true /\ ds <> [] /\ forallb is_digit ds = true.
Proof.
  unfold match_cutter.
  destruct (match s with
            | [] => ([], s)
            | c :: t => if (c =? PERIOD)%N then ([c], t) else ([], s)
            end) as [dot r0].
  destruct (span isspace r0) as [w1 r1].
  destruct r1 as [|x r2]; [discriminate|].
  destruct (is_upper x) eqn:Hx; [|discriminate].
  destruct (span isspace r2) as [w2 r3].
  destruct (span is_digit r3) as [d r4] eqn:E.
  destruct (is_empty d) eqn:Hd; [discriminate|].
  intros [= <- <- _]. apply is_empty_false in Hd.
  apply span_eq in E as (_ & Hds & _). auto.
Qed.

Lemma collect_cutters_eq ms :
  Forall (fun x : nat * nat * (N * pystr) =>
            snd (snd x) <> [] /\ forallb is_digit (snd (snd x)) = true) ms ->
  collect_cutters ms
  = if forallb (fun x : nat * nat * (N * pystr) =>
                  within_int_limit (snd (snd x))) ms
    then Some (List.map cutter_of_match ms)
    else None.
Proof.
  induction 1 as [|[[st en] [l ds]] ms [Hne Hd] _ IH]; [reflexivity|].
  cbn [collect_cutters forallb List.map snd] in *.
  rewrite (int_of_str_digits ds Hne Hd), IH.
  destruct (within_int_limit ds); [|reflexivity].
  cbn [mbind option_bind andb].
  now destruct (forallb _ ms).
Qed.

Lemma finditer_cutters_digits s pos skip :
  Forall (fun x : nat * nat * (N * pystr) =>
            snd (snd x) <> [] /\ forallb is_digit (snd (snd x)) = true)
         (finditer cutter_matcher pos skip s).
Proof.
  apply (finditer_Forall cutter_matcher
           (fun g => snd g <> [] /\ forallb is_digit (snd g) = true)).
  intros b t [l ds] len. unfold cutter_matcher.
  destruct (match_cutter t) as [[[l' ds'] len']|] eqn:E; [|discriminate].
  intros [= <- <- _]. apply match_cutter_groups in E. tauto.
Qed.

Lemma year_body_group s g :
  year_body s = Some g ->
  length g = 4%nat /\ forallb is_digit g = true.
Proof.
  unfold year_body.
  destruct s as [|d1 [|d2 [|d3 [|d4 r]]]]; try discriminate.
  destruct (_ && _) eqn:E; [|discriminate]. intros [= <-].
  repeat (apply andb_true_iff in E as [E ?]).
  split; [reflexivity|]. simpl.
  assert (is_digit d1 = true) as ->.
  { unfold is_digit. apply orb_true_iff in E as [E|E];
      apply N.eqb_eq in E; subst; reflexivity. }
  now rewrite H0, H1, H2.
Qed.

Lemma match_year_group b s g len :
  match_year b s = Some (g, len) ->
  length g = 4%nat /\ forallb is_digit g = true.
Proof.
  unfold match_year.
  destruct (if b then year_body s else None) as [g'|] eqn:E.
  - intros [= <- _]. destruct b; [|discriminate].
    now apply year_body_group in E.
  - destruct s as [|c t]; [discriminate|].
    destruct (negb (is_digit c)); [|discriminate].
    destruct (year_body t) as [g'|] eqn:E'; [|discriminate].
    intros [= <- _]. now apply year_body_group in E'.
Qed.

Lemma parse_cutters_eq s :
  _parse_cutters_and_extras s
  = if cutters_convertible s then Some (cutters_found s, year_found s)
    else None.
Proof.
  unfold _parse_cutters_and_extras, cutters_found, year_found,
    cutters_convertible.
  rewrite (collect_cutters_eq _ (finditer_cutters_digits s 0 0))%nat.
  destruct (forallb _ (finditer cutter_matcher 0 0 s)); [|reflexivity].
  simpl. destruct (last (finditer match_year 0 0 s)) as [[sp g]|] eqn:E;
    [|reflexivity].
  apply last_Some_elem_of, list_elem_of_In in E.
  pose proof (finditer_Forall match_year
                (fun g => length g = 4%nat /\ forallb is_digit g = true)
                match_year_group s 0 0)%nat as HF.
  rewrite List.Forall_forall in HF. specialize (HF _ E). simpl in HF.
  destruct HF as [Hl Hd]. rewrite int_of_str_digits; [|intros ->; discriminate|exact Hd].
  unfold within_int_limit. rewrite Hl. reflexivity.
Qed.

(** ** [lc_sort_key] *)

Lemma parse_class_end s letters num idx :
  _parse_class_and_number s = Some (letters, num, idx) -> idx = class_end s.
Proof.
  unfold _parse_class_and_number, class_end.
  destruct (match_class s) as [[[ls [text|]] e]|]; simpl.
  - destruct (float_of_str text); simpl; congruence.
  - congruence.
  - congruence.
Qed.

Lemma parse_class_nil : _parse_class_and_number [] = Some ([], FInf, 0%nat).
Proof. reflexivity. Qed.

Lemma pad_cutters_three (cs : list (pystr * xint)) :
  exists a b c, take 3 (cs ++ replicate 3 missing_cutter) = [a; b; c].
Proof. destruct cs as [|a [|b [|c cs]]]; simpl; eauto. Qed.

Lemma xfloat_eqb_refl x : xfloat_eqb x x = true.
Proof. now apply (st_eq _ _ xfloat_order). Qed.

Section ScriptFacts.
Variable upper_full : N -> pystr.

(** The early return of [lc_sort_key] on the empty string gives what
    the general path would give; so one description covers every
    input.  The key [k] is the one that is returned when every cutter
    group can be converted. *)
Lemma lc_sort_key_eq (raw : pystr) :
  let s := normalize upper_full raw in
  exists letters num k,
    _parse_class_and_number s = Some (letters, num, class_end s)
    /\ lc_sort_key upper_full raw
       = (if sortable upper_full raw then Some k else None)
    /\ class_letters k = (if is_empty letters then py "ZZZ" else letters)
    /\ class_number k = num
    /\ cutter_slots k
       = take 3 (cutters_found (after_class s)
                 ++ replicate 3 missing_cutter)
    /\ year k = year_found (after_class s).
Proof.
  intros s. destruct raw as [|c raw'].
  - exists [], FInf, all_missing. repeat split.
  - destruct (parse_class_total s) as (ls & num & idx & Hp).
    pose proof (parse_class_end _ _ _ _ Hp) as ->.
    unfold lc_sort_key. cbn [is_empty]. fold s.
    rewrite Hp. cbn [mbind option_bind]. fold (after_class s).
    rewrite parse_cutters_eq. unfold sortable. fold s.
    destruct (pad_cutters_three (cutters_found (after_class s)))
      as ([c1l c1n] & [c2l c2n] & [c3l c3n] & Hpad).
    exists ls, num,
      (mkSortKey (if is_empty ls then py "ZZZ" else ls) num
         c1l c1n c2l c2n c3l c3n (year_found (after_class s))).
    split; [reflexivity|]. split; [|repeat split; now rewrite Hpad].
    destruct (cutters_convertible (after_class s)); [|reflexivity].
    cbn [mbind option_bind]. now rewrite Hpad, xfloat_eqb_refl.
Qed.

Lemma lc_sort_key_returned (raw : pystr) (k : SortKey) :
  lc_sort_key upper_full raw = Some k -> sortable upper_full raw = true.
Proof.
  destruct (lc_sort_key_eq raw) as (_ & _ & k' & _ & Hk & _).
  rewrite Hk. now destruct (sortable upper_full raw).
Qed.

Lemma lc_sort_key_raises (raw : pystr) :
  sortable upper_full raw = false -> lc_sort_key upper_full raw = None.
Proof.
  destruct (lc_sort_key_eq raw) as (_ & _ & k' & _ & Hk & _).
  rewrite Hk. now intros ->.
Qed.
End ScriptFacts.

(** ** What the patterns capture *)

Lemma is_digit_range c : is_digit c = true <-> (48 <= c <= 57)%N.
Proof. unfold is_digit. rewrite andb_true_iff, !N.leb_le. tauto. Qed.

Lemma digits_fold_nonneg ds acc :
  forallb is_digit ds = true -> (0 <= acc)%Z ->
  (0 <= fold_left (fun acc c => 10 * acc + digit_val c) ds acc)%Z.
Proof.
  revert acc. induction ds as [|d ds IH]; simpl; intros acc Hd Hacc;
    [exact Hacc|].
  apply andb_true_iff in Hd as [Hd Hds]. apply is_digit_range in Hd.
  apply IH; [exact Hds|]. unfold digit_val. lia.
Qed.

Lemma digits_value_nonneg ds :
  forallb is_digit ds = true -> (0 <= digits_value ds)%Z.
Proof. intros H. now apply digits_fold_nonneg. Qed.


Lemma year_numeral_range d1 d2 d3 d4 :
  is_digit d1 = true -> is_digit d2 = true -> is_digit d3 = true ->
  is_digit d4 = true ->
  (1000 <= digits_value [d1; d2; d3; d4] <= 2999)%Z <-> (d1 = 49 \/ d1 = 50)%N.
Proof.
  rewrite !is_digit_range. unfold digits_value, digit_val. simpl. lia.
Qed.






Lemma span_max_spec n p s a b :
  span_max n p s = (a, b) ->
  s = a ++ b /\ (length a <= n)%nat /\ forallb p a = true.
Proof.
  revert s a b. induction n as [|n IH]; intros s a b; simpl.
  - destruct s; intros [= <- <-]; (repeat split; simpl; lia).
  - destruct s as [|c t]; [intros [= <- <-]; repeat split; simpl; lia|].
    destruct (p c) eqn:Hc; [|intros [= <- <-]; repeat split; simpl; lia].
    destruct (span_max n p t) as [a' b'] eqn:E. intros [= <- <-].
    destruct (IH _ _ _ E) as (-> & Hl & Hp). simpl. rewrite Hc, Hp.
    repeat split; lia.
Qed.

Lemma match_class_letters s letters g2 e :
  match_class s = Some (letters, g2, e) ->
  (1 <= length letters <= 3)%nat /\ forallb is_upper letters = true.
Proof.
  unfold match_class.
  destruct (span isspace s) as [w1 r1].
  destruct (span_max 3 is_upper r1) as [ls r2] eqn:E.
  destruct (is_empty ls) eqn:Hls; [discriminate|].
  apply span_max_spec in E as (_ & Hl & Hu).
  destruct (span isspace r2) as [w2 r3].
  destruct (span is_digit r3) as [ip r4].
  assert (1 <= length ls)%nat by (destruct ls; [discriminate|simpl; lia]).
  destruct (is_empty ip); intros [= <- _ _]; auto.
Qed.

Lemma round_half_even_nonneg p q :
  (0 <= p)%Z -> (0 < q)%Z -> (0 <= round_half_even p q)%Z.
Proof.
  intros Hp Hq. unfold round_half_even.
  pose proof (Z.div_pos p q Hp Hq).
  repeat match goal with |- context [if ?b then _ else _] => destruct b end;
    lia.
Qed.

Lemma binary64_of_ratio_nonneg p q :
  (0 <= p)%Z -> (0 < q)%Z ->
  match binary64_of_ratio p q with FFin m => (0 <= m)%Z | FInf => True end.
Proof.
  intros Hp Hq. unfold binary64_of_ratio.
  match goal with |- context [if ?b then _ else _] => destruct b end;
    [exact I|].
  apply Z.mul_nonneg_nonneg; [|apply Z.pow_nonneg; lia].
  apply round_half_even_nonneg; [|apply Z.mul_pos_pos; [exact Hq|]].
  - apply Z.mul_nonneg_nonneg; [exact Hp|apply Z.pow_nonneg; lia].
  - apply Z.pow_pos_nonneg; lia.
Qed.

Lemma float_of_str_nonneg text x :
  float_of_str text = Some x ->
  match x with FFin m => (0 <= m)%Z | FInf => True end.
Proof.
  unfold float_of_str. destruct (span is_digit text) as [ip r] eqn:E.
  apply span_eq in E as (_ & Hip & _).
  destruct ip as [|i ip']; [discriminate|]. destruct r as [|c fp].
  - intros [= <-]. apply binary64_of_ratio_nonneg; [|lia].
    now apply digits_value_nonneg.
  - destruct (_ && _) eqn:Hc; [|discriminate]. intros [= <-].
    apply andb_true_iff in Hc as [_ Hfp].
    apply binary64_of_ratio_nonneg.
    + apply digits_value_nonneg.
      change (i :: ip' ++ fp) with ((i :: ip') ++ fp).
      rewrite forallb_app. now rewrite Hip, Hfp.
    + apply Z.pow_pos_nonneg; lia.
Qed.

Lemma parse_class_well_formed s letters num idx :
  _parse_class_and_number s = Some (letters, num, idx) ->
  let ls := if is_empty letters then py "ZZZ" else letters in
  (1 <= length ls <= 3)%nat /\ forallb is_upper ls = true
  /\ match num with FFin m => (0 <= m)%Z | FInf => True end.
Proof.
  unfold _parse_class_and_number.
  destruct (match_class s) as [[[ls [text|]] e]|] eqn:E.
  - destruct (float_of_str text) as [x|] eqn:Ex; [|discriminate].
    simpl. intros [= <- <- _].
    destruct (match_class_letters _ _ _ _ E) as [Hl Hu].
    destruct ls; [simpl in Hl; lia|]. simpl is_empty. cbv iota.
    repeat split; try tauto. now apply float_of_str_nonneg in Ex.
  - intros [= <- <- _].
    destruct (match_class_letters _ _ _ _ E) as [Hl Hu].
    destruct ls; [simpl in Hl; lia|]. simpl is_empty. cbv iota.
    repeat split; tauto.
  - intros [= <- <- _]. simpl. repeat split; lia.
Qed.






Lemma is_upper_not_space c : is_upper c = true -> isspace c = false.
Proof.
  unfold is_upper, isspace. rewrite andb_true_iff, !N.leb_le. intros [H1 H2].
  repeat (apply orb_false_iff; split);
    rewrite ?andb_false_iff, ?N.leb_gt, ?N.eqb_neq; lia.
Qed.

Lemma is_digit_not_space c : is_digit c = true -> isspace c = false.
Proof.
  unfold is_digit, isspace. rewrite andb_true_iff, !N.leb_le. intros [H1 H2].
  repeat (apply orb_false_iff; split);
    rewrite ?andb_false_iff, ?N.leb_gt, ?N.eqb_neq; lia.
Qed.







(** ** The stable sort *)

Section Sorting.
Context {A : Type} (key : A -> SortKey).


Lemma insert_by_perm x l : Permutation (insert_by key x l) (x :: l).
Proof.
  induction l as [|y l IH]; simpl; [reflexivity|].
  destruct (key_ltb (key y) (key x)); [|reflexivity].
  rewrite IH. apply perm_swap.
Qed.

Lemma sorted_by_perm l : Permutation (sorted_by key l) l.
Proof.
  induction l as [|x l IH]; simpl; [reflexivity|].
  rewrite insert_by_perm. now constructor.
Qed.

Lemma insert_by_hd x y l :
  key_le key y x -> HdRel (key_le key) y l ->
  HdRel (key_le key) y (insert_by key x l).
Proof.
  intros Hyx Hl. destruct l as [|z l]; simpl; [now constructor|].
  destruct (key_ltb (key z) (key x)); constructor; [|exact Hyx].
  now inversion Hl.
Qed.

Lemma insert_by_sorted x l :
  Sorted (key_le key) l -> Sorted (key_le key) (insert_by key x l).
Proof.
  induction 1 as [|y l Hl IH Hy]; simpl; [repeat constructor|].
  destruct (key_ltb (key y) (key x)) eqn:E.
  - constructor; [exact IH|]. apply insert_by_hd; [|exact Hy].
    unfold key_le. now apply key_ltb_asym.
  - constructor; [now constructor|]. constructor. exact E.
Qed.

Lemma sorted_by_sorted l : Sorted (key_le key) (sorted_by key l).
Proof.
  induction l as [|x l IH]; simpl; [constructor|]. now apply insert_by_sorted.
Qed.

Lemma sorted_by_fixed l : Sorted (key_le key) l -> sorted_by key l = l.
Proof.
  induction 1 as [|x l Hl IH Hx]; simpl; [reflexivity|]. rewrite IH.
  destruct Hx as [|y l' Hxy]; simpl; [reflexivity|].
  unfold key_le in Hxy. now rewrite Hxy.
Qed.

Lemma sorted_by_idempotent l :
  sorted_by key (sorted_by key l) = sorted_by key l.
Proof. apply sorted_by_fixed, sorted_by_sorted. Qed.

(** Stability: the sorted list is strictly increasing for [before]. *)
Context (ident : A -> Z).


Lemma before_trans x y z :
  before key ident x y -> before key ident y z -> before key ident x z.
Proof.
  intros [H1|[E1 H1]] [H2|[E2 H2]].
  - left. eapply key_ltb_trans; eauto.
  - left. now rewrite <- E2.
  - left. now rewrite E1.
  - right. split; [congruence|lia].
Qed.

Lemma before_irrefl x : ~ before key ident x x.
Proof.
  intros [H|[_ H]]; [|lia]. rewrite key_ltb_irrefl in H. discriminate.
Qed.

Lemma before_asym x y : before key ident x y -> ~ before key ident y x.
Proof. intros H1 H2. exact (before_irrefl x (before_trans _ _ _ H1 H2)). Qed.

Lemma insert_by_In x y l : In y (insert_by key x l) -> y = x \/ In y l.
Proof.
  intros H. apply (Permutation_in _ (insert_by_perm x l)) in H.
  destruct H; auto.
Qed.

Lemma insert_by_before x l :
  StronglySorted (before key ident) l ->
  Forall (fun y => (ident x < ident y)%Z) l ->
  StronglySorted (before key ident) (insert_by key x l).
Proof.
  induction 1 as [|y l Hl IH Hy]; intros Hid; simpl;
    [repeat constructor|].
  inversion Hid as [|? ? Hxy Hid']; subst.
  destruct (key_ltb (key y) (key x)) eqn:E.
  - constructor; [now apply IH|].
    apply List.Forall_forall. intros z [->|Hz]%insert_by_In.
    + now left.
    + rewrite List.Forall_forall in Hy. now apply Hy.
  - assert (Hb : before key ident x y).
    { destruct (key_ltb (key x) (key y)) eqn:E'; [now left|].
      right. split; [now apply key_ltb_total|exact Hxy]. }
    constructor; [now constructor|]. constructor; [exact Hb|].
    eapply Forall_impl; [exact Hy|]. intros z Hz.
    eapply before_trans; eauto.
Qed.

Lemma sorted_by_before l :
  StronglySorted (fun x y => (ident x < ident y)%Z) l ->
  StronglySorted (before key ident) (sorted_by key l).
Proof.
  induction 1 as [|x l Hl IH Hx]; simpl; [constructor|].
  apply insert_by_before; [exact IH|].
  rewrite List.Forall_forall in Hx |- *. intros y Hy. apply Hx.
  now apply (Permutation_in _ (sorted_by_perm l)).
Qed.
End Sorting.

Lemma StronglySorted_lookup {A : Type} (R : A -> A -> Prop) (l : list A)
    i j x y :
  StronglySorted R l -> l !! i = Some x -> l !! j = Some y -> (i < j)%nat ->
  R x y.
Proof.
  intros Hl. revert i j. induction Hl as [|z l Hl IH Hz]; intros i j Hi Hj Hij.
  - discriminate.
  - destruct j as [|j]; [lia|]. destruct i as [|i]; simpl in *.
    + injection Hi as <-. rewrite List.Forall_forall in Hz. apply Hz.
      apply list_elem_of_In. eapply list_elem_of_lookup_2, Hj.
    + eapply IH; eauto. lia.
Qed.

(** C1.  The comparison of two sort keys, position by position, is a
    strict total order: of [a < b], [a = b] and [b < a] exactly one holds,
    the order is transitive, [==] is equality, and sorting a sorted batch
    again returns it unchanged.  This holds for all keys of the tuple
    type, so for those [lc_sort_key] produces. *)
Theorem key_order_strict_total :
  (forall a b : SortKey,
      (key_ltb a b = true /\ a <> b /\ key_ltb b a = false)
      \/ (key_ltb a b = false /\ a = b /\ key_ltb b a = false)
      \/ (key_ltb a b = false /\ a <> b /\ key_ltb b a = true))
  /\ (forall a b c : SortKey,
         key_ltb a b = true -> key_ltb b c = true -> key_ltb a c = true)
  /\ (forall a b : SortKey, key_eqb a b = true <-> a = b)
  /\ (forall (A : Type) (key : A -> SortKey) (l : list A),
         sorted_by key (sorted_by key l) = sorted_by key l).
Proof.
  repeat split.
  - intros a b. destruct (key_ltb a b) eqn:Hab.
    + left. repeat split; [|now apply key_ltb_asym].
      intros ->. rewrite key_ltb_irrefl in Hab. discriminate.
    + right. destruct (key_ltb b a) eqn:Hba.
      * right. repeat split. intros ->. rewrite key_ltb_irrefl in Hba.
        discriminate.
      * left. repeat split. now apply key_ltb_total.
  - apply key_ltb_trans.
  - now apply key_eqb_eq.
  - now apply key_eqb_eq.
  - intros A key l. apply sorted_by_idempotent.
Qed.

Lemma key_order_strict_total_witness :
  key_ltb (mkSortKey (py "PS") (FFin 3561) (py "A") (IFin 1) [] IInf [] IInf
             (IFin 2001))
          all_missing = true.
Proof.
  apply (proj1 (proj2 key_order_strict_total)
           _ (mkSortKey (py "QA") (FFin 76) (py "C") (IFin 153) [] IInf
                [] IInf (IFin 2019))); reflexivity.
Defined.

(** ** Missing components *)

Lemma letters_below_sentinel letters :
  (1 <= length letters <= 3)%nat -> forallb is_upper letters = true ->
  str_ltb (py "ZZZ") letters = false
  /\ (letters <> py "ZZZ" -> str_ltb letters (py "ZZZ") = true).
Proof.
  intros Hl Hu.
  destruct letters as [|a [|b [|c [|d r]]]]; simpl in Hl; try lia;
    cbn [forallb] in Hu;
    repeat (apply andb_true_iff in Hu as [?%andb_true_iff Hu]);
    repeat match goal with
           | H : _ /\ _ |- _ => destruct H
           | H : (_ <=? _)%N = true |- _ => apply N.leb_le in H
           end;
    change (py "ZZZ") with [90; 90; 90]%N; cbn [str_ltb];
    repeat match goal with
           | |- context [(?x =? ?y)%N] => destruct (N.eqb_spec x y)
           end;
    split; try reflexivity; try (intros _; apply N.ltb_lt; lia);
    try (apply N.ltb_ge; lia); try congruence.
Qed.

Lemma lex_eq {A : Type} (eqb ltb : A -> A -> bool) x y p :
  strict_total eqb ltb -> x = y -> lex eqb ltb x y p = p.
Proof. intros O ->. unfold lex. now rewrite (eqb_refl_st _ _ O). Qed.

(** Two keys that agree in front of a cutter slot, the first with the
    missing pair in the slot and the second with a cutter: the first is
    below the second. *)
Ltac missing_slot_first :=
  unfold key_ltb;
  repeat first [ rewrite (lex_eq str_eqb str_ltb) by
                   (try exact str_order; assumption)
               | rewrite (lex_eq xfloat_eqb xfloat_ltb) by
                   (try exact xfloat_order; assumption)
               | rewrite (lex_eq xint_eqb xint_ltb) by
                   (try exact xint_order; assumption) ];
  match goal with
  | Ha : _ = missing_cutter, Hb : _ = ([_], IFin _) |- _ =>
      injection Ha as -> ->; injection Hb as -> ->
  end;
  reflexivity.

(** C3, as the script has it.  The sentinel for missing letters is not
    below any combination of one to three capital letters, and is above
    every one of them but "ZZZ" itself; a missing class number, cutter
    number or year (infinity) is above every finite one; and a missing
    cutter pair, whose letter is the empty string, compares BEFORE every
    present pair in the same slot. *)
Theorem missing_components_order :
  (forall letters : pystr,
      (1 <= length letters <= 3)%nat -> forallb is_upper letters = true ->
      str_ltb (class_letters all_missing) letters = false
      /\ (letters <> py "ZZZ" ->
          str_ltb letters (class_letters all_missing) = true))
  /\ (forall m : Z,
         xfloat_ltb (FFin m) (class_number all_missing) = true
         /\ xfloat_ltb (class_number all_missing) (FFin m) = false)
  /\ (forall y : Z,
         xint_ltb (IFin y) (year all_missing) = true
         /\ xint_ltb (year all_missing) (IFin y) = false)
  /\ (forall (l : N) (n : Z),
         cutter_ltb missing_cutter ([l], IFin n) = true
         /\ cutter_ltb ([l], IFin n) missing_cutter = false)
  /\ (forall (a b : SortKey) (l : N) (n : Z),
         class_letters a = class_letters b ->
         class_number a = class_number b ->
         (cutter1_letter a, cutter1_num a) = missing_cutter ->
         (cutter1_letter b, cutter1_num b) = ([l], IFin n) ->
         key_ltb a b = true /\ key_ltb b a = false)
  /\ (forall (a b : SortKey) (l : N) (n : Z),
         class_letters a = class_letters b ->
         class_number a = class_number b ->
         cutter1_letter a = cutter1_letter b ->
         cutter1_num a = cutter1_num b ->
         (cutter2_letter a, cutter2_num a) = missing_cutter ->
         (cutter2_letter b, cutter2_num b) = ([l], IFin n) ->
         key_ltb a b = true /\ key_ltb b a = false)
  /\ (forall (a b : SortKey) (l : N) (n : Z),
         class_letters a = class_letters b ->
         class_number a = class_number b ->
         cutter1_letter a = cutter1_letter b ->
         cutter1_num a = cutter1_num b ->
         cutter2_letter a = cutter2_letter b ->
         cutter2_num a = cutter2_num b ->
         (cutter3_letter a, cutter3_num a) = missing_cutter ->
         (cutter3_letter b, cutter3_num b) = ([l], IFin n) ->
         key_ltb a b = true /\ key_ltb b a = false).
Proof.
  split; [intros letters Hl Hu; now apply letters_below_sentinel|].
  split; [intros m; split; reflexivity|].
  split; [intros y; split; reflexivity|].
  split; [intros l n; split; reflexivity|].
  split; [|split].
  - intros a b l n E1 E2 Ha Hb.
    assert (H : key_ltb a b = true) by missing_slot_first.
    split; [exact H|now apply key_ltb_asym].
  - intros a b l n E1 E2 E3 E4 Ha Hb.
    assert (H : key_ltb a b = true) by missing_slot_first.
    split; [exact H|now apply key_ltb_asym].
  - intros a b l n E1 E2 E3 E4 E5 E6 Ha Hb.
    assert (H : key_ltb a b = true) by missing_slot_first.
    split; [exact H|now apply key_ltb_asym].
Qed.

Lemma missing_components_order_witness :
  str_ltb (py "QA") (class_letters all_missing) = true
  /\ key_ltb (mkSortKey (py "QA") (FFin 76) [] IInf [] IInf [] IInf IInf)
             (mkSortKey (py "QA") (FFin 76) (py "C") (IFin 15) [] IInf
                [] IInf IInf) = true.
Proof.
  split.
  - apply (proj1 missing_components_order (py "QA")); try reflexivity.
    + simpl. lia.
    + discriminate.
  - apply (proj1 (proj2 (proj2 (proj2 (proj2 missing_components_order))))
             _ _ 67%N 15%Z); reflexivity.
Defined.

(** C3 as the specification words it fails on two counts.  The key of
    "QA76", whose cutter slots are all missing, sorts before the key of
    "QA76 .C15", not after it; and the sentinel is not above the class
    letters of "ZZZ1", which are a combination of three capital letters. *)
Lemma missing_cutter_sorts_first :
  exists ka kb kz,
    lc_sort_key keep_char (py "QA76") = Some ka
    /\ lc_sort_key keep_char (py "QA76 .C15") = Some kb
    /\ lc_sort_key keep_char (py "ZZZ1") = Some kz
    /\ class_letters ka = class_letters kb
    /\ class_number ka = class_number kb
    /\ cutter_slots ka = [missing_cutter; missing_cutter; missing_cutter]
    /\ (cutter1_letter kb, cutter1_num kb) = (py "C", IFin 15)
    /\ key_ltb ka kb = true /\ key_ltb kb ka = false
    /\ cutter_ltb (py "C", IFin 15) missing_cutter = false
    /\ str_ltb (class_letters kz) (class_letters all_missing) = false.
Proof.
  eexists _, _, _. split; [vm_compute; reflexivity|].
  split; [vm_compute; reflexivity|].
  split; [vm_compute; reflexivity|].
  vm_compute. repeat split.
Qed.

(** ** [best_call_number_for_sort] *)

Lemma first_nonempty_step row k ks :
  first_nonempty row (k :: ks)
  = if negb (is_empty (trimmed_field row k)) then trimmed_field row k
    else first_nonempty row ks.
Proof.
  cbn [first_nonempty]. unfold trimmed_field, get.
  destruct (row !! k) as [[v|]|]; cbn [default];
    try (change (strip []) with (@nil N); reflexivity).
  unfold id. now destruct (is_empty (strip v)).
Qed.

(** C9.  The string selected for ranking is the first non-empty trimmed
    value among LC Call Number, Local Call Number and CNfromPA, in this
    order, and the empty string when none of them has one: a field of lower
    priority is selected only when every field before it is empty once
    trimmed. *)
Theorem best_call_number_for_sort_priority (row : Row) :
  let lc := trimmed_field row (py "LC Call Number") in
  let local := trimmed_field row (py "Local Call Number") in
  let pa := trimmed_field row (py "CNfromPA") in
  best_call_number_for_sort row = selectForRanking_spec row
  /\ (lc <> [] -> best_call_number_for_sort row = lc)
  /\ (lc = [] -> local <> [] -> best_call_number_for_sort row = local)
  /\ (lc = [] -> local = [] -> best_call_number_for_sort row = pa)
  /\ (lc = [] -> local = [] -> pa = [] -> best_call_number_for_sort row = []).
Proof.
  intros lc local pa.
  assert (E : best_call_number_for_sort row = selectForRanking_spec row).
  { unfold best_call_number_for_sort, ranking_fields, selectForRanking_spec.
    rewrite !first_nonempty_step. cbn [first_nonempty].
    fold lc local pa. destruct (is_empty lc); [|reflexivity].
    destruct (is_empty local); [|reflexivity]. now destruct pa. }
  split; [exact E|]. rewrite E. unfold selectForRanking_spec.
  fold lc local pa. repeat split.
  - intros H. now destruct lc.
  - intros -> H. now destruct local.
  - now intros -> ->.
  - now intros -> -> ->.
Qed.

Lemma best_call_number_for_sort_priority_witness :
  let row : Row :=
    <[py "LC Call Number" := Some (py "  ")]>
      (<[py "Local Call Number" := Some (py " QA76.C15 ")]>
         (<[py "CNfromPA" := Some (py "PS3561.A1")]> ∅)) in
  best_call_number_for_sort row = trimmed_field row (py "Local Call Number").
Proof.
  intros row.
  apply (best_call_number_for_sort_priority row);
    [vm_compute; reflexivity|vm_compute; discriminate].
Defined.

(** ** The ranking pass *)

Lemma field_names_distinct :
  py "Physical Availability" <> py "LC Call Number"
  /\ py "CNfromPA" <> py "LC Call Number"
  /\ py "Local Call Number" <> py "LC Call Number".
Proof. repeat split; intros H; vm_compute in H; discriminate. Qed.

Lemma get_insert_ne (row : Row) k' v k d :
  k' <> k -> get (<[k' := v]> row) k d = get row k d.
Proof. intros H. unfold get. now rewrite lookup_insert_ne. Qed.

(** Two names of the script that differ. *)
Ltac name_ne :=
  let E := fresh "E" in
  intros E; vm_compute in E; discriminate E.

Lemma get_delete_ne (row : Row) k' k d :
  k' <> k -> get (delete k' row) k d = get row k d.
Proof. intros H. unfold get. now rewrite lookup_delete_ne. Qed.

Lemma best_delete (row : Row) k :
  ~ In k ranking_fields ->
  best_call_number_for_sort (delete k row) = best_call_number_for_sort row.
Proof.
  intros H. unfold best_call_number_for_sort, ranking_fields in *.
  cbn [In] in H. cbn [first_nonempty].
  rewrite !get_delete_ne by (intros E; apply H; rewrite E; tauto).
  reflexivity.
Qed.

Section Ranking.
Variable upper_full : N -> pystr.
Variable sub_and_others : pystr -> pystr.

(** The first loop cleans a row as the loop of the cleaning script does,
    and keeps the row id and the sort key in the row's dict. *)
Lemma clean_row_cleaning row_id row :
  clean_row upper_full sub_and_others row_id row
  = w ← cleaning_row sub_and_others row;
    key ← lc_sort_key upper_full (best_call_number_for_sort w);
    Some (mkCleanedRow (delete (py "_lc_sort_key") (delete (py "_row_id") w))
            row_id key).
Proof.
  unfold clean_row, cleaning_row.
  rewrite (get_delete_ne row (py "_row_id") (py "Physical Availability"))
    by name_ne.
  destruct (extract_from_physical_availability _) as [location cn_from_pa].
  rewrite <- !(delete_insert_ne _ (py "_row_id")) by name_ne.
  rewrite !(get_delete_ne _ (py "_row_id")) by name_ne.
  destruct (get _ (py "LC Call Number") (Some [])) as [lc_raw|];
    [|reflexivity].
  cbn [mbind option_bind].
  rewrite <- !(delete_insert_ne _ (py "_row_id")) by name_ne.
  rewrite best_delete by (cbn [In ranking_fields]; intros [E|[E|[E|[]]]];
                          vm_compute in E; discriminate E).
  reflexivity.
Qed.

Lemma clean_row_inv row_id row r :
  clean_row upper_full sub_and_others row_id row = Some r ->
  cleanable row
  /\ _row_id r = row_id
  /\ lc_sort_key upper_full (best_call_number_for_sort (cr_fields r))
     = Some (_lc_sort_key r)
  /\ exists w, cleaning_row sub_and_others row = Some w
               /\ cr_fields r
                  = delete (py "_lc_sort_key") (delete (py "_row_id") w).
Proof.
  rewrite clean_row_cleaning.
  destruct (cleaning_row sub_and_others row) as [w|] eqn:Ew; [|discriminate].
  cbn [mbind option_bind].
  destruct (lc_sort_key upper_full (best_call_number_for_sort w))
    as [k|] eqn:Ek; [|discriminate].
  cbn [mbind option_bind]. intros [= <-]. cbn [cr_fields _row_id _lc_sort_key].
  split; [|split; [reflexivity|split; [|now exists w]]].
  - intros Hn. revert Ew. unfold cleaning_row.
    destruct (extract_from_physical_availability _) as [location cn_from_pa].
    destruct field_names_distinct as (N1 & N2 & N3).
    rewrite !(get_insert_ne _ _ _ (py "LC Call Number")) by assumption.
    unfold get. rewrite Hn. discriminate.
  - rewrite !best_delete
      by (cbn [In ranking_fields]; intros [E|[E|[E|[]]]];
          vm_compute in E; discriminate E).
    exact Ek.
Qed.

Lemma first_pass_spec c rows crs :
  first_pass upper_full sub_and_others c rows = Some crs ->
  Forall2 (fun row r => True) rows crs
  /\ forall i r, crs !! i = Some r ->
       _row_id r = (c + 1 + Z.of_nat i)%Z
       /\ (exists row, rows !! i = Some row
             /\ clean_row upper_full sub_and_others
                  (c + 1 + Z.of_nat i) row = Some r)
       /\ lc_sort_key upper_full (best_call_number_for_sort (cr_fields r))
          = Some (_lc_sort_key r).
Proof.
  revert c crs. induction rows as [|row rows IH]; intros c crs H.
  - injection H as <-. split; [constructor|]. intros i r Hi. discriminate.
  - cbn [first_pass] in H.
    destruct (clean_row upper_full sub_and_others (c + 1) row) as [r|] eqn:Er;
      [|discriminate].
    cbn [mbind option_bind] in H.
    destruct (first_pass upper_full sub_and_others (c + 1) rows)
      as [rs|] eqn:Es; [|discriminate].
    injection H as <-.
    destruct (IH _ _ Es) as (Hlen & Hall).
    destruct (clean_row_inv _ _ _ Er) as (_ & Hid & Hk & _).
    split; [now constructor|].
    intros [|i] r' Hi.
    + injection Hi as <-. rewrite Z.add_0_r. repeat split; eauto.
    + simpl in Hi. destruct (Hall i r' Hi) as (H1 & (row' & H2 & H3) & H4).
      replace (c + 1 + Z.of_nat (S i))%Z with (c + 1 + 1 + Z.of_nat i)%Z
        by lia.
      repeat split; eauto.
Qed.

Lemma build_index_other l i (d : gmap Z Z) k :
  ~ In k (List.map _row_id l) -> build_index i l d !! k = d !! k.
Proof.
  revert i d. induction l as [|r l IH]; intros i d Hk; [reflexivity|].
  cbn [build_index]. rewrite IH.
  - apply lookup_insert_ne. intros E. apply Hk. now left.
  - intros Hin. apply Hk. now right.
Qed.

Lemma build_index_lookup l i (d : gmap Z Z) pos r :
  List.NoDup (List.map _row_id l) -> l !! pos = Some r ->
  build_index i l d !! _row_id r = Some (i + 1 + Z.of_nat pos)%Z.
Proof.
  revert i d pos. induction l as [|x l IH]; intros i d pos Hnd Hpos;
    [discriminate|].
  inversion Hnd as [|? ? Hx Hnd']; subst. cbn [build_index].
  destruct pos as [|pos].
  - injection Hpos as <-. rewrite build_index_other by exact Hx.
    rewrite lookup_insert_eq. f_equal. lia.
  - simpl in Hpos. rewrite (IH _ _ pos Hnd' Hpos). f_equal. lia.
Qed.

Lemma write_rows_spec (idx : gmap Z Z) l :
  (forall r, In r l -> is_Some (idx !! _row_id r)) ->
  exists out,
    write_rows idx l = Some out
    /\ Forall2 (fun r w => w_fields w
                           = delete (py "LC_SortIndex") (cr_fields r)
                           /\ idx !! _row_id r = Some (LC_SortIndex w)) l out.
Proof.
  induction l as [|r l IH]; intros H.
  - exists []. split; [reflexivity|constructor].
  - destruct (H r (or_introl eq_refl)) as [v Hv].
    destruct IH as (out & Hout & HF); [intros r' Hr'; apply H; now right|].
    exists (mkWrittenRow (delete (py "LC_SortIndex") (cr_fields r)) v :: out).
    cbn [write_rows].
    rewrite Hv, Hout. split; [reflexivity|]. constructor; [|exact HF].
    now split.
Qed.

Lemma ids_increasing (l : list CleanedRow) c :
  (forall i r, l !! i = Some r -> _row_id r = (c + Z.of_nat i)%Z) ->
  StronglySorted (fun x y => (_row_id x < _row_id y)%Z) l.
Proof.
  revert c. induction l as [|x l IH]; intros c H; constructor.
  - apply (IH (c + 1)%Z). intros i r Hi. rewrite (H (S i) r Hi). lia.
  - apply List.Forall_forall. intros y Hy.
    apply list_elem_of_In, list_elem_of_lookup in Hy as [i Hi].
    rewrite (H 0%nat x eq_refl), (H (S i) y Hi). lia.
Qed.

Lemma ids_NoDup (l : list CleanedRow) :
  StronglySorted (fun x y => (_row_id x < _row_id y)%Z) l ->
  List.NoDup (List.map _row_id l).
Proof.
  induction 1 as [|x l Hl IH Hx]; simpl; constructor; [|exact IH].
  intros (y & Hy & Hin)%in_map_iff. rewrite List.Forall_forall in Hx.
  specialize (Hx y Hin). lia.
Qed.

(** C2.  Once the first loop has cleaned the batch, the final loop never
    raises; the ranking pass hands the rows to the writer in the order they
    were read, each with its cleaned fields (but for a column named
    "LC_SortIndex", which the rank overwrites), and the rank of a row is its
    1-based position in the stable sort of the batch by sort key: the
    sorted list is a permutation of the batch in non-decreasing key order,
    the row sits in it at position [rank - 1], and a row gets a smaller
    rank than another exactly when its key is smaller, or the keys are
    equal and it was read first. *)
Theorem ranking_pass_ranks (rows : list Row) (cleaned : list CleanedRow) :
  first_pass upper_full sub_and_others 0 rows = Some cleaned ->
  exists out,
    ranking_pass upper_full sub_and_others rows = Some out
    /\ length cleaned = length rows /\ length out = length rows
    /\ Permutation (sorted_by _lc_sort_key cleaned) cleaned
    /\ Sorted (key_le _lc_sort_key) (sorted_by _lc_sort_key cleaned)
    /\ (forall i r, cleaned !! i = Some r ->
          (exists row, rows !! i = Some row
             /\ clean_row upper_full sub_and_others (Z.of_nat i + 1) row
                = Some r)
          /\ lc_sort_key upper_full
               (best_call_number_for_sort (cr_fields r))
             = Some (_lc_sort_key r)
          /\ exists w, out !! i = Some w
               /\ w_fields w = delete (py "LC_SortIndex") (cr_fields r)
               /\ (1 <= LC_SortIndex w <= Z.of_nat (length rows))%Z
               /\ sorted_by _lc_sort_key cleaned
                    !! Z.to_nat (LC_SortIndex w - 1) = Some r)
    /\ (forall i j ri rj wi wj,
          cleaned !! i = Some ri -> cleaned !! j = Some rj ->
          out !! i = Some wi -> out !! j = Some wj ->
          (LC_SortIndex wi < LC_SortIndex wj)%Z <->
          key_ltb (_lc_sort_key ri) (_lc_sort_key rj) = true
          \/ (_lc_sort_key ri = _lc_sort_key rj /\ (i < j)%nat)).
Proof.
  intros Hfp.
  destruct (first_pass_spec 0 rows cleaned Hfp) as (Hlen & Hall).
  apply Forall2_length in Hlen.
  set (sorted := sorted_by _lc_sort_key cleaned).
  assert (Hperm : Permutation sorted cleaned) by apply sorted_by_perm.
  assert (Hinc : StronglySorted (fun x y => (_row_id x < _row_id y)%Z) cleaned).
  { apply (ids_increasing cleaned 1). intros i r Hi.
    now destruct (Hall i r Hi) as [-> _]. }
  assert (Hbef : StronglySorted (before _lc_sort_key _row_id) sorted)
    by now apply sorted_by_before.
  assert (Hnd : List.NoDup (List.map _row_id sorted)).
  { eapply Permutation_NoDup; [|apply (ids_NoDup cleaned Hinc)].
    symmetry. now apply Permutation_map. }
  (* where each cleaned row sits in the sorted list *)
  assert (Hpos : forall r, In r cleaned ->
            exists p, sorted !! p = Some r
              /\ build_index 0 sorted ∅ !! _row_id r
                 = Some (Z.of_nat p + 1)%Z).
  { intros r Hr. apply (Permutation_in _ (Permutation_sym Hperm)) in Hr.
    apply list_elem_of_In, list_elem_of_lookup in Hr as [p Hp].
    exists p. split; [exact Hp|].
    rewrite (build_index_lookup sorted 0 ∅ p r Hnd Hp). f_equal. lia. }
  destruct (write_rows_spec (build_index 0 sorted ∅) cleaned)
    as (out & Hout & HF).
  { intros r Hr. destruct (Hpos r Hr) as (p & _ & ->). eauto. }
  assert (Hrank : forall i r w, cleaned !! i = Some r -> out !! i = Some w ->
            w_fields w = delete (py "LC_SortIndex") (cr_fields r)
            /\ exists p, sorted !! p = Some r
                         /\ LC_SortIndex w = (Z.of_nat p + 1)%Z).
  { intros i r w Hi Hw.
    destruct (Forall2_lookup_l _ _ _ _ _ HF Hi) as (w' & Hw' & Hf & Hidx).
    rewrite Hw in Hw'. injection Hw' as <-. split; [exact Hf|].
    destruct (Hpos r) as (p & Hp & Hb);
      [apply list_elem_of_In; eapply list_elem_of_lookup_2, Hi|].
    exists p. split; [exact Hp|]. congruence. }
  exists out.
  split; [unfold ranking_pass; rewrite Hfp; exact Hout|].
  split; [now symmetry|].
  split; [rewrite <- (Forall2_length _ _ _ HF); now symmetry|].
  split; [exact Hperm|]. split; [apply sorted_by_sorted|]. split.
  - intros i r Hi. destruct (Hall i r Hi) as (_ & (row & Hrow & Hcr) & Hk).
    split; [exists row; split; [exact Hrow|]|split; [exact Hk|]].
    + now replace (Z.of_nat i + 1)%Z with (0 + 1 + Z.of_nat i)%Z by lia.
    + destruct (Forall2_lookup_l _ _ _ _ _ HF Hi) as (w & Hw & _).
      destruct (Hrank i r w Hi Hw) as (Hf & p & Hp & Hidx).
      exists w. split; [exact Hw|]. split; [exact Hf|].
      pose proof (lookup_lt_Some _ _ _ Hp) as Hlt.
      rewrite (Permutation_length Hperm), <- Hlen in Hlt.
      split; [lia|]. rewrite Hidx.
      now replace (Z.to_nat (Z.of_nat p + 1 - 1)) with p by lia.
  - intros i j ri rj wi wj Hi Hj Hwi Hwj.
    destruct (Hrank i ri wi Hi Hwi) as (_ & pi & Hpi & ->).
    destruct (Hrank j rj wj Hj Hwj) as (_ & pj & Hpj & ->).
    destruct (Hall i ri Hi) as (Hidi & _). destruct (Hall j rj Hj) as (Hidj & _).
    assert (Hb : before _lc_sort_key _row_id ri rj <->
                 key_ltb (_lc_sort_key ri) (_lc_sort_key rj) = true
                 \/ (_lc_sort_key ri = _lc_sort_key rj /\ (i < j)%nat)).
    { unfold before. rewrite Hidi, Hidj. split; (intros [H|[H1 H2]];
        [now left|right; split; [exact H1|lia]]). }
    rewrite <- Hb. split.
    + intros Hlt. apply (StronglySorted_lookup _ sorted pi pj); auto. lia.
    + intros Hbef'. destruct (Nat.lt_trichotomy pi pj) as [H|[H|H]]; [lia| |].
      * subst pj. rewrite Hpi in Hpj. injection Hpj as <-.
        now apply before_irrefl in Hbef'.
      * exfalso. apply (before_asym _ _ _ _ Hbef').
        apply (StronglySorted_lookup _ sorted pj pi); auto.
Qed.
End Ranking.

Example ranking_pass_example :
  option_map (List.map LC_SortIndex)
    (ranking_pass keep_char leave_text example_rows)
  = Some [2; 1; 3]%Z.
Proof. vm_compute. reflexivity. Qed.

Lemma ranking_pass_ranks_witness :
  exists out,
    ranking_pass keep_char leave_text example_rows = Some out
    /\ length example_cleaned = length example_rows
    /\ length out = length example_rows
    /\ Permutation (sorted_by _lc_sort_key example_cleaned) example_cleaned
    /\ Sorted (key_le _lc_sort_key)
         (sorted_by _lc_sort_key example_cleaned)
    /\ (forall i r, example_cleaned !! i = Some r ->
          (exists row, example_rows !! i = Some row
             /\ clean_row keep_char leave_text (Z.of_nat i + 1) row = Some r)
          /\ lc_sort_key keep_char
               (best_call_number_for_sort (cr_fields r))
             = Some (_lc_sort_key r)
          /\ exists w, out !! i = Some w
               /\ w_fields w = delete (py "LC_SortIndex") (cr_fields r)
               /\ (1 <= LC_SortIndex w <= Z.of_nat (length example_rows))%Z
               /\ sorted_by _lc_sort_key example_cleaned
                    !! Z.to_nat (LC_SortIndex w - 1) = Some r)
    /\ (forall i j ri rj wi wj,
          example_cleaned !! i = Some ri -> example_cleaned !! j = Some rj ->
          out !! i = Some wi -> out !! j = Some wj ->
          (LC_SortIndex wi < LC_SortIndex wj)%Z <->
          key_ltb (_lc_sort_key ri) (_lc_sort_key rj) = true
          \/ (_lc_sort_key ri = _lc_sort_key rj /\ (i < j)%nat)).
Proof.
  apply (ranking_pass_ranks keep_char leave_text example_rows).
  vm_compute. reflexivity.
Defined.

(** ** The year *)

Lemma year_body_test t :
  year_body t
  = if is_year_numeral (take 4 t) && not_digit (t !! 4%nat)
    then Some (take 4 t) else None.
Proof.
  destruct t as [|d1 [|d2 [|d3 [|d4 r]]]]; try reflexivity.
  cbn [year_body take]. unfold is_year_numeral.
  cbn [length Nat.eqb forallb]. rewrite andb_true_r.
  replace ((d1 :: d2 :: d3 :: d4 :: r) !! 4%nat) with (head r)
    by now destruct r.
  assert (Hr : negb match r with [] => false | c :: _ => is_digit c end
               = not_digit (head r)) by now destruct r.
  rewrite Hr.
  destruct (is_digit d2) eqn:H2; [|now rewrite !andb_false_r].
  destruct (is_digit d3) eqn:H3; [|now rewrite !andb_false_r].
  destruct (is_digit d4) eqn:H4; [|now rewrite !andb_false_r].
  rewrite !andb_true_r. cbn [andb].
  destruct (is_digit d1) eqn:H1.
  - cbn [andb].
    assert (E : ((d1 =? 49) || (d1 =? 50))%N
                = ((1000 <=? digits_value [d1; d2; d3; d4])%Z
                   && (digits_value [d1; d2; d3; d4] <=? 2999)%Z)).
    { apply eq_true_iff_eq.
      rewrite orb_true_iff, andb_true_iff, !N.eqb_eq, !Z.leb_le.
      symmetry. now apply year_numeral_range. }
    rewrite E. now destruct (_ && _), (not_digit (head r)).
  - assert (((d1 =? 49) || (d1 =? 50))%N = false) as ->; [|reflexivity].
    apply orb_false_iff. split; apply N.eqb_neq; intros ->; discriminate.
Qed.

Lemma year_occurs_in_shift prev c t j :
  year_occurs_in prev (c :: t) (S j) = year_occurs_in (Some c) t j.
Proof. unfold year_occurs_in. now destruct j. Qed.

Lemma year_occurs_in_0 prev t :
  year_occurs_in prev t 0
  = is_year_numeral (take 4 t) && not_digit prev && not_digit (t !! 4%nat).
Proof. reflexivity. Qed.

Lemma year_occurs_in_nil prev j : year_occurs_in prev [] j = false.
Proof. unfold year_occurs_in. now rewrite drop_nil. Qed.

Lemma year_occurs_in_digit d t :
  is_digit d = true -> year_occurs_in (Some d) t 0 = false.
Proof.
  intros H. rewrite year_occurs_in_0. cbn [not_digit]. rewrite H.
  now rewrite andb_false_r.
Qed.

Lemma year_occurrences_digit d pos t :
  is_digit d = true ->
  year_occurrences (Some d) pos t
  = match t with
    | [] => []
    | c :: t' => year_occurrences (Some c) (S pos) t'
    end.
Proof.
  intros H. destruct t as [|c t']; [reflexivity|].
  cbn [year_occurrences]. now rewrite year_occurs_in_digit.
Qed.

(** The last occurrence listed is the rightmost one. *)
Lemma last_year_occurrences prev pos t :
  match last (year_occurrences prev pos t) with
  | Some (p, g) =>
      exists j, p = (pos + j)%nat /\ year_occurs_in prev t j = true
                /\ g = take 4 (drop j t)
                /\ forall j', year_occurs_in prev t j' = true -> (j' <= j)%nat
  | None => forall j, year_occurs_in prev t j = false
  end.
Proof.
  revert prev pos. induction t as [|c t IH]; intros prev pos.
  - simpl. intros j. apply year_occurs_in_nil.
  - cbn [year_occurrences]. rewrite last_app.
    specialize (IH (Some c) (S pos)).
    destruct (last (year_occurrences (Some c) (S pos) t)) as [[p g]|].
    + destruct IH as (j & -> & Hj & -> & Hmax).
      exists (S j). rewrite year_occurs_in_shift.
      repeat split; [lia|exact Hj|].
      intros [|j'] Hj'; [lia|]. rewrite year_occurs_in_shift in Hj'.
      apply Hmax in Hj'. lia.
    + destruct (year_occurs_in prev (c :: t) 0) eqn:E0; cbn [last].
      * exists 0%nat. repeat split; [lia|exact E0|].
        intros [|j'] Hj'; [lia|]. rewrite year_occurs_in_shift, IH in Hj'.
        discriminate.
      * intros [|j]; [exact E0|]. rewrite year_occurs_in_shift. apply IH.
Qed.

(** What the scan for [_year_re] reports after a character that is not
    part of a match, by induction on the length of what is left. *)
Lemma finditer_year_rest n :
  forall t c pos, (length t <= n)%nat ->
    pos <> 0%nat \/ year_body (c :: t) = None ->
    List.map numeral_of_match (finditer match_year pos 0 (c :: t))
    = year_occurrences (Some c) (S pos) t.
Proof.
  induction n as [|n IH]; intros t c pos Hlen Hpos.
  - destruct t; [|simpl in Hlen; lia].
    cbn [finditer]. unfold match_year. cbn [year_body].
    destruct (Nat.eqb pos 0), (negb (is_digit c)); reflexivity.
  - assert (Halt : match_year (Nat.eqb pos 0) (c :: t)
                   = if negb (is_digit c)
                     then match year_body t with
                          | Some g => Some (g, 5%nat)
                          | None => None
                          end
                     else None).
    { unfold match_year.
      assert ((if Nat.eqb pos 0 then year_body (c :: t) else None) = None)
        as ->; [|reflexivity].
      destruct Hpos as [Hpos| ->]; [|now destruct (Nat.eqb pos 0)].
      apply Nat.eqb_neq in Hpos. now rewrite Hpos. }
    cbn [finditer]. rewrite Halt.
    destruct (is_digit c) eqn:Hc; cbn [negb].
    + (* a digit starts no match, and no occurrence follows it at once *)
      rewrite year_occurrences_digit by exact Hc.
      destruct t as [|c' t']; [reflexivity|].
      apply IH; [simpl in Hlen; lia|now left].
    + rewrite (year_body_test t).
      destruct (is_year_numeral (take 4 t) && not_digit (t !! 4%nat)) eqn:E.
      * (* a match: the numeral is the first four characters of [t] *)
        assert (Hocc : year_occurs_in (Some c) t 0 = true).
        { rewrite year_occurs_in_0. cbn [not_digit]. rewrite Hc.
          apply andb_true_iff in E as [-> ->]. reflexivity. }
        apply andb_true_iff in E as [Hnum Hnext].
        destruct t as [|d1 [|d2 [|d3 [|d4 r]]]]; try discriminate.
        unfold is_year_numeral in Hnum. cbn [firstn length forallb] in Hnum.
        apply andb_true_iff in Hnum as [Hnum _].
        apply andb_true_iff in Hnum as [Hnum _].
        apply andb_true_iff in Hnum as [_ Hds].
        apply andb_true_iff in Hds as [D1 Hds].
        apply andb_true_iff in Hds as [D2 Hds].
        apply andb_true_iff in Hds as [D3 Hds].
        apply andb_true_iff in Hds as [D4 _].
        cbn [List.map finditer Nat.sub]. unfold numeral_of_match at 1.
        cbn [fst snd]. cbn [year_occurrences]. rewrite Hocc.
        cbn [app take]. f_equal; [f_equal; lia|].
        rewrite !year_occurs_in_digit by assumption. cbn [app].
        rewrite year_occurrences_digit by assumption.
        destruct r as [|c' r']; [reflexivity|].
        apply IH; [simpl in Hlen; lia|now left].
      * assert (Hocc : match t with
                       | [] => True
                       | _ :: _ => year_occurs_in (Some c) t 0 = false
                       end).
        { destruct t; [exact I|]. rewrite year_occurs_in_0.
          rewrite <- andb_assoc, (andb_comm (not_digit (Some c))).
          rewrite andb_assoc, E. reflexivity. }
        destruct t as [|c' t']; [reflexivity|].
        cbn [year_occurrences]. rewrite Hocc. cbn [app].
        apply IH; [simpl in Hlen; lia|now left].
Qed.

Lemma finditer_year_all s :
  List.map numeral_of_match (finditer match_year 0 0 s)
  = year_occurrences None 0 s.
Proof.
  destruct s as [|c t]; [reflexivity|].
  destruct (year_body (c :: t)) as [g|] eqn:Hb.
  - rewrite year_body_test in Hb.
    destruct (is_year_numeral (take 4 (c :: t))
              && not_digit ((c :: t) !! 4%nat)) eqn:E; [|discriminate].
    injection Hb as <-.
    assert (Hocc : year_occurs_in None (c :: t) 0 = true).
    { rewrite year_occurs_in_0. cbn [not_digit].
      apply andb_true_iff in E as [-> ->]. reflexivity. }
    assert (Hm : match_year true (c :: t) = Some (take 4 (c :: t), 4%nat)).
    { unfold match_year. rewrite year_body_test, E. reflexivity. }
    apply andb_true_iff in E as [Hnum Hnext].
    destruct t as [|d2 [|d3 [|d4 r]]]; try discriminate.
    unfold is_year_numeral in Hnum. cbn [firstn length forallb] in Hnum.
    apply andb_true_iff in Hnum as [Hnum _].
    apply andb_true_iff in Hnum as [Hnum _].
    apply andb_true_iff in Hnum as [_ Hds].
    apply andb_true_iff in Hds as [D1 Hds].
    apply andb_true_iff in Hds as [D2 Hds].
    apply andb_true_iff in Hds as [D3 Hds].
    apply andb_true_iff in Hds as [D4 _].
    cbn [finditer Nat.eqb]. rewrite Hm.
    cbn [List.map finditer Nat.sub Nat.add]. unfold numeral_of_match at 1.
    cbn [fst snd Nat.sub]. cbn [year_occurrences]. rewrite Hocc.
    cbn [app firstn]. f_equal.
    rewrite !year_occurs_in_digit by assumption. cbn [app].
    rewrite year_occurrences_digit by assumption.
    destruct r as [|c' r']; [reflexivity|].
    apply (finditer_year_rest (length r')); [lia|now left].
  - rewrite (finditer_year_rest (length t)); [|lia|now right].
    cbn [year_occurrences]. rewrite year_occurs_in_0.
    rewrite year_body_test in Hb. cbn [not_digit]. rewrite andb_true_r.
    now destruct (is_year_numeral (take 4 (c :: t))
                  && not_digit ((c :: t) !! 4%nat)).
Qed.

Lemma last_map {A B : Type} (f : A -> B) (l : list A) :
  last (List.map f l) = option_map f (last l).
Proof.
  induction l as [|x [|y l] IH]; try reflexivity.
  change (last (f x :: List.map f (y :: l)) = option_map f (last (y :: l))).
  exact IH.
Qed.

Lemma year_found_occurrences rest :
  year_found rest
  = match last (year_occurrences None 0 rest) with
    | Some (_, g) => IFin (digits_value g)
    | None => IInf
    end.
Proof.
  unfold year_found. rewrite <- finditer_year_all, last_map.
  now destruct (last (finditer match_year 0 0 rest)) as [[[st en] g]|].
Qed.

(** C7.  The year of a sort key that [lc_sort_key] returns is the last
    occurrence, in the substring after the classification segment, of a
    4-digit numeral between 1000 and 2999 with no digit next to it on
    either side; it is infinity when there is no such occurrence. *)
Theorem year_is_last_occurrence (upper_full : N -> pystr) (raw : pystr)
    (k : SortKey) :
  lc_sort_key upper_full raw = Some k ->
  let rest := after_class (normalize upper_full raw) in
  match year k with
  | IFin y =>
      exists p, year_occurs_at rest p = true
                /\ y = digits_value (take 4 (drop p rest))
                /\ forall q, year_occurs_at rest q = true -> (q <= p)%nat
  | IInf => forall q, year_occurs_at rest q = false
  end.
Proof.
  intros Hret.
  destruct (lc_sort_key_eq upper_full raw)
    as (letters & num & k' & _ & Hk & _ & _ & _ & Hy).
  rewrite Hk in Hret.
  destruct (sortable upper_full raw); [|discriminate].
  injection Hret as ->.
  intros rest. rewrite Hy. fold rest.
  rewrite year_found_occurrences.
  pose proof (last_year_occurrences None 0 rest) as H.
  destruct (last (year_occurrences None 0 rest)) as [[p g]|].
  - destruct H as (j & -> & Hj & -> & Hmax). exists j.
    repeat split; [exact Hj|exact Hmax].
  - exact H.
Qed.

Lemma year_is_last_occurrence_witness :
  let rest := after_class (normalize keep_char (py "QA76 .C15 1987 2019")) in
  exists p, year_occurs_at rest p = true
            /\ 2019%Z = digits_value (take 4 (drop p rest))
            /\ forall q, year_occurs_at rest q = true -> (q <= p)%nat.
Proof.
  apply (year_is_last_occurrence keep_char (py "QA76 .C15 1987 2019")
           (mkSortKey (py "QA") (FFin (76 * 2 ^ 1074)) (py "C") (IFin 15)
              [] IInf [] IInf (IFin 2019))).
  vm_compute. reflexivity.
Defined.

Example year_of_key_examples :
  option_map year (lc_sort_key keep_char (py "QA76.73 .C153 1987 2019"))
  = Some (IFin 2019)
  /\ option_map year (lc_sort_key keep_char (py "QA76 .C153 20191"))
     = Some IInf
  /\ option_map year (lc_sort_key keep_char (py "QA1999"))
     = Some IInf
  /\ option_map year (lc_sort_key keep_char (py "1999 QA"))
     = Some (IFin 1999).
Proof. vm_compute. repeat split. Qed.

(** ** The cutters *)

Lemma finditer_skip {G : Type} (m : bool -> pystr -> option (G * nat))
    w r pos :
  finditer m pos (length w) (w ++ r) = finditer m (pos + length w) 0 r.
Proof.
  revert pos. induction w as [|c w IH]; intros pos.
  - simpl. now rewrite Nat.add_0_r.
  - cbn [length app finditer]. rewrite IH. f_equal. lia.
Qed.

Lemma match_cutter_spec t l ds len :
  match_cutter t = Some (l, ds, len) <->
  exists w r, starts_with_cutter t w l ds r /\ len = length w.
Proof.
  split.
  - unfold match_cutter.
    destruct (match t with
              | [] => ([], t)
              | c :: t' => if (c =? PERIOD)%N then ([c], t') else ([], t)
              end) as [dot r0] eqn:E0.
    assert (H0 : t = dot ++ r0 /\ (dot = [] \/ dot = [PERIOD])).
    { destruct t as [|c t']; [injection E0 as <- <-; auto|].
      destruct (c =? PERIOD)%N eqn:Hc; injection E0 as <- <-; auto.
      apply N.eqb_eq in Hc. subst c. auto. }
    destruct H0 as [-> Hdot].
    destruct (span isspace r0) as [w1 r1] eqn:E1.
    apply span_eq in E1 as (-> & Hw1 & _).
    destruct r1 as [|x r2]; [discriminate|].
    destruct (is_upper x) eqn:Hx; [|discriminate].
    destruct (span isspace r2) as [w2 r3] eqn:E2.
    apply span_eq in E2 as (-> & Hw2 & _).
    destruct (span is_digit r3) as [d r4] eqn:E3.
    apply span_eq in E3 as (-> & Hd & Hr4).
    destruct (is_empty d) eqn:Hde; [discriminate|].
    apply is_empty_false in Hde. intros [= <- <- <-].
    exists (dot ++ w1 ++ x :: w2 ++ d), r4. split.
    + split; [now rewrite <- !app_assoc, <- app_comm_cons, <- !app_assoc|].
      split; [now exists dot, w1, w2|].
      destruct r4; [reflexivity|]. simpl. now rewrite Hr4.
    + rewrite !length_app. cbn [length]. rewrite length_app. lia.
  - intros (w & r & (-> & (dot & w1 & w2 & -> & Hdot & Hw1 & Hl & Hw2
                           & Hne & Hds) & Hr) & ->).
    destruct ds as [|d0 ds']; [congruence|].
    assert (Hd0 : is_digit d0 = true)
      by (cbn [forallb] in Hds; now apply andb_true_iff in Hds as [? _]).
    unfold match_cutter.
    assert (E0 : match (dot ++ w1 ++ l :: w2 ++ d0 :: ds') ++ r with
                 | [] => ([], (dot ++ w1 ++ l :: w2 ++ d0 :: ds') ++ r)
                 | c :: t' =>
                     if (c =? PERIOD)%N then ([c], t')
                     else ([], (dot ++ w1 ++ l :: w2 ++ d0 :: ds') ++ r)
                 end = (dot, w1 ++ l :: (w2 ++ d0 :: (ds' ++ r)))).
    { destruct Hdot as [-> | ->].
      - cbn [app]. rewrite <- !app_assoc, <- app_comm_cons, <- !app_assoc.
        rewrite <- app_comm_cons.
        destruct w1 as [|c w1']; cbn [app].
        + assert ((l =? PERIOD)%N = false) as ->; [|reflexivity].
          apply N.eqb_neq. intros ->. discriminate.
        + assert ((c =? PERIOD)%N = false) as ->; [|reflexivity].
          apply N.eqb_neq. intros ->. discriminate.
      - cbn [app]. rewrite N.eqb_refl.
        now rewrite <- !app_assoc, <- app_comm_cons, <- !app_assoc. }
    rewrite E0.
    rewrite (span_app_stop isspace w1 l _ Hw1 (is_upper_not_space l Hl)).
    rewrite Hl.
    rewrite (span_app_stop isspace w2 d0 _ Hw2 (is_digit_not_space d0 Hd0)).
    assert (E3 : span is_digit (d0 :: ds' ++ r) = (d0 :: ds', r)).
    { change (d0 :: ds' ++ r) with ((d0 :: ds') ++ r).
      destruct r as [|c r'].
      - rewrite app_nil_r. now apply span_all.
      - apply span_app_stop; [exact Hds|]. simpl in Hr.
        now apply negb_true_iff in Hr. }
    rewrite E3. cbn [is_empty]. do 2 f_equal.
    rewrite !length_app. cbn [length]. rewrite length_app. cbn [length]. lia.
Qed.

Lemma match_cutter_none t : match_cutter t = None <-> no_cutter_at t.
Proof.
  split.
  - intros H w l ds r Hs.
    assert (match_cutter t = Some (l, ds, length w)) as E
      by (apply match_cutter_spec; eauto).
    congruence.
  - intros H. destruct (match_cutter t) as [[[l ds] len]|] eqn:E;
      [|reflexivity].
    apply match_cutter_spec in E as (w & r & Hs & _). now apply H in Hs.
Qed.

Lemma cutter_scan_cons c t cs :
  no_cutter_at (c :: t) -> cutter_scan t cs -> cutter_scan (c :: t) cs.
Proof.
  intros Hc Ht. destruct Ht as [s Hs|gap w l ds r cs Hgap Hw Hr].
  - apply scan_end. intros [|x pre] t' E.
    + simpl in E. now subst t'.
    + injection E as <- ->. eapply Hs. reflexivity.
  - change (c :: gap ++ w ++ r) with ((c :: gap) ++ w ++ r).
    apply scan_group; [|exact Hw|exact Hr].
    intros [|x pre] t' E Hne.
    + simpl in E. subst t'. exact Hc.
    + injection E as <- ->. eapply Hgap; [reflexivity|exact Hne].
Qed.

(** The scan of the script finds the cutter groups in their order of
    appearance. *)
Lemma finditer_cutter_scan n :
  forall s pos, (length s <= n)%nat ->
    cutter_scan s (List.map snd (finditer cutter_matcher pos 0 s)).
Proof.
  induction n as [|n IH]; intros s pos Hlen.
  - destruct s; [|simpl in Hlen; lia]. apply scan_end.
    intros pre t E. symmetry in E. apply app_eq_nil in E as [_ ->].
    apply match_cutter_none. reflexivity.
  - destruct s as [|c t].
    { apply scan_end. intros pre t E. symmetry in E.
      apply app_eq_nil in E as [_ ->]. apply match_cutter_none. reflexivity. }
    cbn [finditer]. unfold cutter_matcher at 1.
    destruct (match_cutter (c :: t)) as [[[l ds] len]|] eqn:E.
    + pose proof E as E'.
      apply match_cutter_spec in E' as (w & r & Hs & ->).
      pose proof Hs as (Ht & Hg & Hr).
      destruct w as [|c' w'].
      { exfalso. destruct Hg as (dot & w1 & w2 & Hw & _).
        symmetry in Hw. apply app_eq_nil in Hw as [_ Hw].
        apply app_eq_nil in Hw as [_ Hw]. discriminate. }
      injection Ht as <- ->. cbn [List.map snd length Nat.sub].
      rewrite Nat.sub_0_r, finditer_skip.
      apply (scan_group [] (c :: w') l ds r).
      * intros pre t E1 Hne. symmetry in E1.
        apply app_eq_nil in E1 as [_ ->]. congruence.
      * exact Hs.
      * apply IH. cbn [length] in Hlen. rewrite length_app in Hlen. lia.
    + apply cutter_scan_cons; [now apply match_cutter_none|].
      apply IH. simpl in Hlen. lia.
Qed.

Lemma cutter_scan_unique s cs :
  cutter_scan s cs -> forall cs', cutter_scan s cs' -> cs' = cs.
Proof.
  induction 1 as [s Hs|gap w l ds r cs Hgap Hw Hr IH]; intros cs' H'.
  - inversion H' as [|gap' w' l' ds' r' cs0 Hgap' Hw' Hr' E]; [reflexivity|].
    subst. exfalso. exact (Hs gap' (w' ++ r') eq_refl _ _ _ _ Hw').
  - inversion H' as [s0 Hs' E|gap' w' l' ds' r' cs0 Hgap' Hw' Hr' E].
    + subst. exfalso. exact (Hs' gap (w ++ r) eq_refl _ _ _ _ Hw).
    + assert (Hgg : gap' = gap).
      { apply List.app_eq_app in E as [t [[E1 E2]|[E1 E2]]].
        - destruct t as [|c t]; [now rewrite app_nil_r in E1|].
          exfalso. subst gap'.
          apply (Hgap' gap (c :: t) eq_refl ltac:(discriminate) w l ds r).
          now rewrite <- E2.
        - destruct t as [|c t]; [now rewrite app_nil_r in E1|].
          exfalso. subst gap.
          apply (Hgap gap' (c :: t) eq_refl ltac:(discriminate) w' l' ds' r').
          now rewrite <- E2. }
      subst gap'. apply app_inv_head in E.
      assert (E1 : match_cutter (w ++ r) = Some (l, ds, length w))
        by (apply match_cutter_spec; eauto).
      assert (E2 : match_cutter (w' ++ r') = Some (l', ds', length w'))
        by (apply match_cutter_spec; eauto).
      rewrite E, E1 in E2. injection E2 as <- <- Hlen.
      assert (Hwr : w' = w /\ r' = r).
      { apply app_inj_1 in E; [tauto|congruence]. }
      destruct Hwr as [-> ->]. f_equal. now apply IH.
Qed.

Lemma lookup_padded (cs : list (N * pystr)) i :
  (i < 3)%nat ->
  take 3 (List.map cutter_pair cs ++ replicate 3 missing_cutter) !! i
  = Some (slot_of (cs !! i)).
Proof.
  intros Hi. rewrite lookup_take_lt by exact Hi.
  destruct (cs !! i) as [g|] eqn:E.
  - rewrite lookup_app_l;
      [|rewrite length_map; now apply lookup_lt_Some in E].
    change (List.map cutter_pair cs) with (cutter_pair <$> cs).
    now rewrite list_lookup_fmap, E.
  - apply lookup_ge_None in E.
    rewrite lookup_app_r by (rewrite length_map; exact E).
    rewrite length_map. apply lookup_replicate. split; [reflexivity|lia].
Qed.

(** C8, as the script has it.  Every key has exactly three cutter slots.
    The cutter groups of the substring after the classification segment
    are an optional period, optional whitespace, a capital letter, optional
    whitespace (which the specification's wording leaves out) and one or
    more digits; taken in their order of appearance, the first three fill
    the slots in that order, later ones are dropped, and a slot without a
    group holds the missing pair. *)
Theorem cutter_slots_first_three (upper_full : N -> pystr) (raw : pystr)
    (k : SortKey) :
  lc_sort_key upper_full raw = Some k ->
  exists cs,
    cutter_scan (after_class (normalize upper_full raw)) cs
    /\ (forall cs', cutter_scan (after_class (normalize upper_full raw)) cs'
                    -> cs' = cs)
    /\ length (cutter_slots k) = 3%nat
    /\ cutter_slots k
       = take 3 (List.map cutter_pair cs ++ replicate 3 missing_cutter)
    /\ (cutter1_letter k, cutter1_num k) = slot_of (cs !! 0%nat)
    /\ (cutter2_letter k, cutter2_num k) = slot_of (cs !! 1%nat)
    /\ (cutter3_letter k, cutter3_num k) = slot_of (cs !! 2%nat).
Proof.
  intros Hret.
  destruct (lc_sort_key_eq upper_full raw)
    as (letters & num & k' & _ & Hk & _ & _ & Hc & _).
  rewrite Hk in Hret.
  destruct (sortable upper_full raw); [|discriminate].
  injection Hret as ->. clear Hk.
  set (rest := after_class (normalize upper_full raw)) in *.
  set (cs := List.map snd (finditer cutter_matcher 0 0 rest)).
  assert (Hscan : cutter_scan rest cs)
    by (apply (finditer_cutter_scan (length rest)); lia).
  assert (Hcs : cutters_found rest = List.map cutter_pair cs).
  { unfold cutters_found, cs. rewrite List.map_map. reflexivity. }
  rewrite Hcs in Hc.
  exists cs. split; [exact Hscan|].
  split; [now apply cutter_scan_unique|]. split; [reflexivity|].
  split; [exact Hc|].
  pose proof (lookup_padded cs 0 ltac:(lia)) as H0.
  pose proof (lookup_padded cs 1 ltac:(lia)) as H1.
  pose proof (lookup_padded cs 2 ltac:(lia)) as H2.
  rewrite <- Hc in H0, H1, H2. unfold cutter_slots in H0, H1, H2.
  cbn in H0, H1, H2. repeat split; congruence.
Qed.

Lemma cutter_slots_first_three_witness :
  exists cs,
    cs = [(67, py "153"); (83, py "65"); (84, py "7"); (85, py "8")]%N
    /\ cutter_slots
         (default all_missing
            (lc_sort_key keep_char (py "QA76.73 .C153 S65 T7 U8 2019")))
       = [(py "C", IFin 153); (py "S", IFin 65); (py "T", IFin 7)].
Proof.
  destruct (cutter_slots_first_three keep_char
              (py "QA76.73 .C153 S65 T7 U8 2019")
              (default all_missing
                 (lc_sort_key keep_char (py "QA76.73 .C153 S65 T7 U8 2019")))
              ltac:(vm_compute; reflexivity))
    as (cs & Hscan & Huniq & _ & Hslots & _).
  exists cs.
  assert (Hcs : cs = [(67, py "153"); (83, py "65"); (84, py "7");
                      (85, py "8")]%N).
  { symmetry. apply Huniq.
    replace (after_class (normalize keep_char
                            (py "QA76.73 .C153 S65 T7 U8 2019")))
      with (py ".C153 S65 T7 U8 2019") by (vm_compute; reflexivity).
    apply (finditer_cutter_scan 20 (py ".C153 S65 T7 U8 2019") 0).
    vm_compute. lia. }
  split; [exact Hcs|]. rewrite Hslots, Hcs. reflexivity.
Defined.

Lemma letter_then_digit_intro a l d b :
  is_upper l = true -> is_digit d = true ->
  letter_then_digit (a ++ l :: d :: b) = true.
Proof.
  intros Hl Hd. induction a as [|x a IH]; cbn [app letter_then_digit].
  - now rewrite Hl, Hd.
  - rewrite IH. apply orb_true_r.
Qed.

(** C8 as the specification words it fails where whitespace stands
    between the letter and the digits of a cutter.  After the
    classification segment of "QA76 C 15" the text is " C 15": no group of
    the worded form (period, spaces, letter, digits) occurs in it, and yet
    the first slot of the key holds the cutter C 15. *)
Lemma cutter_with_inner_space :
  exists k,
    lc_sort_key keep_char (py "QA76 C 15") = Some k
    /\ after_class (normalize keep_char (py "QA76 C 15")) = py " C 15"
    /\ cutter_slots k = [(py "C", IFin 15); missing_cutter; missing_cutter]
    /\ forall pre w r l ds,
         py " C 15" = pre ++ w ++ r -> ~ cutter_group_as_worded w l ds.
Proof.
  eexists. split; [vm_compute; reflexivity|].
  split; [vm_compute; reflexivity|]. split; [vm_compute; reflexivity|].
  intros pre w r l ds E (dot & w1 & -> & _ & _ & Hl & Hne & Hds).
  destruct ds as [|d ds']; [congruence|].
  cbn [forallb] in Hds. apply andb_true_iff in Hds as [Hd _].
  assert (H : letter_then_digit (py " C 15") = true).
  { rewrite E.
    replace (pre ++ (dot ++ w1 ++ l :: d :: ds') ++ r)
      with ((pre ++ dot ++ w1) ++ l :: d :: (ds' ++ r))
      by (repeat (rewrite <- app_assoc; cbn [app]); reflexivity).
    now apply letter_then_digit_intro. }
  vm_compute in H. discriminate.
Qed.

(** ** The model at work

    The floats of the model are the binary64 numbers Python prints for the
    same numerals ([float.hex] of 0.1 is 0x1.999999999999ap-4, of 76.73 it
    is 0x1.32eb851eb851fp+6), and a numeral of 401 digits overflows to
    infinity. *)
Example float_of_str_examples :
  float_of_str (py "0.1") = Some (FFin (0x1999999999999a * 2 ^ 1018))
  /\ float_of_str (py "76.73") = Some (FFin (0x132eb851eb851f * 2 ^ 1028))
  /\ float_of_str (py "1" ++ repeat 48%N 400) = Some FInf.
Proof. vm_compute. repeat split. Qed.

Example lc_sort_key_example :
  lc_sort_key keep_char (py "qa76.73 .c153 S65 2019")
  = Some (mkSortKey (py "QA") (FFin (0x132eb851eb851f * 2 ^ 1028))
            (py "C") (IFin 153) (py "S") (IFin 65) [] IInf (IFin 2019)).
Proof. vm_compute. reflexivity. Qed.

(** * Further properties of the code *)

(** ** Cleaning keeps what is not whitespace *)

Lemma non_space_chars_app a b :
  non_space_chars (a ++ b) = non_space_chars a ++ non_space_chars b.
Proof. apply List.filter_app. Qed.

Lemma non_space_chars_all_space w :
  forallb isspace w = true -> non_space_chars w = [].
Proof.
  induction w as [|c w IH]; simpl; [reflexivity|].
  intros [Hc Hw]%andb_true_iff. rewrite Hc. simpl. now apply IH.
Qed.

Lemma non_space_chars_drop_while s :
  non_space_chars (drop_while isspace s) = non_space_chars s.
Proof.
  destruct (drop_while_split isspace s) as (w & Hs & Hw).
  rewrite Hs at 2. rewrite non_space_chars_app.
  now rewrite (non_space_chars_all_space w Hw).
Qed.

Lemma non_space_chars_strip s : non_space_chars (strip s) = non_space_chars s.
Proof.
  unfold strip, rstrip, lstrip, non_space_chars.
  rewrite filter_rev. fold (non_space_chars (drop_while isspace
                                                (rev (drop_while isspace s)))).
  rewrite non_space_chars_drop_while. unfold non_space_chars.
  rewrite filter_rev, rev_involutive. apply non_space_chars_drop_while.
Qed.

Lemma non_space_chars_sub_ws_runs b s :
  non_space_chars (sub_ws_runs b s) = non_space_chars s.
Proof.
  revert b. induction s as [|c t IH]; intros b; [reflexivity|].
  cbn [sub_ws_runs]. unfold non_space_chars in *. cbn [List.filter].
  destruct (isspace c) eqn:Hc; cbn [negb].
  - destruct b; [apply IH|]. cbn [List.filter].
    change (isspace SPACE) with true. cbn [negb]. apply IH.
  - cbn [List.filter]. rewrite Hc. cbn [negb]. now rewrite IH.
Qed.

Lemma non_space_chars_sub_spaces s :
  non_space_chars (sub_spaces s) = non_space_chars s.
Proof.
  induction s as [|c t IH]; [reflexivity|].
  cbn [sub_spaces]. unfold non_space_chars in *. cbn [List.filter].
  destruct ((c =? SPACE)%N && negb (four_digits_then_end t)) eqn:E.
  - apply andb_true_iff in E as [Hc _]. apply N.eqb_eq in Hc. subst c.
    change (isspace SPACE) with true. cbn [negb]. exact IH.
  - cbn [List.filter]. now rewrite IH.
Qed.

(** X1.  Cleaning a call number touches whitespace only: the characters
    that are not whitespace are those of the input, in the same order. *)
Theorem clean_keeps_non_space (s : pystr) :
  non_space_chars (clean_call_number_keep_space_before_year (Some s))
  = non_space_chars s.
Proof.
  rewrite clean_unfold, non_space_chars_sub_spaces.
  now rewrite non_space_chars_sub_ws_runs, non_space_chars_strip.
Qed.

Lemma length_drop_while p s : (length (drop_while p s) <= length s)%nat.
Proof.
  destruct (drop_while_split p s) as (w & Hs & _). rewrite Hs at 2.
  rewrite length_app. lia.
Qed.

Lemma length_strip s : (length (strip s) <= length s)%nat.
Proof.
  unfold strip, rstrip, lstrip. rewrite length_rev.
  etransitivity; [apply length_drop_while|]. rewrite length_rev.
  apply length_drop_while.
Qed.

Lemma length_sub_ws_runs b s : (length (sub_ws_runs b s) <= length s)%nat.
Proof.
  revert b. induction s as [|c t IH]; intros b; simpl; [lia|].
  pose proof (IH true). pose proof (IH false).
  destruct (isspace c); [destruct b|]; simpl; lia.
Qed.

Lemma length_sub_spaces s : (length (sub_spaces s) <= length s)%nat.
Proof.
  induction s as [|c t IH]; simpl; [lia|].
  destruct (_ && _); simpl; lia.
Qed.

(** The two forms of a cleaned call number; none of them has whitespace
    at an end. *)
Lemma clean_form (s : pystr) :
  let t := clean_call_number_keep_space_before_year (Some s) in
  strip t = t
  /\ (no_whitespace t = true
      \/ exists u d, t = u ++ SPACE :: d /\ u <> [] /\ no_whitespace u = true
                     /\ length d = 4%nat /\ forallb isdecimal d = true).
Proof.
  intros t. subst t. rewrite clean_unfold.
  set (t := sub_ws_runs false (strip s)).
  assert (Hsp : forall c, In c t -> isspace c = true -> c = SPACE)
    by (intros c; apply sub_ws_runs_space).
  destruct (ends_with_space_year t) eqn:E.
  - apply ends_with_space_year_spec in E as (u & d & Ht & Hl & Hd).
    assert (Hu : no_whitespace (remove_spaces u) = true).
    { apply remove_spaces_no_whitespace. intros c Hc. apply Hsp.
      rewrite Ht. apply in_or_app. now left. }
    assert (Hne : remove_spaces u <> []).
    { destruct u as [|x u'].
      - exfalso. pose proof (sub_ws_runs_head (strip s) SPACE d
                               (strip_trimmed s) Ht). discriminate.
      - pose proof (sub_ws_runs_head (strip s) x (u' ++ SPACE :: d)
                      (strip_trimmed s) Ht) as Hx.
        simpl. destruct (x =? SPACE)%N eqn:Hxs; [|discriminate].
        apply N.eqb_eq in Hxs. subst x. discriminate. }
    rewrite Ht. rewrite sub_spaces_year by assumption.
    split; [|right; eauto 10].
    apply trimmed_strip. split.
    + intros c r Ec. destruct (remove_spaces u) as [|x u'] eqn:Eu;
        [congruence|]. simpl in Ec. injection Ec as <- _.
      simpl in Hu. apply andb_true_iff in Hu as [Hx _].
      now apply negb_true_iff.
    + intros r c Ec.
      destruct d as [|d1 [|d2 [|d3 [|d4 [|? ?]]]]]; try discriminate.
      change (remove_spaces u ++ SPACE :: [d1; d2; d3; d4])
        with (remove_spaces u ++ [SPACE; d1; d2; d3] ++ [d4]) in Ec.
      rewrite app_assoc in Ec. apply app_inj_tail in Ec as [_ <-].
      apply isdecimal_not_space. simpl in Hd.
      repeat (apply andb_true_iff in Hd as [? Hd]). assumption.
  - rewrite sub_spaces_noyear;
      try apply sub_ws_runs_no_newline; try exact E.
    assert (Hn : no_whitespace (remove_spaces t) = true)
      by now apply remove_spaces_no_whitespace.
    split; [|now left].
    apply trimmed_strip. unfold no_whitespace in Hn.
    rewrite forallb_forall in Hn.
    split; intros ? ? Ec; apply negb_true_iff, Hn; rewrite Ec.
    + now left.
    + apply in_or_app. right. now left.
Qed.

Lemma clean_stable (o : option pystr) :
  clean_call_number_keep_space_before_year
    (Some (clean_call_number_keep_space_before_year o))
  = clean_call_number_keep_space_before_year o.
Proof.
  destruct o as [s|]; [|reflexivity].
  destruct (clean_form s) as [_ [H|(u & d & -> & Hne & Hu & Hl & Hd)]].
  - now apply clean_fixed_nows.
  - now apply clean_fixed_year.
Qed.

Lemma clean_trimmed (o : option pystr) :
  strip (clean_call_number_keep_space_before_year o)
  = clean_call_number_keep_space_before_year o.
Proof. destruct o as [s|]; [apply clean_form|reflexivity]. Qed.

(** X2.  A cleaned call number has no whitespace at either end, so that
    trimming it again changes nothing, and it is either free of whitespace
    or a non-empty text free of whitespace followed by one space and four
    decimal digits; it is never longer than the input. *)
Theorem clean_shape (s : pystr) :
  let t := clean_call_number_keep_space_before_year (Some s) in
  strip t = t
  /\ (length t <= length s)%nat
  /\ (no_whitespace t = true
      \/ exists u d, t = u ++ SPACE :: d /\ u <> [] /\ no_whitespace u = true
                     /\ length d = 4%nat /\ forallb isdecimal d = true).
Proof.
  destruct (clean_form s) as [Hs Hc]. cbv zeta. split; [exact Hs|].
  split; [|exact Hc]. rewrite clean_unfold.
  etransitivity; [apply length_sub_spaces|].
  etransitivity; [apply length_sub_ws_runs|]. apply length_strip.
Qed.

(** ** When the availability string is split *)

Lemma split_on_has_newline r :
  existsb has_newline (split_on SEMICOLON r) = has_newline r.
Proof.
  induction r as [|x t IH]; [reflexivity|].
  cbn [split_on]. unfold has_newline at 2. cbn [existsb].
  fold (has_newline t). destruct (x =? SEMICOLON)%N eqn:Hx.
  - apply N.eqb_eq in Hx. subst x. cbn [existsb]. rewrite IH. reflexivity.
  - rewrite <- IH. destruct (split_on SEMICOLON t) as [|seg segs];
      cbn [existsb]; unfold has_newline at 1; cbn [existsb];
      [now rewrite !orb_false_r|].
    fold (has_newline seg). now rewrite orb_assoc.
Qed.

Lemma forallb_negb_existsb {A : Type} (f : A -> bool) l :
  forallb (fun x => negb (f x)) l = negb (existsb f l).
Proof.
  induction l as [|x l IH]; [reflexivity|]. simpl. rewrite IH.
  now destruct (f x).
Qed.

Lemma span_newline_stop r x r4 :
  span (other_than NEWLINE) r = (x, r4) ->
  has_newline r = negb (is_empty r4)
  /\ match r4 with c :: _ => c = NEWLINE | [] => True end.
Proof.
  intros E. apply span_eq in E as (-> & Hx & Hr4).
  unfold has_newline. rewrite existsb_app.
  assert (existsb (N.eqb NEWLINE) x = false) as ->.
  { apply not_true_is_false. intros (c & Hc & Ec)%existsb_exists.
    apply N.eqb_eq in Ec. subst c. rewrite forallb_forall in Hx.
    specialize (Hx _ Hc). discriminate. }
  destruct r4 as [|c r']; [now split|]. unfold other_than in Hr4.
  apply negb_false_iff, N.eqb_eq in Hr4. subst c. now split.
Qed.

(** X3.  [extract_from_physical_availability] splits exactly when the
    trimmed text holds at least three semicolons and no newline after the
    third; it then returns the trimmed first and third segments.  In every
    other case it returns the whole trimmed text and an empty fragment. *)
Theorem extract_from_physical_availability_exact (text : pystr) :
  extract_from_physical_availability (Some text)
  = let s := strip text in
    if availability_splits s
    then (strip (nth 0 (split_on SEMICOLON s) []),
          strip (nth 2 (split_on SEMICOLON s) []))
    else (s, []).
Proof.
  assert (E : extract_from_physical_availability (Some text)
              = match match_availability (strip text) with
                | Some (g1, g2) => (strip g1, strip g2)
                | None => (strip text, [])
                end) by (destruct text; reflexivity).
  rewrite E. clear E. cbv zeta. pose proof (strip_trimmed text) as Htr.
  set (s := strip text) in *. clearbody s.
  unfold match_availability, availability_splits.
  destruct (span (other_than SEMICOLON) s) as [g1 r1] eqn:E1.
  pose proof (span_semicolon _ _ _ E1) as H1.
  pose proof (span_eq _ _ _ _ E1) as (Hs1 & _ & _).
  destruct r1 as [|c1 r1]; [destruct H1 as [_ ->]; reflexivity|].
  destruct H1 as [S1 C1].
  destruct (span (other_than SEMICOLON) r1) as [g r2] eqn:E2.
  pose proof (span_semicolon _ _ _ E2) as H2.
  pose proof (span_eq _ _ _ _ E2) as (Hs2 & _ & _).
  destruct r2 as [|c2 r2];
    [destruct H2 as [_ H2]; rewrite C1, H2; reflexivity|].
  destruct H2 as [S2 C2].
  destruct (span (other_than SEMICOLON) r2) as [g2 r3] eqn:E3.
  pose proof (span_semicolon _ _ _ E3) as H3.
  pose proof (span_eq _ _ _ _ E3) as (Hs3 & _ & _).
  destruct r3 as [|c3 r3];
    [destruct H3 as [_ H3]; rewrite C1, C2, H3; reflexivity|].
  destruct H3 as [S3 C3].
  rewrite C1, C2, C3, S1, S2, S3. cbn [Nat.leb andb nth drop skipn].
  rewrite drop_0, forallb_negb_existsb, split_on_has_newline.
  destruct (span (other_than NEWLINE) r3) as [x r4] eqn:E4.
  destruct (span_newline_stop _ _ _ E4) as [-> Hc].
  apply span_eq in E4 as (Hs4 & _ & _).
  destruct r4 as [|c [|c' r4']]; try reflexivity.
  exfalso. subst c. destruct Htr as [_ Hlast].
  assert (Hn : isspace NEWLINE = false); [|discriminate].
  apply (Hlast (g1 ++ c1 :: g ++ c2 :: g2 ++ c3 :: x) NEWLINE).
  rewrite Hs1, Hs2, Hs3, Hs4.
  repeat (rewrite <- app_assoc; cbn [app]). reflexivity.
Qed.

Lemma strip_incl s c : In c (strip s) -> In c s.
Proof.
  intros H. unfold strip in H.
  destruct (rstrip_split (lstrip s)) as (w & Hs & _).
  destruct (drop_while_split isspace s) as (w' & Hs' & _).
  rewrite Hs'. apply in_or_app. right. fold (lstrip s). rewrite Hs.
  apply in_or_app. now left.
Qed.

Lemma trimmed_nil : trimmed [].
Proof. split; intros ? ? E; [discriminate|]. now destruct r. Qed.

(** X4.  Whatever the text, both results of
    [extract_from_physical_availability] are trimmed, the call-number
    fragment holds no semicolon, and when the fragment is not empty the
    location holds none either. *)
Theorem extract_from_physical_availability_parts (text : option pystr) :
  let '(location, cn_from_pa) := extract_from_physical_availability text in
  trimmed location /\ trimmed cn_from_pa
  /\ ~ In SEMICOLON cn_from_pa
  /\ (cn_from_pa <> [] -> ~ In SEMICOLON location).
Proof.
  destruct text as [text|];
    [|repeat split; try apply trimmed_nil; try congruence; intros []].
  assert (E : extract_from_physical_availability (Some text)
              = match match_availability (strip text) with
                | Some (g1, g2) => (strip g1, strip g2)
                | None => (strip text, [])
                end) by (destruct text; reflexivity).
  rewrite E. clear E.
  destruct (match_availability (strip text)) as [[g1 g2]|] eqn:Em.
  - assert (Hg : forallb (other_than SEMICOLON) g1 = true
                 /\ forallb (other_than SEMICOLON) g2 = true).
    { revert Em. unfold match_availability.
      destruct (span (other_than SEMICOLON) (strip text)) as [a r1] eqn:E1.
      apply span_eq in E1 as (_ & Ha & _).
      destruct r1 as [|c1 r1]; [discriminate|].
      destruct (span (other_than SEMICOLON) r1) as [b r2].
      destruct r2 as [|c2 r2]; [discriminate|].
      destruct (span (other_than SEMICOLON) r2) as [c r3] eqn:E3.
      apply span_eq in E3 as (_ & Hc & _).
      destruct r3 as [|c3 r3]; [discriminate|].
      destruct (span (other_than NEWLINE) r3) as [x r4].
      destruct (at_dollar r4); [|discriminate]. now intros [= <- <-]. }
    destruct Hg as [H1 H2].
    assert (Hno : forall g, forallb (other_than SEMICOLON) g = true ->
                            ~ In SEMICOLON (strip g)).
    { intros g Hg Hin. apply strip_incl in Hin.
      rewrite forallb_forall in Hg. specialize (Hg _ Hin). discriminate. }
    repeat split; try apply strip_trimmed; auto.
  - repeat split; try apply strip_trimmed; try apply trimmed_nil;
      try congruence. intros [].
Qed.

(** ** What the sort key does not depend on *)

Lemma strip_idempotent s : strip (strip s) = strip s.
Proof. apply trimmed_strip, strip_trimmed. Qed.

Lemma lc_sort_key_normalized upper_full raw :
  lc_sort_key upper_full raw
  = key_of_normalized (normalize upper_full raw).
Proof. destruct raw; reflexivity. Qed.

(** X5.  Whitespace around a call number does not change its key. *)
Theorem lc_sort_key_strip (upper_full : N -> pystr) (raw : pystr) :
  lc_sort_key upper_full (strip raw) = lc_sort_key upper_full raw.
Proof.
  rewrite !lc_sort_key_normalized. unfold normalize.
  now rewrite strip_idempotent.
Qed.

Lemma upper_ascii upper_full s :
  is_ascii s = true -> upper upper_full s = List.map ascii_upper s.
Proof.
  induction s as [|c s IH]; [reflexivity|]. unfold is_ascii. cbn [forallb].
  intros [Hc Hs]%andb_true_iff. unfold upper in *. cbn [flat_map List.map].
  rewrite (IH Hs). unfold upper_char, ascii_upper. rewrite Hc.
  now destruct ((97 <=? c) && (c <=? 122))%N.
Qed.

Lemma ascii_upper_isspace c : isspace (ascii_upper c) = isspace c.
Proof.
  unfold ascii_upper.
  destruct ((97 <=? c) && (c <=? 122))%N eqn:E; [|reflexivity].
  apply andb_true_iff in E as [H1 H2]. apply N.leb_le in H1, H2.
  transitivity false; [|symmetry]; unfold isspace;
    repeat (apply orb_false_iff; split);
    rewrite ?andb_false_iff, ?N.leb_gt, ?N.eqb_neq; lia.
Qed.

Lemma ascii_upper_idempotent c : ascii_upper (ascii_upper c) = ascii_upper c.
Proof.
  unfold ascii_upper.
  destruct ((97 <=? c) && (c <=? 122))%N eqn:E; [|now rewrite E].
  apply andb_true_iff in E as [H1 H2]. apply N.leb_le in H1, H2.
  assert (((97 <=? c - 32) && (c - 32 <=? 122))%N = false) as ->;
    [|reflexivity].
  apply andb_false_iff. left. apply N.leb_gt. lia.
Qed.

Lemma ascii_upper_ascii s :
  is_ascii s = true -> is_ascii (List.map ascii_upper s) = true.
Proof.
  unfold is_ascii. rewrite !forallb_forall. intros H c (x & <- & Hx)%in_map_iff.
  specialize (H x Hx). apply N.ltb_lt in H. apply N.ltb_lt.
  unfold ascii_upper. destruct (_ && _); lia.
Qed.

Lemma drop_while_map_upper s :
  drop_while isspace (List.map ascii_upper s)
  = List.map ascii_upper (drop_while isspace s).
Proof.
  unfold drop_while. induction s as [|c s IH]; [reflexivity|].
  cbn [List.map span]. rewrite ascii_upper_isspace.
  destruct (isspace c); [|reflexivity].
  destruct (span isspace (List.map ascii_upper s)) as [a b].
  destruct (span isspace s) as [a' b']. exact IH.
Qed.

Lemma strip_map_upper s :
  strip (List.map ascii_upper s) = List.map ascii_upper (strip s).
Proof.
  unfold strip, rstrip, lstrip.
  rewrite drop_while_map_upper, <- List.map_rev, drop_while_map_upper.
  now rewrite List.map_rev.
Qed.

Lemma is_ascii_strip s : is_ascii s = true -> is_ascii (strip s) = true.
Proof.
  unfold is_ascii. rewrite !forallb_forall. intros H c Hc.
  apply H. now apply strip_incl.
Qed.

(** X6.  The key of an ASCII call number does not depend on the case of
    its letters: the text in capitals has the same key. *)
Theorem lc_sort_key_ascii_case (upper_full : N -> pystr) (raw : pystr) :
  is_ascii raw = true ->
  lc_sort_key upper_full (upper upper_full raw) = lc_sort_key upper_full raw.
Proof.
  intros Hraw. rewrite !lc_sort_key_normalized. unfold normalize.
  assert (E : upper upper_full (strip (upper upper_full raw))
              = upper upper_full (strip raw)); [|now rewrite E].
  rewrite (upper_ascii _ raw Hraw), strip_map_upper.
  rewrite (upper_ascii _ (strip raw)) by now apply is_ascii_strip.
  rewrite upper_ascii by now apply ascii_upper_ascii, is_ascii_strip.
  rewrite List.map_map. apply List.map_ext. intros c.
  apply ascii_upper_idempotent.
Qed.

Lemma lc_sort_key_ascii_case_witness :
  lc_sort_key keep_char (upper keep_char (py "qa76.73 .c153 2019"))
  = lc_sort_key keep_char (py "qa76.73 .c153 2019").
Proof.
  apply (lc_sort_key_ascii_case keep_char (py "qa76.73 .c153 2019")).
  reflexivity.
Defined.

(** ** The classification segment *)

Lemma drop_prefix (s a b : pystr) (n : nat) :
  s = a ++ b -> n = length a -> drop n s = b.
Proof. intros -> ->. apply drop_app_length. Qed.

(** X7.  When the classification pattern matches, the text is whitespace,
    the one to three capital letters of group 1, whitespace, the numeral of
    group 2 when there is one, and a rest; [m.end()] is the length of what
    stands before the rest, and the rest does not start with a digit, so
    the digits of the class number are never shared with what is scanned
    for cutters and years. *)
Theorem match_class_segments (s letters : pystr) (g2 : option pystr)
    (e : nat) :
  match_class s = Some (letters, g2, e) ->
  exists w1 w2 rest,
    s = w1 ++ letters ++ w2 ++ default [] g2 ++ rest
    /\ forallb isspace w1 = true /\ forallb isspace w2 = true
    /\ (1 <= length letters <= 3)%nat /\ forallb is_upper letters = true
    /\ e = (length w1 + length letters + length w2
            + length (default [] g2))%nat
    /\ drop e s = rest
    /\ not_digit (head rest) = true.
Proof.
  intros Hm. pose proof (match_class_letters _ _ _ _ Hm) as [Hlen Hup].
  revert Hm. unfold match_class.
  destruct (span isspace s) as [w1 r1] eqn:E1.
  apply span_eq in E1 as (-> & Hw1 & _).
  destruct (span_max 3 is_upper r1) as [ls r2] eqn:E2.
  apply span_max_spec in E2 as (-> & _ & _).
  destruct (is_empty ls); [discriminate|].
  destruct (span isspace r2) as [w2 r3] eqn:E3.
  apply span_eq in E3 as (-> & Hw2 & _).
  destruct (span is_digit r3) as [ip r4] eqn:E4.
  apply span_eq in E4 as (-> & Hip & Hr4).
  destruct (is_empty ip) eqn:Hie.
  - intros [= <- <- <-]. destruct ip; [|discriminate].
    exists w1, w2, r4. unfold default, from_option. cbn [app length].
    repeat split; try assumption; try lia.
    + apply (drop_prefix _ (w1 ++ ls ++ w2)).
      * now rewrite <- !app_assoc.
      * rewrite !length_app. lia.
    + destruct r4; [reflexivity|]. simpl. now rewrite Hr4.
  - destruct r4 as [|c r5].
    { intros [= <- <- <-].
      exists w1, w2, []. unfold default, from_option, id.
      rewrite !app_nil_r. cbn [length].
      repeat split; try assumption; try lia.
      apply (drop_prefix _ (w1 ++ ls ++ w2 ++ ip)).
      - now rewrite app_nil_r.
      - rewrite !length_app. lia. }
    destruct (c =? PERIOD)%N eqn:Hc.
    + apply N.eqb_eq in Hc. subst c.
      destruct (span is_digit r5) as [fp r6] eqn:E5.
      apply span_eq in E5 as (-> & Hfp & Hr6).
      destruct (is_empty fp) eqn:Hfe; intros [= <- <- <-].
      * destruct fp; [|discriminate]. exists w1, w2, (PERIOD :: r6).
        unfold default, from_option, id. rewrite app_nil_r. cbn [app length].
        repeat split; try assumption; try lia.
        apply (drop_prefix _ (w1 ++ ls ++ w2 ++ ip)).
        -- now rewrite <- !app_assoc.
        -- rewrite !length_app. lia.
      * exists w1, w2, r6. unfold default, from_option, id.
        repeat split; try assumption; try apply Hlen.
        -- repeat (rewrite <- app_assoc; cbn [app]). reflexivity.
        -- rewrite !length_app. cbn [length]. lia.
        -- apply (drop_prefix _ (w1 ++ ls ++ w2 ++ ip ++ PERIOD :: fp)).
           ++ repeat (rewrite <- app_assoc; cbn [app]). reflexivity.
           ++ rewrite !length_app. cbn [length]. lia.
        -- destruct r6; [reflexivity|]. simpl. now rewrite Hr6.
    + intros [= <- <- <-]. exists w1, w2, (c :: r5).
      unfold default, from_option, id. rewrite app_nil_r. cbn [length].
      repeat split; try assumption; try lia.
      * apply (drop_prefix _ (w1 ++ ls ++ w2 ++ ip)).
        -- now rewrite <- !app_assoc.
        -- rewrite !length_app. lia.
      * simpl. now rewrite Hr4.
Qed.

Lemma match_class_segments_witness :
  exists w1 w2 rest,
    py " QA 76.73.C153" = w1 ++ py "QA" ++ w2 ++ py "76.73" ++ rest
    /\ drop 9 (py " QA 76.73.C153") = rest
    /\ not_digit (head rest) = true.
Proof.
  destruct (match_class_segments (py " QA 76.73.C153") (py "QA")
              (Some (py "76.73")) 9 eq_refl)
    as (w1 & w2 & rest & H1 & _ & _ & _ & _ & _ & H2 & H3).
  now exists w1, w2, rest.
Defined.

(** ** Class numbers compare by value *)

(** [float()] is exact on an integer below [2^53]. *)
Lemma binary64_of_integer (p : Z) :
  (0 <= p < 2 ^ 53)%Z -> binary64_of_ratio p 1 = FFin (p * 2 ^ 1074).
Proof.
  intros Hp. unfold binary64_of_ratio.
  rewrite Z.div_1_r, Z.mul_1_l.
  set (x := (p * 2 ^ 1074)%Z).
  set (j := Z.max 0 (Z.log2 x + 1 - 53)%Z).
  assert (Hj : (0 <= j <= 1074)%Z).
  { unfold j. destruct (Z.eq_dec p 0%Z) as [Hz|Hne].
    - unfold x. rewrite Hz, Z.mul_0_l. simpl. lia.
    - unfold x. rewrite Z.log2_mul_pow2 by lia.
      assert (Z.log2 p < 53)%Z by (apply Z.log2_lt_pow2; lia). lia. }
  assert (Hx : x = (p * 2 ^ (1074 - j) * 2 ^ j)%Z).
  { unfold x. rewrite <- Z.mul_assoc, <- Z.pow_add_r by lia.
    do 2 f_equal. lia. }
  assert (Hpos : (0 < 2 ^ j)%Z) by (apply Z.pow_pos_nonneg; lia).
  assert (Hr : round_half_even x (2 ^ j) = (p * 2 ^ (1074 - j))%Z).
  { unfold round_half_even. rewrite Hx.
    rewrite Z.div_mul, Z.mod_mul by lia.
    destruct (2 * 0 <? 2 ^ j)%Z eqn:E; [reflexivity|].
    apply Z.ltb_ge in E. lia. }
  rewrite Hr, <- Hx.
  destruct (2 ^ 2098 <=? x)%Z eqn:E; [|reflexivity].
  apply Z.leb_le in E. exfalso.
  assert (x < 2 ^ 53 * 2 ^ 1074)%Z
    by (unfold x; apply Z.mul_lt_mono_pos_r; [apply Z.pow_pos_nonneg|]; lia).
  assert (2 ^ 53 * 2 ^ 1074 <= 2 ^ 2098)%Z.
  { rewrite <- Z.pow_add_r by lia. apply Z.pow_le_mono_r; lia. }
  lia.
Qed.

Lemma float_of_str_integer (d : pystr) :
  d <> [] -> forallb is_digit d = true -> (digits_value d < 2 ^ 53)%Z ->
  float_of_str d = Some (FFin (digits_value d * 2 ^ 1074)).
Proof.
  intros Hne Hd Hv. unfold float_of_str. rewrite (span_all _ _ Hd).
  destruct d; [congruence|]. f_equal. apply binary64_of_integer.
  split; [now apply digits_value_nonneg|exact Hv].
Qed.

Lemma match_class_numeral_nonempty s letters d e :
  match_class s = Some (letters, Some d, e) -> d <> [].
Proof.
  unfold match_class.
  destruct (span isspace s) as [w1 r1].
  destruct (span_max 3 is_upper r1) as [ls r2].
  destruct (is_empty ls); [discriminate|].
  destruct (span isspace r2) as [w2 r3].
  destruct (span is_digit r3) as [ip r4].
  destruct (is_empty ip) eqn:Hip; [discriminate|].
  intros [= _ <- _]. destruct ip; [discriminate|]. discriminate.
Qed.

Section KeyFacts.
Variable upper_full : N -> pystr.

Lemma lc_sort_key_class raw k letters g2 e :
  lc_sort_key upper_full raw = Some k ->
  match_class (normalize upper_full raw) = Some (letters, g2, e) ->
  class_letters k = letters
  /\ match g2 with
     | Some d => float_of_str d = Some (class_number k)
     | None => class_number k = FInf
     end.
Proof.
  intros Hk Hm.
  destruct (lc_sort_key_eq upper_full raw)
    as (ls & num & k' & Hp & Hk' & Hl & Hn & _).
  rewrite Hk in Hk'.
  destruct (sortable upper_full raw); [|discriminate].
  injection Hk' as <-.
  cbv zeta in Hp. unfold _parse_class_and_number in Hp. rewrite Hm in Hp.
  destruct (match_class_letters _ _ _ _ Hm) as [Hlen _].
  assert (Hne : is_empty letters = false)
    by (destruct letters; [simpl in Hlen; lia|reflexivity]).
  destruct g2 as [d|].
  - destruct (float_of_str d) as [x|]; [|discriminate].
    simpl in Hp. injection Hp as <- <- _.
    rewrite Hne in Hl. now rewrite Hl, Hn.
  - injection Hp as <- <- _. rewrite Hne in Hl. now rewrite Hl, Hn.
Qed.

(** X8.  Class numbers are compared by value, not as text: of two call
    numbers with the same class letters and whole class numbers below
    [2^53] (where [float] is exact), the one with the smaller class number
    has the smaller key, whatever follows the classification segment. *)
Theorem class_numbers_by_value (raw1 raw2 : pystr) (k1 k2 : SortKey)
    (letters d1 d2 : pystr) (e1 e2 : nat) :
  lc_sort_key upper_full raw1 = Some k1 ->
  lc_sort_key upper_full raw2 = Some k2 ->
  match_class (normalize upper_full raw1) = Some (letters, Some d1, e1) ->
  match_class (normalize upper_full raw2) = Some (letters, Some d2, e2) ->
  forallb is_digit d1 = true -> forallb is_digit d2 = true ->
  (digits_value d1 < digits_value d2 < 2 ^ 53)%Z ->
  key_ltb k1 k2 = true /\ key_ltb k2 k1 = false.
Proof.
  intros Hk1 Hk2 Hm1 Hm2 Hd1 Hd2 Hv.
  destruct (lc_sort_key_class _ _ _ _ _ Hk1 Hm1) as [Hl1 Hn1].
  destruct (lc_sort_key_class _ _ _ _ _ Hk2 Hm2) as [Hl2 Hn2].
  rewrite float_of_str_integer in Hn1, Hn2;
    try assumption; try lia;
    try (eapply match_class_numeral_nonempty; eassumption).
  injection Hn1 as Hn1. injection Hn2 as Hn2.
  assert (Hpow : (0 < 2 ^ 1074)%Z) by (apply Z.pow_pos_nonneg; lia).
  unfold key_ltb.
  rewrite !(lex_eq str_eqb str_ltb (class_letters _) (class_letters _))
    by (try exact str_order; congruence).
  rewrite <- Hn1, <- Hn2. unfold lex. cbn [xfloat_eqb xfloat_ltb].
  revert Hpow. generalize (2 ^ 1074)%Z. intros P HP.
  assert (E1 : (digits_value d1 * P =? digits_value d2 * P)%Z = false)
    by (apply Z.eqb_neq; nia).
  assert (E2 : (digits_value d2 * P =? digits_value d1 * P)%Z = false)
    by (apply Z.eqb_neq; nia).
  rewrite E1, E2. split; [apply Z.ltb_lt|apply Z.ltb_ge]; nia.
Qed.

(** X9.  A call number whose class letters were found, and are not "ZZZ",
    sorts strictly before every empty or unparseable call number, whose key
    is the all-missing one: rows without a usable call number are ranked
    after them. *)
Theorem classified_before_missing (raw : pystr) (k : SortKey) :
  lc_sort_key upper_full raw = Some k ->
  class_letters k <> py "ZZZ" ->
  key_ltb k all_missing = true /\ key_ltb all_missing k = false.
Proof.
  intros Hk Hz.
  destruct (lc_sort_key_eq upper_full raw)
    as (ls & num & k' & Hp & Hk' & Hl & _).
  rewrite Hk in Hk'.
  destruct (sortable upper_full raw); [|discriminate].
  injection Hk' as <-.
  destruct (parse_class_well_formed _ _ _ _ Hp) as (Hlen & Hup & _).
  cbv zeta in Hlen, Hup. rewrite <- Hl in Hlen, Hup.
  destruct (letters_below_sentinel _ Hlen Hup) as [H1 H2].
  specialize (H2 Hz).
  assert (E1 : str_eqb (class_letters k) (py "ZZZ") = false)
    by (apply not_true_is_false; rewrite str_eqb_eq; exact Hz).
  assert (E2 : str_eqb (py "ZZZ") (class_letters k) = false)
    by (apply not_true_is_false; rewrite str_eqb_eq; congruence).
  unfold key_ltb, lex. change (class_letters all_missing) with (py "ZZZ").
  now rewrite E1, E2.
Qed.

End KeyFacts.

Lemma class_numbers_by_value_witness :
  key_ltb
    (mkSortKey (py "QA") (FFin (9 * 2 ^ 1074)) (py "Z") (IFin 99)
       [] IInf [] IInf (IFin 2020))
    (mkSortKey (py "QA") (FFin (76 * 2 ^ 1074)) (py "A") (IFin 1)
       [] IInf [] IInf (IFin 1990)) = true.
Proof.
  refine (proj1 (class_numbers_by_value keep_char (py "qa9 .Z99 2020")
                   (py "QA76.A1 1990") _ _ (py "QA") (py "9") (py "76")
                   3 4 _ _ _ _ _ _ _)).
  - vm_compute. reflexivity.
  - vm_compute. reflexivity.
  - reflexivity.
  - reflexivity.
  - reflexivity.
  - reflexivity.
  - vm_compute. split; reflexivity.
Defined.

Lemma classified_before_missing_witness :
  key_ltb (mkSortKey (py "Z") (FFin (699 * 2 ^ 1074)) (py "B") (IFin 5)
             [] IInf [] IInf IInf) all_missing = true.
Proof.
  refine (proj1 (classified_before_missing keep_char (py "Z699 .B5") _ _ _)).
  - vm_compute. reflexivity.
  - discriminate.
Defined.

(** ** The location is final *)

Lemma extract_unfold (text : pystr) :
  extract_from_physical_availability (Some text)
  = match match_availability (strip text) with
    | Some (g1, g2) => (strip g1, strip g2)
    | None => (strip text, [])
    end.
Proof. destruct text; reflexivity. Qed.

Lemma match_availability_group1 s g1 g2 :
  match_availability s = Some (g1, g2) -> ~ In SEMICOLON g1.
Proof.
  unfold match_availability.
  destruct (span (other_than SEMICOLON) s) as [a r1] eqn:E1.
  apply span_eq in E1 as (_ & Ha & _).
  destruct r1 as [|c1 r1]; [discriminate|].
  destruct (span (other_than SEMICOLON) r1) as [g r2].
  destruct r2 as [|c2 r2]; [discriminate|].
  destruct (span (other_than SEMICOLON) r2) as [b r3].
  destruct r3 as [|c3 r3]; [discriminate|].
  destruct (span (other_than NEWLINE) r3) as [x r4].
  destruct (at_dollar r4); [|discriminate].
  intros [= <- _] Hin. rewrite forallb_forall in Ha.
  specialize (Ha _ Hin). discriminate.
Qed.

Lemma match_availability_no_semicolon s :
  ~ In SEMICOLON s -> match_availability s = None.
Proof.
  intros H. unfold match_availability.
  rewrite (span_all (other_than SEMICOLON) s); [reflexivity|].
  apply forallb_forall. intros c Hc. unfold other_than.
  apply negb_true_iff, N.eqb_neq. now intros ->.
Qed.

Lemma extract_location_fixed (text : option pystr) :
  extract_from_physical_availability
    (Some (fst (extract_from_physical_availability text)))
  = (fst (extract_from_physical_availability text), []).
Proof.
  destruct text as [text|]; [|reflexivity].
  rewrite (extract_unfold text).
  destruct (match_availability (strip text)) as [[g1 g2]|] eqn:E;
    cbn [fst]; rewrite extract_unfold, strip_idempotent.
  - rewrite match_availability_no_semicolon; [reflexivity|].
    intros Hin. apply strip_incl in Hin.
    exact (match_availability_group1 _ _ _ E Hin).
  - now rewrite E.
Qed.

(** X10.  The location that [extract_from_physical_availability] returns
    is final: the function applied to it returns it unchanged, with an
    empty call-number fragment.  A Physical Availability cell that the
    script has rewritten never yields a call number again. *)
Theorem extract_location_final (text : option pystr) :
  let location := fst (extract_from_physical_availability text) in
  extract_from_physical_availability (Some location) = (location, [])
  /\ strip location = location.
Proof.
  cbv zeta. split; [apply extract_location_fixed|].
  destruct text as [text|]; [|reflexivity].
  rewrite extract_unfold.
  destruct (match_availability (strip text)) as [[g1 g2]|];
    apply strip_idempotent.
Qed.

(** ** When the ranking pass fails, and which ranks it gives *)

Lemma not_cleanable (row : Row) :
  ~ cleanable row <-> row !! py "LC Call Number" = Some None.
Proof.
  unfold cleanable.
  destruct (row !! py "LC Call Number") as [[v|]|]; split; intros H;
    try congruence; try (exfalso; apply H; congruence).
Qed.

Lemma cleaning_row_None (sub_and_others : pystr -> pystr) (row : Row) :
  cleaning_row sub_and_others row = None
  <-> row !! py "LC Call Number" = Some None.
Proof.
  unfold cleaning_row.
  destruct (extract_from_physical_availability _) as [location cn_from_pa].
  destruct field_names_distinct as (N1 & N2 & N3).
  rewrite !(get_insert_ne _ _ _ (py "LC Call Number")) by assumption.
  unfold get.
  destruct (row !! py "LC Call Number") as [[v|]|]; cbn [mbind option_bind];
    split; intros H; congruence.
Qed.

Section RankingFacts.
Variable upper_full : N -> pystr.
Variable sub_and_others : pystr -> pystr.

(** A row on which the first loop raises: at the substitution, or at the
    conversion of a cutter number of the call number that is ranked. *)
Lemma clean_row_None row_id row :
  clean_row upper_full sub_and_others row_id row = None
  <-> row !! py "LC Call Number" = Some None
      \/ exists w, cleaning_row sub_and_others row = Some w
                   /\ sortable upper_full (best_call_number_for_sort w)
                      = false.
Proof.
  rewrite clean_row_cleaning.
  destruct (cleaning_row sub_and_others row) as [w|] eqn:Ew;
    cbn [mbind option_bind].
  - destruct (lc_sort_key upper_full (best_call_number_for_sort w))
      as [k|] eqn:Ek; cbn [mbind option_bind].
    + apply lc_sort_key_returned in Ek. split; [discriminate|].
      intros [Hn|(w' & [= <-] & Hs)]; [|congruence].
      apply (cleaning_row_None sub_and_others) in Hn. congruence.
    + split; [|reflexivity]. intros _. right. exists w. split; [reflexivity|].
      destruct (sortable upper_full (best_call_number_for_sort w)) eqn:Es;
        [|reflexivity].
      destruct (lc_sort_key_eq upper_full (best_call_number_for_sort w))
        as (_ & _ & k & _ & Hk & _).
      rewrite Es in Hk. congruence.
  - split; [|reflexivity]. intros _. left.
    exact (proj1 (cleaning_row_None sub_and_others row) Ew).
Qed.

Lemma clean_row_raises row_id row :
  row !! py "LC Call Number" = Some None ->
  clean_row upper_full sub_and_others row_id row = None.
Proof. intros H. apply clean_row_None. now left. Qed.

Lemma clean_row_returns row_id row r :
  clean_row upper_full sub_and_others row_id row = Some r -> cleanable row.
Proof.
  intros H Hn. now rewrite (clean_row_raises row_id row Hn) in H.
Qed.

Lemma first_pass_returns c rows crs :
  first_pass upper_full sub_and_others c rows = Some crs ->
  Forall cleanable rows.
Proof.
  revert c crs. induction rows as [|row rows IH]; intros c crs H;
    [constructor|].
  cbn [first_pass] in H.
  destruct (clean_row upper_full sub_and_others (c + 1) row) as [r|] eqn:Er;
    [|discriminate].
  cbn [mbind option_bind] in H.
  destruct (first_pass upper_full sub_and_others (c + 1) rows) as [rs|] eqn:Es;
    [|discriminate].
  constructor; [eapply clean_row_returns, Er|eapply IH, Es].
Qed.

Lemma first_pass_None c rows :
  first_pass upper_full sub_and_others c rows = None
  <-> Exists (fun row =>
                row !! py "LC Call Number" = Some None
                \/ exists w, cleaning_row sub_and_others row = Some w
                     /\ sortable upper_full (best_call_number_for_sort w)
                        = false) rows.
Proof.
  revert c. induction rows as [|row rows IH]; intros c.
  - split; [discriminate|]. intros H. inversion H.
  - cbn [first_pass]. rewrite Exists_cons, <- (IH (c + 1)%Z).
    rewrite <- (clean_row_None (c + 1) row).
    destruct (clean_row upper_full sub_and_others (c + 1) row) as [r|];
      cbn [mbind option_bind].
    + destruct (first_pass upper_full sub_and_others (c + 1) rows);
        cbn [mbind option_bind]; split; intros H;
        try discriminate; try tauto.
      destruct H; discriminate.
    + split; [now left|reflexivity].
Qed.

(** The index built from the sorted rows sends the row at position [p] to
    [p + 1]. *)
Lemma build_index_seq (l : list CleanedRow) :
  List.NoDup (List.map _row_id l) ->
  List.map (fun r => default 0%Z (build_index 0 l ∅ !! _row_id r)) l
  = seqZ 1 (Z.of_nat (length l)).
Proof.
  intros Hnd. apply list_eq. intros p.
  change (List.map ?f l) with (f <$> l). rewrite list_lookup_fmap.
  destruct (l !! p) as [r|] eqn:E; cbn [fmap option_fmap option_map].
  - rewrite (build_index_lookup l 0 ∅ p r Hnd E). cbn [default].
    pose proof (lookup_lt_Some _ _ _ E) as Hlt. symmetry.
    rewrite lookup_seqZ_lt by lia. reflexivity.
  - apply lookup_ge_None in E. symmetry. apply lookup_seqZ_ge. lia.
Qed.

Lemma written_rows_maps (idx : gmap Z Z) l out :
  Forall2 (fun r w => w_fields w = delete (py "LC_SortIndex") (cr_fields r)
                      /\ idx !! _row_id r = Some (LC_SortIndex w)) l out ->
  List.map w_fields out
  = List.map (fun r => delete (py "LC_SortIndex") (cr_fields r)) l
  /\ List.map LC_SortIndex out
     = List.map (fun r => default 0%Z (idx !! _row_id r)) l.
Proof.
  induction 1 as [|r w l out' [Hf Hi] HF [IH1 IH2]]; [split; reflexivity|].
  cbn [List.map]. rewrite Hf, Hi, IH1, IH2. split; reflexivity.
Qed.

(** What the sort, the index and the final loop give on a batch that the
    first loop has cleaned: the rows written carry the fields of the
    cleaned rows and the number that the index holds for their id. *)
Lemma ranking_pass_index rows cleaned :
  first_pass upper_full sub_and_others 0 rows = Some cleaned ->
  exists out,
    ranking_pass upper_full sub_and_others rows = Some out
    /\ length cleaned = length rows
    /\ List.NoDup (List.map _row_id cleaned)
    /\ List.map w_fields out
       = List.map (fun r => delete (py "LC_SortIndex") (cr_fields r)) cleaned
    /\ List.map LC_SortIndex out
       = List.map
           (fun r => default 0%Z
              (build_index 0 (sorted_by _lc_sort_key cleaned) ∅
                 !! _row_id r)) cleaned.
Proof.
  intros Hfp.
  destruct (first_pass_spec upper_full sub_and_others 0 rows cleaned Hfp)
    as (Hlen & Hall).
  apply Forall2_length in Hlen.
  set (sorted := sorted_by _lc_sort_key cleaned).
  assert (Hperm : Permutation sorted cleaned) by apply sorted_by_perm.
  assert (Hndc : List.NoDup (List.map _row_id cleaned)).
  { apply ids_NoDup, (ids_increasing cleaned 1). intros i r Hi.
    now destruct (Hall i r Hi) as [-> _]. }
  assert (Hnd : List.NoDup (List.map _row_id sorted)).
  { eapply Permutation_NoDup; [|exact Hndc].
    symmetry. now apply Permutation_map. }
  destruct (write_rows_spec (build_index 0 sorted ∅) cleaned)
    as (out & Hout & HF).
  { intros r Hr. apply (Permutation_in _ (Permutation_sym Hperm)) in Hr.
    apply list_elem_of_In, list_elem_of_lookup in Hr as [p Hp].
    rewrite (build_index_lookup sorted 0 ∅ p r Hnd Hp). eauto. }
  exists out.
  split; [unfold ranking_pass; rewrite Hfp; exact Hout|].
  split; [now symmetry|]. split; [exact Hndc|].
  now apply written_rows_maps.
Qed.

(** X11.  The ranking pass raises on exactly the batches in which some row
    has [None] under "LC Call Number" (a line of the file that is too
    short to reach that column), where the substitution of the first loop
    raises, or in which the call number that is ranked for some row holds
    a cutter group of more digits than [int] converts.  Every other batch
    is cleaned, ranked and written. *)
Theorem ranking_pass_raises_iff (rows : list Row) :
  ranking_pass upper_full sub_and_others rows = None
  <-> Exists (fun row =>
                row !! py "LC Call Number" = Some None
                \/ exists w, cleaning_row sub_and_others row = Some w
                     /\ sortable upper_full (best_call_number_for_sort w)
                        = false) rows.
Proof.
  rewrite <- (first_pass_None 0 rows). unfold ranking_pass.
  destruct (first_pass upper_full sub_and_others 0 rows) as [crs|] eqn:E;
    [|tauto].
  destruct (ranking_pass_index rows crs E) as (out & Hr & _).
  unfold ranking_pass in Hr. rewrite E in Hr. rewrite Hr.
  split; discriminate.
Qed.

(** X12.  The ranks that the pass writes are the numbers 1 to n, each
    given to exactly one of the n rows: no rank is shared, also between
    rows with equal keys, and none is skipped. *)
Theorem ranks_are_one_to_n (rows : list Row) (out : list WrittenRow) :
  ranking_pass upper_full sub_and_others rows = Some out ->
  length out = length rows
  /\ Permutation (List.map LC_SortIndex out)
       (seqZ 1 (Z.of_nat (length rows))).
Proof.
  intros Hout.
  destruct (first_pass upper_full sub_and_others 0 rows) as [cleaned|] eqn:E;
    [|unfold ranking_pass in Hout; rewrite E in Hout; discriminate].
  destruct (ranking_pass_index rows cleaned E)
    as (out' & Hr & Hlen & Hnd & Hf & Hi).
  rewrite Hout in Hr. injection Hr as <-.
  split.
  - rewrite <- Hlen, <- (length_map w_fields out), Hf.
    now rewrite length_map.
  - rewrite Hi, <- Hlen.
    rewrite <- (Permutation_length (sorted_by_perm _lc_sort_key cleaned)).
    rewrite <- build_index_seq.
    + apply Permutation_map. symmetry. apply sorted_by_perm.
    + eapply Permutation_NoDup; [|exact Hnd].
      symmetry. apply Permutation_map, sorted_by_perm.
Qed.

(** X13.  A batch whose rows already come in non-decreasing key order is
    ranked in the order it was read, ties included: the ranks written are
    1, 2, ..., n. *)
Theorem sorted_batch_keeps_order (rows : list Row)
    (cleaned : list CleanedRow) (out : list WrittenRow) :
  first_pass upper_full sub_and_others 0 rows = Some cleaned ->
  ranking_pass upper_full sub_and_others rows = Some out ->
  Sorted (key_le _lc_sort_key) cleaned ->
  List.map LC_SortIndex out = seqZ 1 (Z.of_nat (length rows)).
Proof.
  intros Hfp Hout Hs.
  destruct (ranking_pass_index rows cleaned Hfp)
    as (out' & Hr & Hlen & Hnd & _ & Hi).
  rewrite Hout in Hr. injection Hr as <-.
  rewrite Hi, (sorted_by_fixed _ _ Hs), <- Hlen.
  now apply build_index_seq.
Qed.

End RankingFacts.

Lemma ranks_are_one_to_n_witness :
  Permutation [2; 1; 3]%Z (seqZ 1 3).
Proof.
  apply (ranks_are_one_to_n keep_char leave_text example_rows
           (default [] (ranking_pass keep_char leave_text example_rows))).
  vm_compute. reflexivity.
Defined.

Lemma sorted_batch_keeps_order_witness :
  List.map LC_SortIndex
    (default [] (ranking_pass keep_char leave_text ordered_rows))
  = seqZ 1 (Z.of_nat (length ordered_rows)).
Proof.
  apply (sorted_batch_keeps_order keep_char leave_text ordered_rows
           (default [] (first_pass keep_char leave_text 0 ordered_rows))).
  - vm_compute. reflexivity.
  - vm_compute. reflexivity.
  - vm_compute. repeat constructor.
Defined.

(** ** What cleaning a row changes *)

Lemma rewritten_fields_distinct :
  List.NoDup rewritten_fields.
Proof.
  unfold rewritten_fields.
  repeat constructor; cbn [In]; intros H;
    repeat (destruct H as [H|H]; [vm_compute in H; discriminate|]);
    exact H.
Qed.



(** Two of the four column names differ. *)
Ltac field_ne :=
  let E := fresh "E" in
  intros E; first [tauto | symmetry in E; tauto].

Section RowFacts.
Variable sub_and_others : pystr -> pystr.

(** The row that the loop body builds, field by field. *)
Lemma cleaning_row_inv (row w : Row) :
  cleaning_row sub_and_others row = Some w ->
  exists lc_raw,
    get row (py "LC Call Number") (Some []) = Some lc_raw
    /\ w = <[py "LC Call Number" :=
              Some (clean_call_number_keep_space_before_year
                      (Some (strip (sub_and_others lc_raw))))]>
           (<[py "Local Call Number" :=
                Some (clean_call_number_keep_space_before_year
                        (get row (py "Local Call Number") (Some [])))]>
              (<[py "CNfromPA" :=
                   Some (clean_call_number_keep_space_before_year
                           (Some (snd (extract_from_physical_availability
                                         (get row (py "Physical Availability")
                                            (Some []))))))]>
                 (<[py "Physical Availability" :=
                      Some (fst (extract_from_physical_availability
                                   (get row (py "Physical Availability")
                                      (Some []))))]> row))).
Proof.
  unfold cleaning_row.
  destruct (extract_from_physical_availability _) as [location cn_from_pa].
  pose proof rewritten_fields_distinct as Hd. unfold rewritten_fields in Hd.
  apply NoDup_cons_iff in Hd as [H1 Hd]. apply NoDup_cons_iff in Hd as [H2 Hd].
  apply NoDup_cons_iff in Hd as [H3 _]. cbn [In] in H1, H2, H3.
  rewrite !(get_insert_ne _ _ _ (py "LC Call Number")) by field_ne.
  rewrite !(get_insert_ne _ _ _ (py "Local Call Number")) by field_ne.
  destruct (get row (py "LC Call Number") (Some [])) as [lc_raw|];
    [|discriminate].
  cbn [mbind option_bind fst snd]. intros [= <-]. now exists lc_raw.
Qed.


(** X17.  Cleaning is not repeatable as a whole: cleaning a cleaned row
    again keeps the location, the Local and the LC call number as they
    are, and empties CNfromPA, since the location no longer holds the
    fragment.  The hypothesis says that the "and others" substitution finds
    nothing in the cleaned LC call number. *)
Theorem cleaning_row_again (row w : Row) :
  cleaning_row sub_and_others row = Some w ->
  (forall v, w !! py "LC Call Number" = Some (Some v) ->
             sub_and_others v = v) ->
  cleaning_row sub_and_others w = Some (<[py "CNfromPA" := Some []]> w).
Proof.
  intros H Hsub. apply cleaning_row_inv in H as (lc_raw & _ & Hw).
  pose proof rewritten_fields_distinct as Hd. unfold rewritten_fields in Hd.
  apply NoDup_cons_iff in Hd as [H1 Hd]. apply NoDup_cons_iff in Hd as [H2 Hd].
  apply NoDup_cons_iff in Hd as [H3 _]. cbn [In] in H1, H2, H3.
  set (l := fst (extract_from_physical_availability
                   (get row (py "Physical Availability") (Some [])))) in *.
  set (c := clean_call_number_keep_space_before_year
              (Some (snd (extract_from_physical_availability
                            (get row (py "Physical Availability")
                               (Some [])))))) in *.
  set (b := clean_call_number_keep_space_before_year
              (get row (py "Local Call Number") (Some []))) in *.
  set (a := clean_call_number_keep_space_before_year
              (Some (strip (sub_and_others lc_raw)))) in *.
  assert (Wa : w !! py "LC Call Number" = Some (Some a))
    by (rewrite Hw; apply lookup_insert_eq).
  assert (Wb : w !! py "Local Call Number" = Some (Some b)).
  { rewrite Hw, lookup_insert_ne by field_ne. apply lookup_insert_eq. }
  assert (Wl : w !! py "Physical Availability" = Some (Some l)).
  { rewrite Hw, !lookup_insert_ne by field_ne. apply lookup_insert_eq. }
  clear Hw. specialize (Hsub a Wa).
  assert (El : extract_from_physical_availability
                 (get w (py "Physical Availability") (Some [])) = (l, [])).
  { unfold get. rewrite Wl. apply extract_location_fixed. }
  unfold cleaning_row. rewrite El.
  rewrite !(get_insert_ne _ _ _ (py "LC Call Number")) by field_ne.
  rewrite !(get_insert_ne _ _ _ (py "Local Call Number")) by field_ne.
  unfold get. rewrite Wa, Wb. cbn [mbind option_bind].
  rewrite Hsub. unfold a at 1. rewrite clean_trimmed. fold a.
  unfold a at 1, b at 1. rewrite !clean_stable. fold a. fold b.
  f_equal. apply map_eq. intros k.
  destruct (decide (k = py "LC Call Number")) as [->|Na].
  { rewrite lookup_insert_eq, lookup_insert_ne by field_ne. now rewrite Wa. }
  rewrite (lookup_insert_ne _ (py "LC Call Number")) by congruence.
  destruct (decide (k = py "Local Call Number")) as [->|Nb].
  { rewrite lookup_insert_eq, lookup_insert_ne by field_ne. now rewrite Wb. }
  rewrite (lookup_insert_ne _ (py "Local Call Number")) by congruence.
  destruct (decide (k = py "CNfromPA")) as [->|Nc].
  { now rewrite !lookup_insert_eq. }
  rewrite !(lookup_insert_ne _ (py "CNfromPA")) by congruence.
  destruct (decide (k = py "Physical Availability")) as [->|Np].
  { rewrite lookup_insert_eq. now rewrite Wl. }
  now rewrite lookup_insert_ne by congruence.
Qed.

End RowFacts.


Lemma cleaning_row_again_witness :
  cleaning_row leave_text
    (default ∅ (cleaning_row leave_text (example_row "QA76.73 .C153 2019")))
  = Some (<[py "CNfromPA" := Some []]>
            (default ∅ (cleaning_row leave_text
                          (example_row "QA76.73 .C153 2019")))).
Proof.
  apply (cleaning_row_again leave_text (example_row "QA76.73 .C153 2019")).
  - vm_compute. reflexivity.
  - reflexivity.
Defined.

(** ** The two scripts clean alike *)

Section CleaningFacts.
Variable upper_full : N -> pystr.
Variable sub_and_others : pystr -> pystr.

Lemma first_pass_cleaning c rows cleaned :
  first_pass upper_full sub_and_others c rows = Some cleaned ->
  exists ws,
    cleaning_pass sub_and_others rows = (ws, true)
    /\ Forall2 (fun row w => cleaning_row sub_and_others row = Some w)
         rows ws
    /\ List.map (fun r => delete (py "LC_SortIndex") (cr_fields r)) cleaned
       = List.map without_script_names ws.
Proof.
  revert c cleaned. induction rows as [|row rows IH]; intros c cleaned H.
  - injection H as <-. exists []. repeat split. constructor.
  - cbn [first_pass] in H.
    destruct (clean_row upper_full sub_and_others (c + 1) row) as [r|] eqn:Er;
      [|discriminate].
    cbn [mbind option_bind] in H.
    destruct (first_pass upper_full sub_and_others (c + 1) rows)
      as [rs|] eqn:Es; [|discriminate].
    injection H as <-.
    destruct (clean_row_inv _ _ _ _ _ Er) as (_ & _ & _ & w & Hw & Hf).
    destruct (IH _ _ Es) as (ws & Hws & HF & Hm).
    exists (w :: ws). cbn [cleaning_pass List.map].
    rewrite Hw, Hws, Hm, Hf. repeat split. now constructor.
Qed.

Lemma cleaning_row_raises row :
  row !! py "LC Call Number" = Some None ->
  cleaning_row sub_and_others row = None.
Proof. apply cleaning_row_None. Qed.

Lemma cleaning_row_no_script_name row w k :
  cleaning_row sub_and_others row = Some w ->
  In k script_names -> row !! k = None -> w !! k = None.
Proof.
  intros Hw Hk Hrow.
  apply cleaning_row_inv in Hw as (lc_raw & _ & ->).
  rewrite !lookup_insert_ne; [exact Hrow|..];
    unfold script_names in Hk; cbn [In] in Hk;
    destruct Hk as [<-|[<-|[<-|[]]]]; name_ne.
Qed.

(** X14.  On every batch that the index script ranks, the cleaning script
    comes to its end and writes the same rows, with the same fields but
    for the three names that the index script uses for values of its own:
    a column of the input called "_row_id", "_lc_sort_key" or
    "LC_SortIndex" is kept by the cleaning script and overwritten by the
    index script.  On a batch without such columns the index script adds
    the rank and changes nothing else. *)
Theorem scripts_clean_alike (rows : list Row) (out : list WrittenRow) :
  ranking_pass upper_full sub_and_others rows = Some out ->
  exists ws,
    cleaning_pass sub_and_others rows = (ws, true)
    /\ List.map w_fields out = List.map without_script_names ws
    /\ (Forall (fun row => forall k, In k script_names -> row !! k = None)
          rows ->
        List.map w_fields out = ws).
Proof.
  intros Hout.
  destruct (first_pass upper_full sub_and_others 0 rows) as [cleaned|] eqn:E;
    [|unfold ranking_pass in Hout; rewrite E in Hout; discriminate].
  destruct (ranking_pass_index upper_full sub_and_others rows cleaned E)
    as (out' & Hr & _ & _ & Hf & _).
  rewrite Hout in Hr. injection Hr as <-.
  destruct (first_pass_cleaning _ _ _ E) as (ws & Hws & HF & Hm).
  exists ws. split; [exact Hws|]. rewrite Hf, Hm. split; [reflexivity|].
  intros Hrows. clear Hws Hm Hf E Hout.
  induction HF as [|row w rows' ws' Hw HF IH]; [reflexivity|].
  apply Forall_cons in Hrows as [Hrow Hrows].
  cbn [List.map]. rewrite (IH Hrows). f_equal.
  unfold without_script_names.
  rewrite !delete_id; [reflexivity|..];
    try rewrite !lookup_delete_ne by name_ne;
    apply (cleaning_row_no_script_name row w _ Hw);
    try (apply Hrow); unfold script_names; cbn [In]; tauto.
Qed.

(** X15.  At a row without a string under "LC Call Number" both scripts
    raise, with different outputs: the cleaning script has written every
    row before it, the index script has written no row at all, since it
    writes only after its first loop. *)
Theorem scripts_differ_on_failure (good rest : list Row) (bad : Row) :
  Forall cleanable good ->
  bad !! py "LC Call Number" = Some None ->
  (exists written,
      cleaning_pass sub_and_others (good ++ bad :: rest) = (written, false)
      /\ Forall2 (fun row w => cleaning_row sub_and_others row = Some w)
           good written)
  /\ ranking_pass upper_full sub_and_others (good ++ bad :: rest) = None.
Proof.
  intros Hgood Hbad. split.
  - induction Hgood as [|row good Hrow _ (written & Hw & HF)].
    + exists []. cbn [app cleaning_pass].
      rewrite (cleaning_row_raises _ Hbad). split; [reflexivity|constructor].
    + destruct (cleaning_row sub_and_others row) as [w|] eqn:Er.
      * exists (w :: written). cbn [app cleaning_pass].
        rewrite Er, Hw. split; [reflexivity|now constructor].
      * apply cleaning_row_None in Er. now apply Hrow in Er.
  - unfold ranking_pass.
    destruct (first_pass upper_full sub_and_others 0 (good ++ bad :: rest))
      as [crs|] eqn:E; [|reflexivity].
    apply first_pass_returns in E. exfalso.
    apply Forall_app in E as [_ E]. apply Forall_cons in E as [E _].
    now apply E.
Qed.

End CleaningFacts.

Lemma scripts_clean_alike_witness :
  exists ws,
    cleaning_pass leave_text example_rows = (ws, true)
    /\ List.map w_fields
         (default [] (ranking_pass keep_char leave_text example_rows))
       = List.map without_script_names ws
    /\ (Forall (fun row => forall k, In k script_names -> row !! k = None)
          example_rows ->
        List.map w_fields
          (default [] (ranking_pass keep_char leave_text example_rows))
        = ws).
Proof.
  apply (scripts_clean_alike keep_char leave_text example_rows).
  vm_compute. reflexivity.
Defined.

Lemma scripts_differ_on_failure_witness :
  (exists written,
      cleaning_pass leave_text (example_rows ++ short_row :: example_rows)
      = (written, false)
      /\ Forall2 (fun row w => cleaning_row leave_text row = Some w)
           example_rows written)
  /\ ranking_pass keep_char leave_text
       (example_rows ++ short_row :: example_rows) = None.
Proof.
  apply (scripts_differ_on_failure keep_char leave_text example_rows
           example_rows short_row).
  - repeat constructor; unfold cleanable; vm_compute; discriminate.
  - vm_compute. reflexivity.
Defined.

(** ** The value that is ranked *)

Section RankedValue.
Variable upper_full : N -> pystr.
Variable sub_and_others : pystr -> pystr.

(** X18.  The call number that is ranked can be read in the row that is
    written: the key of a row is the key of its LC Call Number column as
    written, of its Local Call Number column when that one is empty, of
    its CNfromPA column when both are; trimming them again, as
    [best_call_number_for_sort] does, changes nothing. *)
Theorem ranked_value_is_written (row_id : Z) (row : Row) (r : CleanedRow) :
  clean_row upper_full sub_and_others row_id row = Some r ->
  exists lc loc cn,
    cr_fields r !! py "LC Call Number" = Some (Some lc)
    /\ cr_fields r !! py "Local Call Number" = Some (Some loc)
    /\ cr_fields r !! py "CNfromPA" = Some (Some cn)
    /\ lc_sort_key upper_full
         (if negb (is_empty lc) then lc
          else if negb (is_empty loc) then loc else cn)
       = Some (_lc_sort_key r).
Proof.
  intros Hr.
  destruct (clean_row_inv _ _ _ _ _ Hr) as (_ & _ & Hk & w0 & Hw0 & Hf).
  apply cleaning_row_inv in Hw0 as (lc_raw & _ & Hw).
  pose proof rewritten_fields_distinct as Hd. unfold rewritten_fields in Hd.
  apply NoDup_cons_iff in Hd as [H1 Hd]. apply NoDup_cons_iff in Hd as [H2 Hd].
  apply NoDup_cons_iff in Hd as [H3 _]. cbn [In] in H1, H2, H3.
  set (w := cr_fields r) in *.
  set (cn := clean_call_number_keep_space_before_year
               (Some (snd (extract_from_physical_availability
                             (get row (py "Physical Availability")
                                (Some [])))))) in *.
  set (loc := clean_call_number_keep_space_before_year
                (get row (py "Local Call Number") (Some []))) in *.
  set (lc := clean_call_number_keep_space_before_year
               (Some (strip (sub_and_others lc_raw)))) in *.
  assert (Wa : w !! py "LC Call Number" = Some (Some lc)).
  { rewrite Hf, !lookup_delete_ne by name_ne.
    rewrite Hw. apply lookup_insert_eq. }
  assert (Wb : w !! py "Local Call Number" = Some (Some loc)).
  { rewrite Hf, !lookup_delete_ne by name_ne.
    rewrite Hw, lookup_insert_ne by field_ne. apply lookup_insert_eq. }
  assert (Wc : w !! py "CNfromPA" = Some (Some cn)).
  { rewrite Hf, !lookup_delete_ne by name_ne.
    rewrite Hw, !lookup_insert_ne by field_ne. apply lookup_insert_eq. }
  exists lc, loc, cn. repeat split; try assumption.
  rewrite <- Hk. f_equal. unfold best_call_number_for_sort, ranking_fields.
  rewrite !first_nonempty_step. unfold trimmed_field.
  rewrite Wa, Wb, Wc.
  assert (Sa : strip lc = lc) by apply clean_trimmed.
  assert (Sb : strip loc = loc) by apply clean_trimmed.
  assert (Sc : strip cn = cn) by apply clean_trimmed.
  rewrite Sa, Sb, Sc. cbn [first_nonempty].
  destruct (is_empty lc), (is_empty loc), (is_empty cn) eqn:Ec;
    cbn [negb]; try reflexivity.
  now destruct cn.
Qed.

End RankedValue.

Lemma ranked_value_is_written_witness :
  exists lc loc cn,
    cr_fields (default (mkCleanedRow ∅ 0 all_missing)
                 (clean_row keep_char leave_text 1 (example_row "")))
      !! py "LC Call Number" = Some (Some lc)
    /\ cr_fields (default (mkCleanedRow ∅ 0 all_missing)
                    (clean_row keep_char leave_text 1 (example_row "")))
         !! py "Local Call Number" = Some (Some loc)
    /\ cr_fields (default (mkCleanedRow ∅ 0 all_missing)
                    (clean_row keep_char leave_text 1 (example_row "")))
         !! py "CNfromPA" = Some (Some cn)
    /\ lc_sort_key keep_char
         (if negb (is_empty lc) then lc
          else if negb (is_empty loc) then loc else cn)
       = Some (_lc_sort_key
                 (default (mkCleanedRow ∅ 0 all_missing)
                    (clean_row keep_char leave_text 1 (example_row "")))).
Proof.
  apply (ranked_value_is_written keep_char leave_text 1 (example_row "")).
  vm_compute. reflexivity.
Defined.
